(** * Legal intelligence agent: retrieval, feedback store and orchestration

  A shallow embedding of [rag_agent/feedback.py], [rag_agent/retriever.py],
  [rag_agent/llm.py] and [rag_agent/agent.py], followed by the properties of
  the feedback store, the precedent ranker, the grounding checker, the plan
  builder and the confidence estimator.

  Conventions of the embedding.
  - Python [float] values are exact rationals ([Q]); [round(x, 4)] is
    round-half-to-even at four decimals.  The rounding of IEEE arithmetic
    is not modelled.
  - Python [str] values are [string]s of bytes; [lower] folds the ASCII
    letters, which is what [str.lower] does on ASCII text.
  - A Python exception is the left summand of the result of a computation
    in the monad [M]; [try ... except Exception] is [try_except].
  - The feedback file and the module-level dictionary [DEFAULT_FEEDBACK]
    are the two mutable objects of the program; both live in [World].
  - In [World] a feedback file that holds a JSON object has counters that
    are integers and boosts that are numbers, as [_save] writes them.  What
    the ranker does on a file of any other content is in the module [raw],
    and [RawFacts.typed_files_agree] relates the two.
  - The sentence encoder, the two NumPy routines and the chat service are
    outside the sources: the similarities are a field of [Retriever], the
    routines are the class [Sorting] with the laws [SortingLaws], and the
    chat service is the class [NvidiaChatClient]. *)

From Stdlib Require Import ZArith QArith Qround Qminmax Lqa Lia.
From Stdlib Require Import Ascii String DecimalString.
From Stdlib Require Import List Permutation Sorted.
From stdpp Require Import base option list gmap strings.

Local Open Scope string_scope.
Local Open Scope list_scope.
Local Open Scope Z_scope.

(* ===================================================================== *)
(** * Part I: the program *)
(* ===================================================================== *)

(** ** Python string operations used by the sources *)
Module Text.

(** [str.lower] on one ASCII character. *)
Definition lower_ascii (c : ascii) : ascii :=
  let n := nat_of_ascii c in
  if ((65 <=? n)%nat && (n <=? 90)%nat)%bool then ascii_of_nat (n + 32) else c.

Fixpoint lower (s : string) : string :=
  match s with
  | EmptyString => EmptyString
  | String c s' => String (lower_ascii c) (lower s')
  end.

(** [s.find(sub)] as an optional offset. *)
Fixpoint find_nat (sub s : string) : option nat :=
  if String.prefix sub s then Some 0%nat
  else match s with
       | EmptyString => None
       | String _ s' => S <$> find_nat sub s'
       end.

(** [s.find(sub)]: the first offset of [sub] in [s], or [-1]. *)
Definition find (s sub : string) : Z :=
  match find_nat sub s with
  | Some i => Z.of_nat i
  | None => -1
  end.

(** [sub in s]. *)
Definition contains (sub s : string) : bool :=
  match find_nat sub s with
  | Some _ => true
  | None => false
  end.

(** [any(t in s for t in terms)]. *)
Definition any_in (terms : list string) (s : string) : bool :=
  existsb (fun t => contains t s) terms.
#[global] Arguments any_in : simpl never.

(** [x in xs] on a list of strings. *)
Definition mem (x : string) (xs : list string) : bool :=
  existsb (String.eqb x) xs.

(** Characters removed by [str.strip()] (ASCII range). *)
Definition is_space (c : ascii) : bool :=
  let n := nat_of_ascii c in
  (((9 <=? n)%nat && (n <=? 13)%nat) || ((28 <=? n)%nat && (n <=? 32)%nat))%bool.

Fixpoint lstrip (s : string) : string :=
  match s with
  | EmptyString => EmptyString
  | String c s' => if is_space c then lstrip s' else s
  end.

Fixpoint rstrip (s : string) : string :=
  match s with
  | EmptyString => EmptyString
  | String c s' =>
      match rstrip s' with
      | EmptyString => if is_space c then EmptyString else String c EmptyString
      | r => String c r
      end
  end.

Definition strip (s : string) : string := rstrip (lstrip s).

(** [len(s)]. *)
Definition len (s : string) : Z := Z.of_nat (String.length s).

(** A slice bound normalised as Python does: negative bounds count from
    the end, and everything is clamped to [0, len]. *)
Definition clamp_index (n i : Z) : Z :=
  let i' := if i <? 0 then i + n else i in
  Z.max 0 (Z.min n i').

(** [s[start:stop]]. *)
Definition slice (s : string) (start stop : Z) : string :=
  let n := len s in
  let a := clamp_index n start in
  let b := clamp_index n stop in
  String.substring (Z.to_nat a) (Z.to_nat (b - a)) s.

(** [str(n)] for an integer. *)
Definition str_of_Z (n : Z) : string := NilZero.string_of_int (Z.to_int n).

(** [sorted] on strings: insertion into an ordered list, by code point. *)
Fixpoint insert_sorted (x : string) (l : list string) : list string :=
  match l with
  | [] => [x]
  | y :: l' => if String.leb x y then x :: l else y :: insert_sorted x l'
  end.

Definition sorted (l : list string) : list string :=
  foldr insert_sorted [] l.

(** [list(dict.fromkeys(l))]: duplicates dropped, first occurrence kept. *)
Fixpoint fromkeys (l : list string) (seen : gset string) : list string :=
  match l with
  | [] => []
  | x :: l' =>
      if decide (x ∈ seen) then fromkeys l' seen
      else x :: fromkeys l' ({[x]} ∪ seen)
  end.

End Text.

(** ** The Python run time the sources rely on: floats, exceptions, the
  feedback file and the module-level default dictionary *)
Module Py.

Local Open Scope Q_scope.

(** [max(a, b)] and [min(a, b)] on floats: the first argument wins a tie. *)
Definition max (a b : Q) : Q := if Qlt_le_dec a b then b else a.
Definition min (a b : Q) : Q := if Qlt_le_dec b a then b else a.

(** Nearest integer, ties to the even one. *)
Definition round_half_even (x : Q) : Z :=
  let f := Qfloor x in
  match Qcompare (x - inject_Z f) (1 # 2) with
  | Lt => f
  | Gt => (f + 1)%Z
  | Eq => if Z.even f then f else (f + 1)%Z
  end.

(** [round(x, ndigits)]. *)
Definition round (x : Q) (ndigits : nat) : Q :=
  let p := inject_Z (10 ^ Z.of_nat ndigits) in
  Qred (inject_Z (round_half_even (x * p)) / p).

Inductive Exn : Set :=
| FileNotFoundError | OSError | JSONDecodeError
| AttributeError | ValueError | IndexError | RuntimeError
| TypeError | OverflowError.

(** What [json.load] yields for the feedback file.  An object is kept by
    the keys the program reads, each possibly absent; counters are integers
    and boosts are numbers, as [_save] writes them. *)
Record JsonObj : Type := mkJsonObj {
  j_style_bullets : option Z;
  j_style_citations : option Z;
  j_emphasis_proportionality : option Z;
  j_doc_boosts : option (gmap string Q);
  j_last_notes : option string
}.

Inductive Json : Type :=
| JObj (o : JsonObj)
| JOther.                      (* a list, a number, a string, null *)

Inductive File : Type :=
| Absent                       (* [os.path.exists] is false *)
| Unreadable                   (* [open] or [read] raises [OSError] *)
| Malformed                    (* the text is not JSON *)
| Stored (v : Json).

(** The mutable objects: the file at [FEEDBACK_PATH], whether it can be
    opened for writing, and the dictionary held under ["doc_boosts"] in
    the module-level [DEFAULT_FEEDBACK]. *)
Record World : Type := mkWorld {
  feedback_file : File;
  writable : bool;
  default_doc_boosts : gmap string Q
}.

(** Computations that read and write the world and may raise. *)
Definition M (A : Type) : Type := World -> (Exn + A) * World.

#[export] Instance M_ret : MRet M := fun A a w => (inr a, w).
#[export] Instance M_bind : MBind M := fun A B f m w =>
  match m w with
  | (inl e, w') => (inl e, w')
  | (inr a, w') => f a w'
  end.

Definition raise {A} (e : Exn) : M A := fun w => (inl e, w).

(** [try: body  except Exception: handler]. *)
Definition try_except {A} (body handler : M A) : M A := fun w =>
  match body w with
  | (inl _, w') => handler w'
  | r => r
  end.

(** [l[i]] on a list. *)
Definition index {A} (l : list A) (i : nat) : M A :=
  match l !! i with
  | Some x => mret x
  | None => raise IndexError
  end.

(** [[f(x) for x in l]] where [f] has effects. *)
Fixpoint for_each {A B} (f : A -> M B) (l : list A) : M (list B) :=
  match l with
  | [] => mret []
  | x :: l' => y ← f x; ys ← for_each f l'; mret (y :: ys)
  end.

Definition path_exists : M bool := fun w =>
  (inr match feedback_file w with Absent => false | _ => true end, w).

(** [with open(FEEDBACK_PATH, "r") as f: json.load(f)]. *)
Definition open_json_load : M Json := fun w =>
  match feedback_file w with
  | Absent => (inl FileNotFoundError, w)
  | Unreadable => (inl OSError, w)
  | Malformed => (inl JSONDecodeError, w)
  | Stored v => (inr v, w)
  end.

(** [with open(FEEDBACK_PATH, "w") as f: json.dump(o, f, indent=2)]. *)
Definition open_json_dump (o : JsonObj) : M unit := fun w =>
  if writable w
  then (inr tt, mkWorld (Stored (JObj o)) (writable w) (default_doc_boosts w))
  else (inl OSError, w).

(** A dictionary of boosts as the program holds it: by reference.  It is
    either the one inside [DEFAULT_FEEDBACK] or one built by [json.load]. *)
Inductive BoostsRef : Type :=
| DefaultDict
| OwnDict (m : gmap string Q).

Definition deref (w : World) (r : BoostsRef) : gmap string Q :=
  match r with
  | DefaultDict => default_doc_boosts w
  | OwnDict m => m
  end.

(** [dict(r)] read out. *)
Definition dict_items (r : BoostsRef) : M (gmap string Q) := fun w =>
  (inr (deref w r), w).

(** [r.get(k, dflt)]. *)
Definition dict_get (r : BoostsRef) (k : string) (dflt : Q) : M Q := fun w =>
  (inr (default dflt (deref w r !! k)), w).

(** [r[k] = v]: the object is changed in place. *)
Definition dict_set (r : BoostsRef) (k : string) (v : Q) : M BoostsRef := fun w =>
  match r with
  | DefaultDict =>
      (inr DefaultDict,
       mkWorld (feedback_file w) (writable w) (<[k := v]> (default_doc_boosts w)))
  | OwnDict m => (inr (OwnDict (<[k := v]> m)), w)
  end.

End Py.

(** ** rag_agent/feedback.py *)
Module feedback.
Import Py.

(** The dictionary [data] that [_load] returns and [record_feedback]
    updates.  After [_load] the four default keys are always present. *)
Record Data : Type := mkData {
  style_bullets : Z;
  style_citations : Z;
  emphasis_proportionality : Z;
  doc_boosts : BoostsRef;
  last_notes : option string
}.

(** [DEFAULT_FEEDBACK.copy()]: a new outer dictionary whose ["doc_boosts"]
    entry is still the dictionary of [DEFAULT_FEEDBACK]. *)
Definition DEFAULT_FEEDBACK_copy : Data := mkData 0 1 1 DefaultDict None.

(** [for k, v in DEFAULT_FEEDBACK.items(): data.setdefault(k, v)]. *)
Definition setdefaults (o : JsonObj) : Data :=
  mkData (default 0 (j_style_bullets o))
         (default 1 (j_style_citations o))
         (default 1 (j_emphasis_proportionality o))
         (match j_doc_boosts o with Some m => OwnDict m | None => DefaultDict end)
         (j_last_notes o).

Definition _load : M Data :=
  ex ← path_exists;
  if (ex : bool) then
    try_except
      (v ← open_json_load;
       match v with
       | JObj o => mret (setdefaults o)
       | JOther => raise AttributeError
       end)
      (mret DEFAULT_FEEDBACK_copy)
  else mret DEFAULT_FEEDBACK_copy.

Definition to_json (d : Data) (boosts : gmap string Q) : JsonObj :=
  mkJsonObj (Some (style_bullets d)) (Some (style_citations d))
            (Some (emphasis_proportionality d)) (Some boosts) (last_notes d).

Definition _save (d : Data) : M unit :=
  try_except
    (boosts ← dict_items (doc_boosts d); open_json_dump (to_json d boosts))
    (mret tt).

Record StyleFlags : Type := mkStyleFlags {
  flag_style_bullets : Z;
  flag_style_citations : Z;
  flag_emphasis_proportionality : Z
}.

Definition get_style_flags : M StyleFlags :=
  d ← _load;
  mret (mkStyleFlags (style_bullets d) (style_citations d)
                     (emphasis_proportionality d)).

Definition get_doc_boosts : M (gmap string Q) :=
  d ← _load;
  dict_items (doc_boosts d).

(** The loop [for did in used_doc_ids: ...] of [record_feedback]. *)
Fixpoint boost_loop (boosts : BoostsRef) (delta : Q) (ids : list string)
  : M BoostsRef :=
  match ids with
  | [] => mret boosts
  | did :: ids' =>
      c ← dict_get boosts did 0%Q;
      let cur := (c + delta)%Q in
      let cur := Py.max (-(2 # 10)) (Py.min (2 # 10) cur) in
      boosts' ← dict_set boosts did (Py.round cur 4);
      boost_loop boosts' delta ids'
  end.

Definition record_feedback (thumbs_up : bool)
    (used_doc_ids : option (list string)) (notes : string) : M Data :=
  data ← _load;
  let data :=
    if thumbs_up then
      mkData (style_bullets data)
             (Z.min 2 (style_citations data + 1))
             (Z.min 2 (emphasis_proportionality data + 1))
             (doc_boosts data) (last_notes data)
    else
      mkData (Z.min 2 (style_bullets data + 1))
             (style_citations data) (emphasis_proportionality data)
             (doc_boosts data) (last_notes data) in
  let boosts := doc_boosts data in
  let used_doc_ids := default [] used_doc_ids in
  let delta := if thumbs_up then (2 # 100)%Q else (- (2 # 100))%Q in
  boosts ← boost_loop boosts delta used_doc_ids;
  let data := mkData (style_bullets data) (style_citations data)
                     (emphasis_proportionality data) boosts (last_notes data) in
  let data :=
    if String.eqb notes "" then data
    else mkData (style_bullets data) (style_citations data)
                (emphasis_proportionality data) (doc_boosts data) (Some notes) in
  _ ← _save data;
  mret data.

End feedback.

(** ** The two NumPy routines [retrieve] calls *)
Module Numpy.
Import Py.

(** [np.argpartition(a, kth)] and [np.argsort(a)] on a vector.  NumPy fixes
    what they return only up to the order of equal keys, so the program is
    written against this interface; [stable] below is one implementation. *)
Class Sorting : Type := {
  argpartition : list Q -> Z -> Exn + list nat;
  argsort : list Q -> list nat
}.

(** [l[:k]]. *)
Definition take_slice {A} (l : list A) (k : Z) : list A :=
  firstn (Z.to_nat (Text.clamp_index (Z.of_nat (length l)) k)) l.

Definition key (a : list Q) (i : nat) : Q := nth i a 0%Q.

Fixpoint insert_idx (a : list Q) (i : nat) (l : list nat) : list nat :=
  match l with
  | [] => [i]
  | j :: l' =>
      if Qle_bool (key a i) (key a j) then i :: l else j :: insert_idx a i l'
  end.

(** Indices in ascending key order, equal keys in index order. *)
Definition stable_argsort (a : list Q) : list nat :=
  foldr (insert_idx a) [] (seq 0 (length a)).

(** NumPy's check on [kth]: a negative [kth] counts from the end, and a
    [kth] outside a non-empty vector is a [ValueError]. *)
Definition kth_in_bounds (n kth : Z) : bool :=
  let kth' := if kth <? 0 then kth + n else kth in
  ((n =? 0) || ((0 <=? kth') && (kth' <? n)))%bool.

Definition stable_argpartition (a : list Q) (kth : Z) : Exn + list nat :=
  if kth_in_bounds (Z.of_nat (length a)) kth
  then inr (stable_argsort a)
  else inl ValueError.

Definition stable : Sorting :=
  {| argpartition := stable_argpartition; argsort := stable_argsort |}.

End Numpy.

(** ** rag_agent/retriever.py *)
Module retriever.
Import Text Py Numpy.

Record Doc : Type := mkDoc {
  id : string;
  title : string;
  year : Z;
  court : string;
  level_weight : Q;
  tags : list string;
  text : string
}.

(** A [Retriever] object.  The sentence encoder is an external model:
    [similarities query] stands for [(self.embs @ qv).astype(float)], the
    cosine similarity of the query with each document, in corpus order. *)
Record Retriever : Type := mkRetriever {
  docs : list Doc;
  similarities : string -> list Q
}.

(** One element of the list [retrieve] returns:
    [{"score": score, **d.__dict__}]. *)
Record Scored : Type := mkScored {
  score : Q;
  doc : Doc
}.

Definition mapping : list (string * list string) :=
  [ ("privacy", ["privacy"; "article 21"; "fundamental right"; "data protection"; "personal data"]);
    ("proportionality", ["proportionality"; "least restrictive"; "necessity"; "balancing"]);
    ("biometric", ["biometric"; "aadhaar"; "fingerprint"; "iris"; "face recognition"; "facial recognition"]);
    ("safeguards", ["safeguards"; "oversight"; "data protection"; "audit"; "breach"]);
    ("legality", ["statute"; "law"; "legality"; "ultra vires"; "backed by law"]);
    ("religion", ["article 25"; "religion"; "religious"; "hijab"; "turban"; "kirpan"; "faith"; "worship"]);
    ("expression", ["article 19(1)(a)"; "freedom of speech"; "expression"; "symbolic"; "dress"; "slogan"]);
    ("equality", ["article 14"; "equality"; "equal"; "discrimination"; "arbitrary"]);
    ("trade", ["article 19(1)(g)"; "trade"; "business"; "commerce"; "e-commerce"]);
    ("assembly", ["article 19(1)(b)"; "protest"; "assembly"; "demonstration"]);
    ("internet", ["internet"; "shutdown"; "broadband"; "telecom"]);
    ("localization", ["localization"; "data localization"; "cross-border"; "data transfer"]);
    ("surveillance", ["surveillance"; "cctv"; "public safety"; "tracking"]) ].

Definition _issue_keywords (text : string) : list string :=
  let text_l := lower text in
  let kws :=
    map fst (List.filter (fun kv => any_in (snd kv) text_l) mapping) in
  Text.sorted (elements (list_to_set kws : gset string)).

Definition _issue_overlap (tags kws : list string) : Q :=
  match kws with
  | [] => 0%Q
  | _ =>
      (inject_Z (Z.of_nat (size ((list_to_set tags : gset string) ∩ list_to_set kws)))
       / inject_Z (Z.of_nat (size (list_to_set kws : gset string))))%Q
  end.

Definition _recency (year current_year : Z) : Q :=
  let age := Z.max 0 (current_year - year) in
  Py.max 0%Q (1 - inject_Z age / 20)%Q.

(** The default of the parameter [current_year]. *)
Definition current_year_default : Z := 2025.

Definition _precedent_score (sim : Q) (d : Doc) (kws : list string) : M Q :=
  let '(a, b, c, e) := ((55 # 100)%Q, (15 # 100)%Q, (2 # 10)%Q, (1 # 10)%Q) in
  let base := (a * sim + b * _recency (year d) current_year_default
               + c * level_weight d + e * _issue_overlap (tags d) kws)%Q in
  boosts ← feedback.get_doc_boosts;
  let boost := default 0%Q (boosts !! id d) in
  mret (base + boost)%Q.

Definition lift_exn {A} (r : Exn + A) : M A :=
  match r with
  | inl e => raise e
  | inr a => mret a
  end.

Definition retrieve `{Sorting} (self : Retriever) (query : string) (k : Z)
  : M (list Scored) :=
  let kws := _issue_keywords query in
  let sims := similarities self query in
  let neg_sims := map Qopp sims in
  let k := Z.min k (Z.of_nat (length (docs self))) in
  part ← lift_exn (argpartition neg_sims (k - 1));
  let idxs := take_slice part k in
  keys ← for_each (index neg_sims) idxs;
  idxs ← for_each (index idxs) (argsort keys);
  for_each (fun idx =>
              d ← index (docs self) idx;
              sim ← index sims idx;
              sc ← _precedent_score sim d kws;
              mret (mkScored sc d)) idxs.

End retriever.

(** ** rag_agent/llm.py: the remote chat service is external *)
Module llm.
Import Py.

Class NvidiaChatClient : Type := {
  chat_text : list (string * string) -> Q -> Z -> M string
}.

Definition system_rules : string :=
  "You are a concise Indian constitutional law analyst. " +:+
  "Do not reveal chain-of-thought or internal reasoning. " +:+
  "Never output <think> blocks or similar. " +:+
  "Avoid boilerplate, disclaimers, and repetition. " +:+
  "Use only the requested section headings. " +:+
  "Prefer 1–3 tight bullets per list; keep each bullet under ~25 words. " +:+
  "Cite only the provided titles and years; no footnotes or URLs. " +:+
  "Output plain text only — no Markdown, no code fences, no formatting syntax.".

Definition generate_legal_brief `{NvidiaChatClient}
    (prompt : string) (temperature : Q) (max_tokens : Z) : M string :=
  chat_text [("system", system_rules); ("user", prompt)] temperature max_tokens.

End llm.

(** ** rag_agent/agent.py *)
Module agent.
Import Text Py Numpy retriever llm.

Record CaseFile : Type := mkCaseFile {
  case_title : string;
  facts : string;
  issues_hint : list string
}.

Definition style_prefix (fb : feedback.StyleFlags)
    (style_preference : option string) : string :=
  let parts : list string := [] in
  let parts :=
    match style_preference with
    | Some "bullets" =>
        parts ++ ["Use compact bullet points across sections where appropriate."]
    | Some "prose" =>
        parts ++ ["Write in tight prose paragraphs; use bullets sparingly."]
    | _ => parts
    end in
  let no_preference :=
    match style_preference with
    | None | Some "" => true
    | _ => false
    end in
  let parts :=
    if ((1 <=? feedback.flag_style_bullets fb) && no_preference)%bool
    then parts ++ ["Use compact bullet points where helpful."] else parts in
  let parts :=
    if 1 <=? feedback.flag_style_citations fb
    then parts ++ ["Cite sources by title and year."] else parts in
  let parts :=
    if 1 <=? feedback.flag_emphasis_proportionality fb
    then parts ++ ["Emphasize proportionality steps explicitly."] else parts in
  match parts with
  | [] => "Be concise."
  | _ => String.concat " " parts
  end.

Definition first_step : string :=
  "Confirm enabling law (legality) and legitimate aim.".
Definition suitability_step : string := "Assess suitability to the aim.".
Definition necessity_step : string :=
  "Assess necessity (less intrusive means).".
Definition balancing_step : string :=
  "Assess balancing and safeguards (purpose, storage, oversight).".
Definition religion_step : string :=
  "Consider Article 25 scope and any 25(2) justifications.".
Definition expression_step : string :=
  "If Article 19(1)(a) is implicated, analyze reasonableness and proportionality.".
Definition trade_step : string :=
  "If Article 19(1)(g) is implicated, test reasonableness of restrictions.".
Definition equality_step : string :=
  "Check Article 14 arbitrariness and equal protection concerns.".
Definition last_step : string := "Draft positions and propose outcome.".

(** The list [steps] of [plan_steps] before de-duplication. *)
Definition raw_steps (issues : list string) : list string :=
  let steps := [first_step] in
  let steps :=
    if (mem "proportionality" issues || mem "privacy" issues
        || mem "biometric" issues || mem "surveillance" issues)%bool
    then steps ++ [suitability_step; necessity_step; balancing_step]
    else steps in
  let steps := if mem "religion" issues then steps ++ [religion_step] else steps in
  let steps := if mem "expression" issues then steps ++ [expression_step] else steps in
  let steps := if mem "trade" issues then steps ++ [trade_step] else steps in
  let steps := if mem "equality" issues then steps ++ [equality_step] else steps in
  steps ++ [last_step].

(** The loop [for s in steps: if s not in seen: uniq.append(s); seen.add(s)],
    with the pair [(uniq, seen)] as its state. *)
Definition uniq_step (st : list string * gset string) (s : string)
  : list string * gset string :=
  let '(uniq, seen) := st in
  if decide (s ∈ seen) then st else (uniq ++ [s], {[s]} ∪ seen).

Definition plan_steps (issues : list string) : list string :=
  fst (fold_left uniq_step (raw_steps issues) ([], ∅)).

(** The term list that [evidence_check] and [run_agent] both spell out. *)
Definition key_terms : list string :=
  ["privacy"; "proportionality"; "necessity"; "safeguards"; "biometric"; "article 21"].

(** [f"{d['title']} ({d['year']})"]. *)
Definition cite (d : Scored) : string :=
  title (doc d) +:+ " (" +:+ str_of_Z (year (doc d)) +:+ ")".

Definition evidence_check (claims : list string) (top_docs : list Scored)
  : list (string * list string) :=
  map (fun c =>
         let c_l := lower c in
         let cites :=
           flat_map (fun d =>
                       let txt := lower (text (doc d)) in
                       if any_in key_terms c_l then
                         if any_in key_terms txt then [cite d] else []
                       else []) top_docs in
         (c, Text.sorted (fromkeys cites ∅)))
      claims.

Definition label_map : list (string * string) :=
  [ ("privacy", "Article 21 privacy");
    ("proportionality", "Proportionality test");
    ("biometric", "Biometric intrusion");
    ("safeguards", "Procedural safeguards");
    ("legality", "Legality / enabling law");
    ("religion", "Article 25 religion");
    ("expression", "Article 19(1)(a) expression");
    ("trade", "Article 19(1)(g) trade/business");
    ("equality", "Article 14 equality / arbitrariness");
    ("assembly", "Article 19(1)(b) assembly");
    ("internet", "Internet access / shutdowns");
    ("localization", "Data localization");
    ("surveillance", "State surveillance / public safety") ].

Definition priority : list string :=
  [ "legality"; "privacy"; "proportionality"; "religion"; "expression"; "trade";
    "equality"; "assembly"; "biometric"; "surveillance"; "internet";
    "localization"; "safeguards" ].

Definition label_of (k : string) : string :=
  match List.find (fun kv => String.eqb (fst kv) k) label_map with
  | Some kv => snd kv
  | None => k
  end.

Definition _pretty_issues (kws : list string) : list string :=
  let ordered := List.filter (fun k => mem k kws) priority in
  let labels := map label_of ordered in
  take_slice labels 5.

Definition risk_terms : list string :=
  ["blanket"; "mandatory"; "indefinite"; "mass"; "facial recognition";
   "biometric"; "shutdown"; "localization"].
Definition safe_terms : list string :=
  ["safeguard"; "oversight"; "exemption"; "opt-out"; "purpose limitation";
   "data minimization"; "sunset"].

(** [sum(xs)] on floats. *)
Definition sum (xs : list Q) : Q := fold_left Qplus xs 0%Q.

(** [sum(d["score"] for d in retrieved[:2]) / max(1, len(retrieved[:2]))]. *)
Definition top_score_mean (retrieved : list Scored) : Q :=
  let top := take_slice retrieved 2 in
  (sum (map score top) / inject_Z (Z.max 1 (Z.of_nat (length top))))%Q.

Definition _verdict_confidence (query : string) (retrieved : list Scored) : Q :=
  let s := top_score_mean retrieved in
  let conf := ((4 # 10) + (5 # 10) * (s - (5 # 10)))%Q in
  let q := lower query in
  let conf := if any_in risk_terms q then (conf + (5 # 100))%Q else conf in
  let conf := if any_in safe_terms q then (conf - (5 # 100))%Q else conf in
  Py.max (5 # 10) (Py.min (9 # 10) conf).

Definition nl : string := String (ascii_of_nat 10) EmptyString.

Definition draft_arguments `{NvidiaChatClient}
    (case_file : CaseFile) (top_docs : list Scored)
    (temperature : Q) (max_tokens : Z) (style_preference : option string)
  : M string :=
  fb ← feedback.get_style_flags;
  let prefix := style_prefix fb style_preference in
  let grounds :=
    String.concat nl
      (map (fun d => "- " +:+ cite d +:+ ": " +:+ text (doc d))
           (take_slice top_docs 4)) in
  let prompt :=
    prefix +:+ nl +:+
    "CASE" +:+ nl +:+
    "Title: " +:+ case_title case_file +:+ nl +:+
    "Facts: " +:+ facts case_file +:+ nl +:+
    nl +:+
    "PRECEDENTS (cite by title and year only)" +:+ nl +:+
    grounds +:+ nl +:+
    nl +:+
    "WRITE THE BRIEF WITH THESE EXACT SECTIONS:" +:+ nl +:+
    "1) Core Issues — tailored to these facts." +:+ nl +:+
    "2) Petitioner Arguments — with citations to titles/years above." +:+ nl +:+
    "3) State Arguments — with citations to titles/years above." +:+ nl +:+
    "4) Proportionality — bullets for Legality, Aim, Suitability, Necessity (alternatives), Safeguards/Balancing." +:+ nl +:+
    "5) Verdict — a single sentence and a numeric confidence in [0,1]." +:+ nl +:+
    "Be specific; avoid boilerplate and repetition. Do not include any hidden reasoning or meta commentary." +:+ nl in
  generate_legal_brief prompt temperature max_tokens.

Definition ellipsis : string := "…".

(** The loop [for k in key_terms] of [_extract_snippet], with [tl] the
    lower-cased text. *)
Fixpoint first_term_window (text tl : string) (key_terms : list string)
    (window : Z) : option string :=
  match key_terms with
  | [] => None
  | k :: rest =>
      let i := find tl k in
      if negb (i =? -1) then
        let start := Z.max 0 (i - window / 2) in
        let stop := Z.min (len text) (i + window / 2) in
        let snippet := strip (slice text start stop) in
        Some ((if 0 <? start then ellipsis else "") +:+ snippet
              +:+ (if stop <? len text then ellipsis else ""))
      else first_term_window text tl rest window
  end.

Definition _extract_snippet (text : string) (key_terms : list string) (window : Z)
  : option string :=
  let tl := lower text in
  first_term_window text tl key_terms window.

Record Evidence : Type := mkEvidence {
  source : string;
  snippet : string
}.

Record SnippetRecord : Type := mkSnippetRecord {
  claim : string;
  evidence : list Evidence
}.

Definition claims_probe : list string :=
  [ "Privacy is a fundamental right under Article 21.";
    "Any limitation must satisfy proportionality including necessity.";
    "Blanket biometric mandates are intrusive and require robust safeguards.";
    "Legality requires clear statutory backing and oversight." ].

(** The inner loop [for d in retrieved: snip = ...; if snip: ...]. *)
Definition evidences_of (retrieved : list Scored) : list Evidence :=
  flat_map (fun d =>
              match _extract_snippet (text (doc d)) key_terms 140 with
              | Some snip =>
                  if String.eqb snip "" then [] else [mkEvidence (cite d) snip]
              | None => []
              end) retrieved.

(** One round of the loop [for c in claims_probe] of [run_agent]; the
    state is the pair [(grounding, grounding_snippets)]. *)
Definition probe_step (retrieved : list Scored)
    (st : list (string * list string) * list SnippetRecord) (c : string)
  : list (string * list string) * list SnippetRecord :=
  let '(grounding, grounding_snippets) := st in
  let cites :=
    map cite (List.filter (fun d => any_in key_terms (lower (text (doc d))))
                          retrieved) in
  let grounding := grounding ++ [(c, Text.sorted (fromkeys cites ∅))] in
  let evidences := evidences_of retrieved in
  let grounding_snippets :=
    grounding_snippets ++ [mkSnippetRecord c (take_slice evidences 3)] in
  (grounding, grounding_snippets).

Record Result : Type := mkResult {
  issues : list string;
  plan : list string;
  retrieved : list Scored;
  grounding : list (string * list string);
  grounding_snippets : list SnippetRecord;
  draft : string;
  confidence : Q;
  used_doc_ids : list string
}.

Definition run_agent `{Sorting} `{NvidiaChatClient}
    (r : Retriever) (case_file : CaseFile)
    (temperature : option Q) (max_tokens : option Z)
    (style_preference : option string) : M Result :=
  let query := case_title case_file +:+ ". " +:+ facts case_file in
  let raw_issues := _issue_keywords query in
  let issues := _pretty_issues raw_issues in
  let steps := plan_steps raw_issues in
  retrieved ← retrieve r query 5;
  let '(grounding, grounding_snippets) :=
    fold_left (probe_step retrieved) claims_probe ([], []) in
  let t := default (35 # 100)%Q temperature in
  let mt := default 1700 max_tokens in
  draft ← draft_arguments case_file retrieved t mt style_preference;
  let conf := _verdict_confidence query retrieved in
  mret (mkResult issues steps retrieved grounding grounding_snippets draft
                 (Py.round conf 2)
                 (map (fun d => id (doc d)) (take_slice retrieved 4))).

Definition submit_feedback (thumbs_up : bool) (used_doc_ids : list string)
    (notes : string) : M feedback.Data :=
  feedback.record_feedback thumbs_up (Some used_doc_ids) notes.

End agent.

(** ** The vocabulary of the properties *)
Module Spec.
Import Text Py Numpy retriever agent.

(** *** Plans *)

(** The steps that depend on a single tag, in the order the rules add them. *)
Definition conditional_steps (issues : list string) : list string :=
  (if mem "religion" issues then [religion_step] else [])
  ++ (if mem "expression" issues then [expression_step] else [])
  ++ (if mem "trade" issues then [trade_step] else [])
  ++ (if mem "equality" issues then [equality_step] else []).

(** *** Feedback events *)

Record Event : Type := mkEvent {
  ev_thumbs_up : bool;
  ev_doc_ids : list string;
  ev_notes : string
}.

Definition submit (e : Event) : M feedback.Data :=
  submit_feedback (ev_thumbs_up e) (ev_doc_ids e) (ev_notes e).

Fixpoint submit_all (evs : list Event) : M unit :=
  match evs with
  | [] => mret tt
  | e :: evs' => _ ← submit e; submit_all evs'
  end.

(** The boosts the ranker reads after a series of feedback events. *)
Definition boosts_after (evs : list Event) : M (gmap string Q) :=
  _ ← submit_all evs; feedback.get_doc_boosts.

(** [boosts.get(did, 0.0)]. *)
Definition boost_of (boosts : gmap string Q) (did : string) : Q :=
  default 0%Q (boosts !! did).

(** The state [_load] hands out in a world, and its boosts. *)
Definition loaded_data (w : World) : feedback.Data :=
  match feedback_file w with
  | Stored (JObj o) => feedback.setdefaults o
  | _ => feedback.DEFAULT_FEEDBACK_copy
  end.

Definition loaded_boosts (w : World) : gmap string Q :=
  deref w (feedback.doc_boosts (loaded_data w)).


(** Number of times [did] occurs in a list of ids. *)
Definition occurrences (did : string) (ids : list string) : nat :=
  length (List.filter (String.eqb did) ids).

(** One update of a boost: add, clip, round. *)
Definition bump (delta c : Q) : Q :=
  Py.round (Py.max (- (2 # 10)) (Py.min (2 # 10) (c + delta)))%Q 4.

(** The boost dictionary after the loop of [record_feedback]. *)
Definition apply_deltas (delta : Q) (ids : list string) (m : gmap string Q)
  : gmap string Q :=
  fold_left (fun m did => <[did := bump delta (boost_of m did)]> m) ids m.

(** The dictionary reference and the world after that loop. *)
Definition looped_ref (delta : Q) (ids : list string) (r : BoostsRef) : BoostsRef :=
  match r with
  | DefaultDict => DefaultDict
  | OwnDict m => OwnDict (apply_deltas delta ids m)
  end.

Definition looped_world (delta : Q) (ids : list string) (r : BoostsRef)
    (w : World) : World :=
  match r with
  | DefaultDict =>
      mkWorld (feedback_file w) (writable w)
              (apply_deltas delta ids (default_doc_boosts w))
  | OwnDict _ => w
  end.

(** The world after [_save]: the file is replaced when the path can be
    written, and nothing changes otherwise. *)
Definition saved (d : feedback.Data) (w : World) : World :=
  if writable w
  then mkWorld (Stored (JObj (feedback.to_json d (deref w (feedback.doc_boosts d)))))
               (writable w) (default_doc_boosts w)
  else w.

(** The delta of one event: +0.02 for thumbs up, -0.02 for thumbs down. *)
Definition delta_for (thumbs_up : bool) : Q :=
  if thumbs_up then (2 # 100)%Q else (- (2 # 100))%Q.

Definition delta_of (e : Event) : Q := delta_for (ev_thumbs_up e).

(** The state [record_feedback] returns and the world it leaves. *)
Definition recorded_data (thumbs_up : bool) (ids : list string) (notes : string)
    (w : World) : feedback.Data :=
  let d := loaded_data w in
  feedback.mkData
    (if thumbs_up then feedback.style_bullets d
     else Z.min 2 (feedback.style_bullets d + 1))
    (if thumbs_up then Z.min 2 (feedback.style_citations d + 1)
     else feedback.style_citations d)
    (if thumbs_up then Z.min 2 (feedback.emphasis_proportionality d + 1)
     else feedback.emphasis_proportionality d)
    (looped_ref (delta_for thumbs_up) ids (feedback.doc_boosts d))
    (if String.eqb notes "" then feedback.last_notes d else Some notes).

Definition recorded_world (thumbs_up : bool) (ids : list string) (notes : string)
    (w : World) : World :=
  saved (recorded_data thumbs_up ids notes w)
        (looped_world (delta_for thumbs_up) ids
                      (feedback.doc_boosts (loaded_data w)) w).

(** The running sum of the specification: each delta is added, the sum is
    clipped to [-0.2, 0.2] and rounded to four decimals. *)
Definition clip (x : Q) : Q := Qmax (- (2 # 10)) (Qmin (2 # 10) x).

Definition clipped_running_sum (deltas : list Q) : Q :=
  fold_left (fun acc delta => Py.round (clip (acc + delta)%Q) 4) deltas 0%Q.

(** The world after a series of feedback events. *)
Definition world_after (evs : list Event) (w : World) : World :=
  fold_left (fun w e =>
               recorded_world (ev_thumbs_up e) (ev_doc_ids e) (ev_notes e) w)
            evs w.

Definition boost_in_range (q : Q) : Prop := (- (2 # 10) <= q <= 2 # 10)%Q.
Definition counter_in_range (z : Z) : Prop := 0 <= z <= 2.

Definition boosts_in_range (m : gmap string Q) : Prop :=
  forall did q, m !! did = Some q -> boost_in_range q.

Definition option_Forall {A} (P : A -> Prop) (o : option A) : Prop :=
  match o with
  | Some a => P a
  | None => True
  end.

(** Bounds on a feedback state as [record_feedback] returns it. *)
Definition data_in_range (w : World) (d : feedback.Data) : Prop :=
  counter_in_range (feedback.style_bullets d)
  /\ counter_in_range (feedback.style_citations d)
  /\ counter_in_range (feedback.emphasis_proportionality d)
  /\ boosts_in_range (deref w (feedback.doc_boosts d)).

(** The same bounds on what is stored: the file and the default dictionary. *)
Definition world_in_range (w : World) : Prop :=
  match feedback_file w with
  | Stored (JObj o) =>
      option_Forall counter_in_range (j_style_bullets o)
      /\ option_Forall counter_in_range (j_style_citations o)
      /\ option_Forall counter_in_range (j_emphasis_proportionality o)
      /\ option_Forall boosts_in_range (j_doc_boosts o)
  | _ => True
  end
  /\ boosts_in_range (default_doc_boosts w).

(** A file that [_load] cannot use. *)
Definition unusable (f : File) : Prop :=
  f = Absent \/ f = Unreadable \/ f = Malformed \/ f = Stored JOther.

(** Worlds a process can be in: it starts without a feedback file, takes
    feedback events, and meanwhile the file may be lost or damaged and the
    path may stop or start being writable. *)
Inductive reachable : World -> Prop :=
| reach_start (wr : bool) : reachable (mkWorld Absent wr ∅)
| reach_feedback (w : World) (t : bool) (ids : option (list string))
                 (notes : string) :
    reachable w -> reachable (snd (feedback.record_feedback t ids notes w))
| reach_writable (w : World) (wr : bool) :
    reachable w -> reachable (mkWorld (feedback_file w) wr (default_doc_boosts w))
| reach_fault (w : World) (f : File) :
    reachable w -> unusable f ->
    reachable (mkWorld f (writable w) (default_doc_boosts w)).

(** *** Ranking *)

(** What NumPy promises of the two routines. *)
Class SortingLaws (np : Sorting) : Prop := {
  argsort_perm : forall a, argsort a ≡ₚ seq 0 (length a);
  argsort_sorted : forall a,
    StronglySorted Qle (map (key a) (argsort a));
  argpartition_bounds : forall a kth,
    kth_in_bounds (Z.of_nat (length a)) kth = false ->
    argpartition a kth = inl ValueError;
  argpartition_perm : forall a kth,
    kth_in_bounds (Z.of_nat (length a)) kth = true ->
    exists p, argpartition a kth = inr p /\ p ≡ₚ seq 0 (length a);
  argpartition_pivot : forall a kth p i j x y,
    argpartition a kth = inr p ->
    let kth' := Z.to_nat (if kth <? 0 then kth + Z.of_nat (length a) else kth) in
    (i <= kth')%nat -> (kth' <= j)%nat ->
    p !! i = Some x -> p !! j = Some y ->
    (key a x <= key a y)%Q
}.

(** The score formula in the words of the specification. *)
Definition recency (current_year year : Z) : Q :=
  Qmax 0 (1 - Qmax 0 (inject_Z (current_year - year)) / 20)%Q.

Definition overlap (tags kws : gset string) : Q :=
  if decide (kws = ∅) then 0%Q
  else (inject_Z (Z.of_nat (size (tags ∩ kws)))
        / inject_Z (Z.of_nat (size kws)))%Q.

Definition combined_score (boosts : gmap string Q) (sim : Q) (d : Doc)
    (kws : gset string) : Q :=
  ((55 # 100) * sim + (15 # 100) * recency 2025 (year d)
   + (20 # 100) * level_weight d
   + (10 # 100) * overlap (list_to_set (tags d)) kws
   + boost_of boosts (id d))%Q.

(** The value [_precedent_score] returns in a world. *)
Definition score_in (w : World) (sim : Q) (d : Doc) (kws : list string) : Q :=
  ((55 # 100) * sim + (15 # 100) * _recency (year d) current_year_default
   + (2 # 10) * level_weight d + (1 # 10) * _issue_overlap (tags d) kws
   + boost_of (loaded_boosts w) (id d))%Q.

(** Element [res] of the result stands for the document at offset [idx]. *)
Definition result_at (self : Retriever) (query : string) (w : World)
    (idx : nat) (res : Scored) : Prop :=
  exists sim,
    docs self !! idx = Some (doc res)
    /\ similarities self query !! idx = Some sim
    /\ score res = score_in w sim (doc res) (_issue_keywords query).

(** The similarity of the document at offset [idx]. *)
Definition sim_at (self : Retriever) (query : string) (idx : nat) : Q :=
  nth idx (similarities self query) 0%Q.

Definition no_doc : Doc := mkDoc "" "" 0 "" 0%Q [] "".

(** The element [retrieve] builds for offset [idx]. *)
Definition scored_at (self : Retriever) (query : string) (w : World) (idx : nat)
  : Scored :=
  let d := nth idx (docs self) no_doc in
  mkScored (score_in w (sim_at self query idx) d (_issue_keywords query)) d.

(** Scores in non-increasing order. *)
Definition sorted_by_score (res : list Scored) : Prop :=
  StronglySorted (fun x y => (score y <= score x)%Q) res.

End Spec.

(** ** A small corpus and world to run the definitions on *)
Module Sample.
Import Py Numpy retriever agent.

Definition fresh : World := mkWorld Absent true ∅.

Definition d1 : Doc :=
  mkDoc "p1" "Puttaswamy" 2017 "SC" (0 # 1) ["privacy"]
        "Privacy is protected under Article 21.".
Definition d2 : Doc :=
  mkDoc "p2" "Tax ruling" 2023 "SC" (1 # 1) ["trade"]
        "A ruling on commerce and taxation.".

Definition two_docs : Retriever :=
  mkRetriever [d1; d2] (fun _ => [(9 # 10)%Q; (8 # 10)%Q]).

Definition one_doc : Retriever :=
  mkRetriever [d1] (fun _ => [(9 # 10)%Q]).

(** A chat service that answers every request with the same text. *)
Definition canned : llm.NvidiaChatClient :=
  {| llm.chat_text := fun _ _ _ => mret "Verdict: allowed." |}.

Definition case1 : CaseFile :=
  mkCaseFile "Biometric mandate"
             "State mandates fingerprints; petitioners invoke privacy." [].

End Sample.

(** ** Further vocabulary, for the properties beyond the claims *)
Module MoreSpec.
Import Text Py Numpy retriever agent Spec.

(** [a <= b] on strings, as [sorted] compares them. *)
Definition str_le (a b : string) : Prop := String.leb a b = true.

(** The score of [_precedent_score] before the boost is added. *)
Definition base_score (sim : Q) (d : Doc) (kws : list string) : Q :=
  ((55 # 100) * sim + (15 # 100) * _recency (year d) current_year_default
   + (2 # 10) * level_weight d + (1 # 10) * _issue_overlap (tags d) kws)%Q.

(** A number with at most four decimals. *)
Definition four_decimals (q : Q) : Prop := exists z : Z, (q == z # 10000)%Q.

(** A property of every boost a world holds, in the file and in the
    default dictionary. *)
Definition all_boosts (P : Q -> Prop) (w : World) : Prop :=
  match feedback_file w with
  | Stored (JObj o) =>
      option_Forall (fun m : gmap string Q => forall did q, m !! did = Some q -> P q)
                    (j_doc_boosts o)
  | _ => True
  end
  /\ (forall did q, default_doc_boosts w !! did = Some q -> P q).

(** The two style counters that start at 1 are at least 1 in the file. *)
Definition citations_kept (w : World) : Prop :=
  match feedback_file w with
  | Stored (JObj o) =>
      option_Forall (fun z => 1 <= z) (j_style_citations o)
      /\ option_Forall (fun z => 1 <= z) (j_emphasis_proportionality o)
  | _ => True
  end.

(** A string that [str.strip] empties: white space only. *)
Fixpoint blank (s : string) : bool :=
  match s with
  | EmptyString => true
  | String c s' => is_space c && blank s'
  end.

(** The test [any(w in d['text'].lower() for w in key_terms)] on a
    retrieved document. *)
Definition has_key_term (d : Scored) : bool :=
  any_in key_terms (lower (text (doc d))).

(** The citation list the grounding attaches to a claim. *)
Definition cites_of (top_docs : list Scored) : list string :=
  Text.sorted (fromkeys (map cite (List.filter has_key_term top_docs)) ∅).

(** A chat service that is out of order: every request raises. *)
Definition no_service : llm.NvidiaChatClient :=
  {| llm.chat_text := fun _ _ _ => raise RuntimeError |}.

(** A world whose file stores the boost 0.2 for document p1. *)
Definition boosted : World :=
  mkWorld (Stored (JObj (mkJsonObj (Some 2) (Some 1) (Some 1)
                                   (Some {["p1" := (2 # 10)%Q]}) None)))
          true ∅.

End MoreSpec.

(** ** rag_agent/llm.py: cleaning the answer of the chat service *)
Module llm_output.
Import Text.

(** [s[n:]]. *)
Fixpoint drop_chars (n : nat) (s : string) : string :=
  match n, s with
  | O, _ => s
  | S n', String _ s' => drop_chars n' s'
  | S _, EmptyString => EmptyString
  end.

(** [re.sub] with the pattern <think>[\s\S]*?</think>, the empty
    replacement and [flags=re.IGNORECASE], on ASCII text.  The text is scanned
    from the left: at a position where <think> starts, in any case, and
    </think> occurs somewhere after it, everything up to the end of the first
    such </think> is dropped and the scan goes on behind it; any other
    character is kept.  [skip] counts the characters of the current match
    that are still to be dropped. *)
Fixpoint sub_think (s : string) (skip : nat) : string :=
  match s with
  | EmptyString => EmptyString
  | String c s' =>
      match skip with
      | S n => sub_think s' n
      | O =>
          if String.prefix "<think>" (lower s) then
            match find_nat "</think>" (lower (drop_chars 7 s)) with
            | Some j => sub_think s' (6 + j + 8)
            | None => String c (sub_think s' 0)
            end
          else String c (sub_think s' 0)
      end
  end.

Definition sanitize_output (text : string) : string :=
  strip (sub_think text 0).

End llm_output.

(** ** rag_agent/feedback.py as the ranker reads it, on a file of any content

    The feedback file need not have been written by [_save]: it may hold
    any JSON value, the value under "doc_boosts" may be of any JSON type, and
    so may the values inside it.  This module embeds [_load] and
    [get_doc_boosts] on such files, and [_precedent_score] and [retrieve] on
    top of them.  Only what [get_doc_boosts] reads is kept of the file. *)
Module raw.
Import Text Py Numpy retriever.

(** The value under "doc_boosts" of a loaded object, kept by what
    [get_doc_boosts] does with it.  [NotADict] is null, a boolean, a number,
    a string or a list: [boosts.items()] raises [AttributeError] on each.
    [Dict items] is an object: the items of the dictionary that [json.load]
    built, in its order, where a key occurs once.  The value [v] of an item
    is kept by what [float(v)] makes of it: the number, which is taken to be
    finite, or the exception raised ([TypeError] on null, a list or an
    object; [ValueError] on a string that is no number; [OverflowError] on
    an integer that is too large). *)
Inductive Boosts : Type :=
| NotADict
| Dict (items : list (string * (Exn + Q))).

(** What [json.load] yields: an object, with its "doc_boosts" value if it
    has that key, or any other JSON value. *)
Inductive RJson : Type :=
| RObj (boosts : option Boosts)
| ROther.

Inductive RFile : Type :=
| RAbsent                      (* [os.path.exists] is false *)
| RUnreadable                  (* [open] or [read] raises [OSError] *)
| RMalformed                   (* the text is not JSON *)
| RStored (v : RJson).

(** The file at [FEEDBACK_PATH] and the dictionary held under
    ["doc_boosts"] in [DEFAULT_FEEDBACK]; the latter is changed by
    [record_feedback] only, which stores numbers. *)
Record RWorld : Type := mkRWorld {
  rfile : RFile;
  rdefault_doc_boosts : gmap string Q
}.

Definition RM (A : Type) : Type := RWorld -> (Exn + A) * RWorld.

#[local] Instance RM_ret : MRet RM := fun A a w => (inr a, w).
#[local] Instance RM_bind : MBind RM := fun A B f m w =>
  match m w with
  | (inl e, w') => (inl e, w')
  | (inr a, w') => f a w'
  end.

Definition raise {A} (e : Exn) : RM A := fun w => (inl e, w).

Definition try_except {A} (body handler : RM A) : RM A := fun w =>
  match body w with
  | (inl _, w') => handler w'
  | r => r
  end.

Definition lift_exn {A} (r : Exn + A) : RM A :=
  match r with
  | inl e => raise e
  | inr a => mret a
  end.

Definition index {A} (l : list A) (i : nat) : RM A :=
  match l !! i with
  | Some x => mret x
  | None => raise IndexError
  end.

Fixpoint for_each {A B} (f : A -> RM B) (l : list A) : RM (list B) :=
  match l with
  | [] => mret []
  | x :: l' => y ← f x; ys ← for_each f l'; mret (y :: ys)
  end.

Definition path_exists : RM bool := fun w =>
  (inr match rfile w with RAbsent => false | _ => true end, w).

Definition open_json_load : RM RJson := fun w =>
  match rfile w with
  | RAbsent => (inl FileNotFoundError, w)
  | RUnreadable => (inl OSError, w)
  | RMalformed => (inl JSONDecodeError, w)
  | RStored v => (inr v, w)
  end.

(** The dictionary [data] that [_load] returns, kept by its "doc_boosts"
    entry: the dictionary of [DEFAULT_FEEDBACK] itself, or the value that
    was loaded. *)
Inductive Data : Type :=
| FromDefault
| Loaded (b : Boosts).

(** [data.setdefault(k, v)] leaves a key that is present alone, whatever
    its value, and raises [AttributeError] when [data] is no object. *)
Definition _load : RM Data :=
  ex ← path_exists;
  if (ex : bool) then
    try_except
      (v ← open_json_load;
       match v with
       | RObj (Some b) => mret (Loaded b)
       | RObj None => mret FromDefault
       | ROther => raise AttributeError
       end)
      (mret FromDefault)
  else mret FromDefault.

(** The items of the dictionary of [DEFAULT_FEEDBACK]. *)
Definition default_items : RM (gmap string Q) := fun w =>
  (inr (rdefault_doc_boosts w), w).

(** [{str(k): float(v) for k, v in boosts.items()}]: the items are
    converted in order and the first conversion that fails raises. *)
Definition get_doc_boosts : RM (gmap string Q) :=
  d ← _load;
  match d return RM (gmap string Q) with
  | FromDefault => default_items
  | Loaded NotADict => raise AttributeError
  | Loaded (Dict items) =>
      kvs ← for_each (fun kv => x ← lift_exn (snd kv); mret (fst kv, x)) items;
      mret (fold_left (fun acc kv => <[fst kv := snd kv]> acc) kvs ∅)
  end.

Definition _precedent_score (sim : Q) (d : Doc) (kws : list string) : RM Q :=
  let '(a, b, c, e) := ((55 # 100)%Q, (15 # 100)%Q, (2 # 10)%Q, (1 # 10)%Q) in
  let base := (a * sim + b * _recency (year d) current_year_default
               + c * level_weight d + e * _issue_overlap (tags d) kws)%Q in
  boosts ← get_doc_boosts;
  let boost := default 0%Q (boosts !! id d) in
  mret (base + boost)%Q.

Definition retrieve `{Sorting} (self : Retriever) (query : string) (k : Z)
  : RM (list Scored) :=
  let kws := _issue_keywords query in
  let sims := similarities self query in
  let neg_sims := map Qopp sims in
  let k := Z.min k (Z.of_nat (length (docs self))) in
  part ← lift_exn (argpartition neg_sims (k - 1));
  let idxs := take_slice part k in
  keys ← for_each (index neg_sims) idxs;
  idxs ← for_each (index idxs) (argsort keys);
  for_each (fun idx =>
              d ← index (docs self) idx;
              sim ← index sims idx;
              sc ← _precedent_score sim d kws;
              mret (mkScored sc d)) idxs.

End raw.

(** ** Vocabulary for the ranker over files of any content *)
Module RawSpec.
Import Text Py Numpy retriever Spec MoreSpec.

(** A world of the typed model whose stored boosts are [m]. *)
Definition typed_world (m : gmap string Q) : World :=
  mkWorld (Stored (JObj (mkJsonObj None None None (Some m) None))) true ∅.

(** A computation on raw files and one of the typed model have the same
    outcome, and neither changes its world. *)
Definition same_outcome {A} (rw : raw.RWorld) (w : World)
    (rm : raw.RM A) (nm : M A) : Prop :=
  rm rw = (fst (nm w), rw) /\ snd (nm w) = w.

(** A computation that leaves the world as it was, whatever its outcome. *)
Definition reads_only {A} (rm : raw.RM A) : Prop :=
  forall rw, snd (rm rw) = rw.

(** The element [retrieve] builds for offset [idx] when the boosts that
    [get_doc_boosts] returns are [m]. *)
Definition scored_with (m : gmap string Q) (self : Retriever) (query : string)
    (idx : nat) : Scored :=
  let d := nth idx (docs self) no_doc in
  mkScored (base_score (sim_at self query idx) d (_issue_keywords query)
            + boost_of m (id d))%Q d.

(** A file of the typed model as a file of any content: the dictionary of
    boosts with its entries in some order, each a number. *)
Definition raw_of (w : World) : raw.RWorld :=
  raw.mkRWorld
    match feedback_file w with
    | Absent => raw.RAbsent
    | Unreadable => raw.RUnreadable
    | Malformed => raw.RMalformed
    | Stored JOther => raw.RStored raw.ROther
    | Stored (JObj o) =>
        raw.RStored
          (raw.RObj
             (option_map (fun m : gmap string Q =>
                            raw.Dict (map (fun kq => (fst kq, inr (snd kq)))
                                          (map_to_list m)))
                         (j_doc_boosts o)))
    end
    (default_doc_boosts w).



(** The feedback file {"doc_boosts": {"p1": 0.1}, "style_bullets": "many"}:
    the ranker does not read the counters. *)
Definition good_boosts : raw.RWorld :=
  raw.mkRWorld (raw.RStored (raw.RObj (Some (raw.Dict [("p1", inr (1 # 10)%Q)])))) ∅.

End RawSpec.

(* ===================================================================== *)
(** * Part II: properties *)
(* ===================================================================== *)

(** ** Strings *)
Module TextFacts.
Import Text.

Lemma mem_spec (x : string) (xs : list string) : mem x xs = true <-> x ∈ xs.
Proof.
  unfold mem. rewrite existsb_exists. split.
  - intros (y & Hy & He). apply String.eqb_eq in He. subst y.
    by apply list_elem_of_In.
  - intros Hx. exists x. split; [by apply list_elem_of_In | apply String.eqb_refl].
Qed.

End TextFacts.

(** ** The plan builder *)
Module PlanFacts.
Import Text agent Spec TextFacts.

Example plan_privacy_biometric :
  plan_steps ["privacy"; "biometric"] =
  [first_step; suitability_step; necessity_step; balancing_step; last_step].
Proof. vm_compute. reflexivity. Qed.

(** The rule list never produces the same step twice, so the
    de-duplication loop returns it unchanged. *)
Lemma plan_steps_raw (issues : list string) :
  plan_steps issues = raw_steps issues.
Proof.
  unfold plan_steps, raw_steps.
  destruct (mem "proportionality" issues || mem "privacy" issues
            || mem "biometric" issues || mem "surveillance" issues)%bool;
    destruct (mem "religion" issues), (mem "expression" issues),
      (mem "trade" issues), (mem "equality" issues);
    vm_compute; reflexivity.
Qed.

Lemma raw_steps_NoDup (issues : list string) : NoDup (raw_steps issues).
Proof.
  unfold raw_steps.
  destruct (mem "proportionality" issues || mem "privacy" issues
            || mem "biometric" issues || mem "surveillance" issues)%bool;
    destruct (mem "religion" issues), (mem "expression" issues),
      (mem "trade" issues), (mem "equality" issues);
    apply (bool_decide_unpack _); vm_compute; reflexivity.
Qed.

Lemma raw_steps_shape (issues : list string) :
  (mem "proportionality" issues || mem "privacy" issues
   || mem "biometric" issues || mem "surveillance" issues)%bool = true ->
  raw_steps issues =
  [first_step; suitability_step; necessity_step; balancing_step]
  ++ conditional_steps issues ++ [last_step].
Proof.
  intros Hp. unfold raw_steps, conditional_steps. rewrite Hp.
  destruct (mem "religion" issues), (mem "expression" issues),
    (mem "trade" issues), (mem "equality" issues); reflexivity.
Qed.

(** C6, as the code has it: with both "privacy" and "biometric" among the
    issue tags, the plan starts with the legality and aim step, goes on with
    the three proportionality steps (suitability, necessity, balancing and
    safeguards), then the steps for religion, expression, trade and equality
    that apply, and ends with the draft step; no step occurs twice and the
    order is the one in which the rules added the steps. *)
Theorem plan_steps_privacy_biometric (issues : list string) :
  "privacy" ∈ issues -> "biometric" ∈ issues ->
  plan_steps issues =
    [first_step; suitability_step; necessity_step; balancing_step]
    ++ conditional_steps issues ++ [last_step]
  /\ head (plan_steps issues) = Some first_step
  /\ last (plan_steps issues) = Some last_step
  /\ suitability_step ∈ plan_steps issues
  /\ necessity_step ∈ plan_steps issues
  /\ balancing_step ∈ plan_steps issues
  /\ NoDup (plan_steps issues)
  /\ plan_steps issues = raw_steps issues.
Proof.
  intros Hp Hb. apply mem_spec in Hp. apply mem_spec in Hb.
  assert (Hshape : plan_steps issues =
                   [first_step; suitability_step; necessity_step; balancing_step]
                   ++ conditional_steps issues ++ [last_step]).
  { rewrite plan_steps_raw. apply raw_steps_shape.
    rewrite Hp. by rewrite orb_true_r. }
  split; [exact Hshape |].
  split; [by rewrite Hshape |].
  split; [rewrite Hshape; rewrite app_assoc; apply last_snoc |].
  split; [rewrite Hshape; set_solver |].
  split; [rewrite Hshape; set_solver |].
  split; [rewrite Hshape; set_solver |].
  split; [rewrite plan_steps_raw; apply raw_steps_NoDup | apply plan_steps_raw].
Qed.

Lemma plan_steps_privacy_biometric_witness :
  plan_steps ["privacy"; "biometric"] =
    [first_step; suitability_step; necessity_step; balancing_step]
    ++ conditional_steps ["privacy"; "biometric"] ++ [last_step]
  /\ head (plan_steps ["privacy"; "biometric"]) = Some first_step
  /\ last (plan_steps ["privacy"; "biometric"]) = Some last_step
  /\ suitability_step ∈ plan_steps ["privacy"; "biometric"]
  /\ necessity_step ∈ plan_steps ["privacy"; "biometric"]
  /\ balancing_step ∈ plan_steps ["privacy"; "biometric"]
  /\ NoDup (plan_steps ["privacy"; "biometric"])
  /\ plan_steps ["privacy"; "biometric"] = raw_steps ["privacy"; "biometric"].
Proof.
  apply (plan_steps_privacy_biometric ["privacy"; "biometric"]).
  - apply list_elem_of_In. simpl. left. reflexivity.
  - apply list_elem_of_In. simpl. right. left. reflexivity.
Defined.

(** C6 as stated asks for four proportionality steps next to the fixed
    first and last step.  For the tags "privacy" and "biometric" the plan
    has five steps in all, so no four distinct steps other than the first
    and the last one are in it. *)
Lemma no_four_substeps :
  ~ (exists subs : list string,
        length subs = 4%nat /\ NoDup subs /\
        forall s, s ∈ subs ->
                  s ∈ plan_steps ["privacy"; "biometric"]
                  /\ s <> first_step /\ s <> last_step).
Proof.
  intros (subs & Hlen & Hnd & Hin).
  assert (Hsub : subs ⊆ [suitability_step; necessity_step; balancing_step]).
  { intros s Hs. destruct (Hin s Hs) as (Hp & Hf & Hl).
    rewrite plan_privacy_biometric in Hp.
    rewrite !elem_of_cons in Hp. rewrite !elem_of_cons.
    destruct Hp as [Hp | [Hp | [Hp | [Hp | [Hp | Hp]]]]]; auto;
      try contradiction. }
  apply (NoDup_submseteq _ _ Hnd), submseteq_length in Hsub.
  simpl in Hsub. lia.
Qed.

End PlanFacts.

(** ** The monad of effects *)
Module PyFacts.
Import Py.

Lemma bind_inr {A B} (m : M A) (f : A -> M B) (w w' : World) (b : B) :
  (m ≫= f) w = (inr b, w') ->
  exists a w1, m w = (inr a, w1) /\ f a w1 = (inr b, w').
Proof.
  unfold mbind, M_bind. destruct (m w) as [[e | a] w1]; intros Heq.
  - discriminate.
  - by exists a, w1.
Qed.

Lemma bind_pure {A B} (m : M A) (f : A -> M B) (w w1 : World) (a : A) :
  m w = (inr a, w1) -> (m ≫= f) w = f a w1.
Proof. intros Hm. unfold mbind, M_bind. by rewrite Hm. Qed.

Lemma index_lookup {A} (l : list A) (i : nat) (x : A) (w : World) :
  l !! i = Some x -> index l i w = (inr x, w).
Proof. intros Hl. unfold index. by rewrite Hl. Qed.

(** A loop whose body only reads the world is a [map]. *)
Lemma for_each_pure {A B} (f : A -> M B) (g : A -> B) (l : list A) (w : World) :
  (forall x, x ∈ l -> f x w = (inr (g x), w)) ->
  for_each f l w = (inr (map g l), w).
Proof.
  induction l as [| x l IH]; intros Hf; [reflexivity |].
  simpl. rewrite (bind_pure _ _ w w (g x)).
  - rewrite (bind_pure _ _ w w (map g l)); [reflexivity |].
    apply IH. intros y Hy. apply Hf. by right.
  - apply Hf. by left.
Qed.

Lemma max_lb_l (a b : Q) : (a <= Py.max a b)%Q.
Proof. unfold Py.max. destruct (Qlt_le_dec a b); lra. Qed.

Lemma max_lb_r (a b : Q) : (b <= Py.max a b)%Q.
Proof. unfold Py.max. destruct (Qlt_le_dec a b); lra. Qed.

Lemma max_lub (a b c : Q) : (a <= c -> b <= c -> Py.max a b <= c)%Q.
Proof. unfold Py.max. destruct (Qlt_le_dec a b); lra. Qed.

Lemma min_ub_l (a b : Q) : (Py.min a b <= a)%Q.
Proof. unfold Py.min. destruct (Qlt_le_dec b a); lra. Qed.

Lemma min_ub_r (a b : Q) : (Py.min a b <= b)%Q.
Proof. unfold Py.min. destruct (Qlt_le_dec b a); lra. Qed.

Lemma min_glb (a b c : Q) : (c <= a -> c <= b -> c <= Py.min a b)%Q.
Proof. unfold Py.min. destruct (Qlt_le_dec b a); lra. Qed.

(** Clipping to an interval lands in the interval. *)
Lemma clip_bounds (lo hi x : Q) :
  (lo <= hi -> lo <= Py.max lo (Py.min hi x) <= hi)%Q.
Proof.
  intros Hle. split; [apply max_lb_l |].
  apply max_lub; [exact Hle | apply min_ub_l].
Qed.

(** *** Rounding *)

Lemma round_half_even_proper (x y : Q) :
  (x == y)%Q -> round_half_even x = round_half_even y.
Proof.
  intros Hxy. unfold round_half_even.
  rewrite (Qfloor_comp x y Hxy).
  assert (Hd : (x - inject_Z (Qfloor y) == y - inject_Z (Qfloor y))%Q)
    by (rewrite Hxy; reflexivity).
  rewrite (Qcompare_comp _ _ Hd (1 # 2) (1 # 2) (Qeq_refl _)).
  reflexivity.
Qed.

Lemma round_proper (x y : Q) (n : nat) :
  (x == y)%Q -> Py.round x n = Py.round y n.
Proof.
  intros Hxy. unfold Py.round. apply Qred_complete.
  rewrite (round_half_even_proper (x * inject_Z (10 ^ Z.of_nat n))
                                  (y * inject_Z (10 ^ Z.of_nat n))).
  - reflexivity.
  - rewrite Hxy. reflexivity.
Qed.

Lemma round_half_even_Z (z : Z) : round_half_even (inject_Z z) = z.
Proof.
  unfold round_half_even. rewrite Qfloor_Z.
  destruct (Qcompare (inject_Z z - inject_Z z) (1 # 2)) eqn:Hc.
  - apply Qeq_alt in Hc. lra.
  - reflexivity.
  - apply Qgt_alt in Hc. lra.
Qed.

(** Rounding keeps a value between two integers between them. *)
Lemma round_half_even_bounds (a b : Z) (x : Q) :
  (inject_Z a <= x <= inject_Z b)%Q -> a <= round_half_even x <= b.
Proof.
  intros [Ha Hb]. unfold round_half_even.
  pose proof (Qfloor_le x) as Hfl.
  assert (Haf : a <= Qfloor x).
  { rewrite <- (Qfloor_Z a). by apply Qfloor_resp_le. }
  assert (Hfb : Qfloor x <= b).
  { rewrite Zle_Qle. lra. }
  destruct (Qcompare (x - inject_Z (Qfloor x)) (1 # 2)) eqn:Hc.
  - apply Qeq_alt in Hc.
    assert (Hlt : Qfloor x < b).
    { rewrite Zlt_Qlt. lra. }
    destruct (Z.even (Qfloor x)); lia.
  - lia.
  - apply Qgt_alt in Hc.
    assert (Hlt : Qfloor x < b).
    { rewrite Zlt_Qlt. lra. }
    lia.
Qed.

(** A value with at most four decimals is its own rounding. *)
Lemma round4_exact (z : Z) : (Py.round (z # 10000) 4 == z # 10000)%Q.
Proof.
  unfold Py.round. rewrite Qred_correct.
  rewrite (round_half_even_proper _ (inject_Z z)).
  - rewrite round_half_even_Z. unfold Qeq, Qdiv, Qmult, Qinv, inject_Z.
    simpl. lia.
  - unfold Qeq, Qmult, inject_Z. simpl. lia.
Qed.

Lemma round4_bounds (a b : Z) (x : Q) :
  (a # 10000 <= x <= b # 10000)%Q ->
  (a # 10000 <= Py.round x 4 <= b # 10000)%Q.
Proof.
  intros [Ha Hb]. unfold Py.round. rewrite Qred_correct.
  destruct (round_half_even_bounds a b (x * inject_Z (10 ^ Z.of_nat 4)))
    as [Hl Hu].
  { change (inject_Z (10 ^ Z.of_nat 4)) with (10000 # 1)%Q.
    unfold Qle, Qmult, inject_Z in *. simpl in *. lia. }
  change (inject_Z (10 ^ Z.of_nat 4)) with (10000 # 1)%Q in *.
  set (r := round_half_even (x * (10000 # 1))) in *.
  unfold Qle, Qdiv, Qmult, Qinv, inject_Z. simpl. lia.
Qed.

End PyFacts.

(** ** The confidence estimator *)
Module ConfidenceFacts.
Import Text Py Numpy retriever agent PyFacts.

(** C7: the confidence lies in [0.5, 0.9] for every query and every list
    of retrieved results; for the empty list the mean of the top scores
    is 0 and the confidence is 0.5. *)
Theorem verdict_confidence_range (query : string) (retrieved : list Scored) :
  ((5 # 10) <= _verdict_confidence query retrieved <= (9 # 10))%Q
  /\ (top_score_mean [] == 0)%Q
  /\ _verdict_confidence query [] = (5 # 10)%Q.
Proof.
  split; [| split].
  - unfold _verdict_confidence. apply clip_bounds. lra.
  - reflexivity.
  - unfold _verdict_confidence.
    destruct (any_in risk_terms (lower query)),
      (any_in safe_terms (lower query)); reflexivity.
Qed.

(** The value [run_agent] reports, rounded to two decimals, stays in range. *)
Example confidence_no_documents :
  _verdict_confidence "blanket biometric mandate" [] = (5 # 10)%Q.
Proof. reflexivity. Qed.

End ConfidenceFacts.

(** ** The grounding checker *)
Module GroundingFacts.
Import Text Py Numpy retriever llm agent PyFacts.

(** What [evidence_check] does get right: a claim without a key term is
    returned with an empty citation list, whatever the documents say. *)
Lemma evidence_check_no_key_term (claims : list string) (top_docs : list Scored)
    (c : string) (cites : list string) :
  (c, cites) ∈ evidence_check claims top_docs ->
  any_in key_terms (lower c) = false ->
  cites = [].
Proof.
  unfold evidence_check. intros Hin Hno.
  apply list_elem_of_fmap in Hin as (c' & Heq & _).
  injection Heq as -> ->.
  rewrite Hno.
  induction top_docs as [| d ds IH]; [reflexivity | exact IH].
Qed.

Example legality_probe_has_no_key_term :
  any_in key_terms
    (lower "Legality requires clear statutory backing and oversight.") = false.
Proof. vm_compute. reflexivity. Qed.

(** The loop of [run_agent] over the probe claims, unrolled. *)
Lemma probe_loop (retrieved : list Scored) (cs : list string)
    (g : list (string * list string)) (gs : list SnippetRecord) :
  fold_left (probe_step retrieved) cs (g, gs) =
  (g ++ map (fun c =>
               (c, Text.sorted
                     (fromkeys
                        (map cite
                           (List.filter
                              (fun d => any_in key_terms (lower (text (doc d))))
                              retrieved)) ∅))) cs,
   gs ++ map (fun c => mkSnippetRecord c (take_slice (evidences_of retrieved) 3)) cs).
Proof.
  revert g gs. induction cs as [| c cs IH]; intros g gs; simpl.
  - by rewrite !app_nil_r.
  - rewrite IH. by rewrite <- !app_assoc.
Qed.

(** What [run_agent] puts into its result, in terms of the list that
    [retrieve] returned. *)
Lemma run_agent_inv `{Sorting} `{NvidiaChatClient}
    (r : Retriever) (cf : CaseFile) (t : option Q) (mt : option Z)
    (sp : option string) (w w' : World) (res : Result) :
  run_agent r cf t mt sp w = (inr res, w') ->
  exists w1,
    retrieve r (case_title cf +:+ ". " +:+ facts cf) 5 w = (inr (retrieved res), w1)
    /\ (grounding res, grounding_snippets res) =
       fold_left (probe_step (retrieved res)) claims_probe ([], []).
Proof.
  unfold run_agent. intros Hrun.
  apply bind_inr in Hrun as (rs & w1 & Hret & Hrun).
  destruct (fold_left (probe_step rs) claims_probe ([], [])) as [g gs] eqn:Hfold.
  apply bind_inr in Hrun as (dr & w2 & Hdraft & Hrun).
  injection Hrun as <- <-. exists w1.
  split; [exact Hret | symmetry; exact Hfold].
Qed.

Lemma take_slice_prefix {A} (l : list A) (k : Z) : take_slice l k `prefix_of` l.
Proof. unfold take_slice. apply prefix_take. Qed.

Lemma take_slice_length {A} (l : list A) (k : Z) :
  0 <= k -> length (take_slice l k) = Nat.min (Z.to_nat k) (length l).
Proof.
  intros Hk. unfold take_slice, clamp_index.
  rewrite length_take.
  destruct (k <? 0) eqn:Hneg; [apply Z.ltb_lt in Hneg; lia |].
  lia.
Qed.

Lemma evidences_sources (rs : list Scored) :
  map source (evidences_of rs) `sublist_of` map cite rs.
Proof.
  unfold evidences_of. induction rs as [| d rs IH]; [constructor |].
  cbn [flat_map map]. rewrite map_app.
  destruct (_extract_snippet (text (doc d)) key_terms 140) as [snip |].
  - destruct (String.eqb snip ""); cbn [map app source].
    + by apply sublist_cons.
    + by apply sublist_skip.
  - cbn [map app]. by apply sublist_cons.
Qed.

(** C10: in the result of one [run_agent] request there is one snippet
    record per probe claim, and the evidence of each is the first three
    entries of one list computed from the retrieved documents and the key
    terms alone.  Hence any two records carry the same evidence, each has at
    most three snippets, and their sources follow the order of the retrieved
    documents. *)
Theorem run_agent_evidence_same_for_all_claims `{Sorting} `{NvidiaChatClient}
    (r : Retriever) (cf : CaseFile) (t : option Q) (mt : option Z)
    (sp : option string) (w w' : World) (res : Result) :
  run_agent r cf t mt sp w = (inr res, w') ->
  map claim (grounding_snippets res) = claims_probe
  /\ (forall r1 r2, r1 ∈ grounding_snippets res -> r2 ∈ grounding_snippets res ->
                    evidence r1 = evidence r2)
  /\ Forall (fun rec =>
               evidence rec = take_slice (evidences_of (retrieved res)) 3
               /\ (length (evidence rec) <= 3)%nat
               /\ map source (evidence rec) `sublist_of` map cite (retrieved res))
            (grounding_snippets res).
Proof.
  intros Hrun. apply run_agent_inv in Hrun as (w1 & _ & Hfold).
  rewrite probe_loop in Hfold. injection Hfold as _ Hgs. simpl in Hgs.
  assert (Hall : Forall (fun rec => evidence rec =
                           take_slice (evidences_of (retrieved res)) 3)
                        (grounding_snippets res)).
  { rewrite Hgs. repeat constructor. }
  split; [| split].
  - rewrite Hgs. reflexivity.
  - intros r1 r2 H1 H2. rewrite Forall_forall in Hall.
    rewrite (Hall r1 H1), (Hall r2 H2). reflexivity.
  - eapply Forall_impl; [exact Hall |]. intros rec Hev. simpl in Hev.
    split; [exact Hev |]. rewrite Hev. split.
    + rewrite take_slice_length by lia. lia.
    + etrans; [| apply evidences_sources].
      destruct (take_slice_prefix (evidences_of (retrieved res)) 3) as [tl Htl].
      rewrite Htl at 2. rewrite map_app. by apply sublist_inserts_r.
Qed.

(** Snippets on small texts: a term at the very start gives no leading
    ellipsis, a window cut on both sides gives both, and a text without any
    key term gives no snippet. *)
Example snippet_at_start :
  _extract_snippet "Privacy is protected under Article 21." key_terms 140
  = Some "Privacy is protected under Article 21.".
Proof. vm_compute. reflexivity. Qed.

Example snippet_cut_on_both_sides :
  _extract_snippet "   xx  Privacy is protected under Article 21." key_terms 10
  = Some (ellipsis +:+ "xx  Priva" +:+ ellipsis).
Proof. vm_compute. reflexivity. Qed.

Example snippet_absent :
  _extract_snippet "A ruling on commerce and taxation." key_terms 140 = None.
Proof. vm_compute. reflexivity. Qed.

Lemma run_agent_evidence_same_for_all_claims_witness :
  exists res w',
    run_agent (H := stable) (H0 := Sample.canned) Sample.one_doc Sample.case1
              None None None Sample.fresh = (inr res, w')
    /\ map claim (grounding_snippets res) = claims_probe
    /\ (forall r1 r2, r1 ∈ grounding_snippets res -> r2 ∈ grounding_snippets res ->
                      evidence r1 = evidence r2)
    /\ Forall (fun rec =>
                 evidence rec = take_slice (evidences_of (retrieved res)) 3
                 /\ (length (evidence rec) <= 3)%nat
                 /\ map source (evidence rec) `sublist_of` map cite (retrieved res))
              (grounding_snippets res).
Proof.
  destruct (run_agent (H := stable) (H0 := Sample.canned) Sample.one_doc
                      Sample.case1 None None None Sample.fresh)
    as [[e | res] w'] eqn:Hrun.
  - vm_compute in Hrun. discriminate Hrun.
  - exists res, w'. split; [reflexivity |].
    exact (run_agent_evidence_same_for_all_claims (H := stable) (H0 := Sample.canned)
             Sample.one_doc Sample.case1 None None None Sample.fresh w' res Hrun).
Defined.

(** C5 at its failing input.  The corpus has one document, whose text
    contains the key terms "privacy" and "article 21".  The fourth probe claim
    of [run_agent], "Legality requires clear statutory backing and
    oversight.", contains no key term; [evidence_check] gives it no citation,
    but the grounding list that [run_agent] returns cites the document
    for it. *)
Theorem run_agent_cites_claim_without_key_term :
  let c := "Legality requires clear statutory backing and oversight." in
  c ∈ claims_probe
  /\ any_in key_terms (lower c) = false
  /\ (forall top_docs, (c, []) ∈ evidence_check claims_probe top_docs)
  /\ exists res w',
       run_agent (H := stable) (H0 := Sample.canned) Sample.one_doc Sample.case1
                 None None None Sample.fresh = (inr res, w')
       /\ (c, ["Puttaswamy (2017)"]) ∈ grounding res.
Proof.
  cbv zeta. split; [| split; [| split]].
  - apply list_elem_of_In. simpl. auto.
  - vm_compute. reflexivity.
  - intros top_docs.
    assert (Hin : exists cites,
               ("Legality requires clear statutory backing and oversight.", cites)
               ∈ evidence_check claims_probe top_docs).
    { eexists. unfold evidence_check. apply list_elem_of_fmap. eexists. split.
      - reflexivity.
      - apply list_elem_of_In. simpl. auto. }
    destruct Hin as [cites Hin].
    rewrite <- (evidence_check_no_key_term _ _ _ _ Hin); [exact Hin |].
    vm_compute. reflexivity.
  - destruct (run_agent (H := stable) (H0 := Sample.canned) Sample.one_doc
                        Sample.case1 None None None Sample.fresh)
      as [[e | res] w'] eqn:Hrun.
    + vm_compute in Hrun. discriminate Hrun.
    + exists res, w'. split; [reflexivity |].
      vm_compute in Hrun. injection Hrun as <- _.
      apply list_elem_of_In. cbn [grounding]. simpl. auto 6.
Qed.

End GroundingFacts.

(** ** The feedback store *)
Module FeedbackFacts.
Import Text Py Numpy retriever agent Spec PyFacts feedback.

Local Open Scope Q_scope.

(** *** Loading and saving never raise *)

Lemma load_total (w : World) : _load w = (inr (loaded_data w), w).
Proof.
  destruct w as [f wr dd]. destruct f as [| | | [o |]]; reflexivity.
Qed.

(** The part of C8 that holds: on a missing, unreadable or malformed file
    [_load] raises nothing and returns the copy of [DEFAULT_FEEDBACK]. *)
Lemma load_unusable_file (w : World) :
  unusable (feedback_file w) -> _load w = (inr DEFAULT_FEEDBACK_copy, w).
Proof.
  intros Hbad. rewrite load_total. unfold loaded_data.
  destruct Hbad as [-> | [-> | [-> | ->]]]; reflexivity.
Qed.

Lemma get_doc_boosts_total (w : World) :
  get_doc_boosts w = (inr (loaded_boosts w), w).
Proof.
  unfold get_doc_boosts. rewrite (bind_pure _ _ _ _ _ (load_total w)).
  reflexivity.
Qed.

Lemma get_style_flags_total (w : World) :
  get_style_flags w =
  (inr (mkStyleFlags (style_bullets (loaded_data w))
                     (style_citations (loaded_data w))
                     (emphasis_proportionality (loaded_data w))), w).
Proof.
  unfold get_style_flags. rewrite (bind_pure _ _ _ _ _ (load_total w)).
  reflexivity.
Qed.

Lemma save_total (d : Data) (w : World) : _save d w = (inr tt, saved d w).
Proof.
  destruct w as [f wr dd]. destruct wr; reflexivity.
Qed.

Lemma boost_loop_cons (delta : Q) (did : string) (ids : list string)
    (r : BoostsRef) (w : World) :
  boost_loop r delta (did :: ids) w =
  boost_loop (looped_ref delta [did] r) delta ids (looped_world delta [did] r w).
Proof.
  unfold looped_ref, looped_world, apply_deltas, bump, boost_of.
  cbn [fold_left boost_loop].
  unfold mbind, M_bind, dict_get, dict_set.
  destruct r as [| m]; cbn [deref]; reflexivity.
Qed.

Lemma boost_loop_total (delta : Q) (ids : list string) (r : BoostsRef) (w : World) :
  boost_loop r delta ids w =
  (inr (looped_ref delta ids r), looped_world delta ids r w).
Proof.
  revert r w. induction ids as [| did ids IH]; intros r w.
  - destruct r, w; reflexivity.
  - rewrite boost_loop_cons, IH.
    unfold looped_ref, looped_world, apply_deltas.
    destruct r as [| m]; reflexivity.
Qed.

Lemma looped_deref (delta : Q) (ids : list string) (r : BoostsRef) (w : World) :
  deref (looped_world delta ids r w) (looped_ref delta ids r) =
  apply_deltas delta ids (deref w r).
Proof. destruct r; reflexivity. Qed.

(** [record_feedback] returns normally in every world, with every
    argument: the result and the world it leaves are fixed functions of
    the world it starts in. *)
Lemma record_feedback_total (t : bool) (ids : option (list string))
    (notes : string) (w : World) :
  record_feedback t ids notes w =
  (inr (recorded_data t (default [] ids) notes w),
   recorded_world t (default [] ids) notes w).
Proof.
  unfold record_feedback.
  rewrite (bind_pure _ _ _ _ _ (load_total w)).
  cbv zeta.
  destruct t; cbn [doc_boosts style_bullets style_citations
                   emphasis_proportionality last_notes].
  - rewrite (bind_pure _ _ _ _ _ (boost_loop_total _ _ _ _)).
    destruct (String.eqb notes "") eqn:Hn;
      rewrite (bind_pure _ _ _ _ _ (save_total _ _));
      unfold recorded_world, recorded_data, delta_for; rewrite Hn; reflexivity.
  - rewrite (bind_pure _ _ _ _ _ (boost_loop_total _ _ _ _)).
    destruct (String.eqb notes "") eqn:Hn;
      rewrite (bind_pure _ _ _ _ _ (save_total _ _));
      unfold recorded_world, recorded_data, delta_for; rewrite Hn; reflexivity.
Qed.

(** *** Bounds *)

Lemma bump_in_range (delta c : Q) : boost_in_range (bump delta c).
Proof.
  unfold bump, boost_in_range.
  pose proof (clip_bounds (- (2 # 10)) (2 # 10) (c + delta)) as Hclip.
  destruct (round4_bounds (-2000) 2000
              (Py.max (- (2 # 10)) (Py.min (2 # 10) (c + delta)))) as [Hl Hu].
  - lra.
  - lra.
Qed.

Lemma insert_in_range (m : gmap string Q) (did : string) (q : Q) :
  boosts_in_range m -> boost_in_range q -> boosts_in_range (<[did := q]> m).
Proof.
  intros Hm Hq k v Hk. destruct (decide (did = k)) as [-> | Hne].
  - rewrite lookup_insert_eq in Hk. by injection Hk as <-.
  - rewrite lookup_insert_ne in Hk by done. by apply (Hm k).
Qed.

Lemma apply_deltas_in_range (delta : Q) (ids : list string) (m : gmap string Q) :
  boosts_in_range m -> boosts_in_range (apply_deltas delta ids m).
Proof.
  revert m. induction ids as [| did ids IH]; intros m Hm; [exact Hm |].
  unfold apply_deltas. cbn [fold_left]. apply IH.
  apply insert_in_range; [exact Hm | apply bump_in_range].
Qed.

Lemma counter_step (z : Z) : counter_in_range z -> counter_in_range (Z.min 2 (z + 1)).
Proof. unfold counter_in_range. lia. Qed.

Lemma loaded_in_range (w : World) :
  world_in_range w -> data_in_range w (loaded_data w).
Proof.
  unfold world_in_range, data_in_range, loaded_data.
  destruct w as [f wr dd]. cbn [feedback_file default_doc_boosts].
  intros [Hf Hd].
  assert (Hdefault : counter_in_range 0 /\ counter_in_range 1 /\ counter_in_range 1
                     /\ boosts_in_range dd).
  { unfold counter_in_range. split; [lia |]. split; [lia |]. split; [lia |].
    exact Hd. }
  destruct f as [| | | [o |]]; try exact Hdefault.
  destruct Hf as (Hb & Hc & He & Hm).
  destruct o as [ob oc oe om on]. cbn in Hb, Hc, He, Hm.
  destruct Hdefault as (H0 & H1 & _ & _).
  unfold setdefaults.
  cbn [style_bullets style_citations emphasis_proportionality doc_boosts
       j_style_bullets j_style_citations j_emphasis_proportionality j_doc_boosts].
  split; [destruct ob; [exact Hb | exact H0] |].
  split; [destruct oc; [exact Hc | exact H1] |].
  split; [destruct oe; [exact He | exact H1] |].
  destruct om; [exact Hm | exact Hd].
Qed.

Lemma recorded_in_range (t : bool) (ids : list string) (notes : string) (w : World) :
  world_in_range w ->
  world_in_range (recorded_world t ids notes w)
  /\ data_in_range (recorded_world t ids notes w) (recorded_data t ids notes w).
Proof.
  intros Hw. pose proof (loaded_in_range w Hw) as (Hb & Hc & He & Hm).
  assert (Hcounters :
            counter_in_range (style_bullets (recorded_data t ids notes w))
            /\ counter_in_range (style_citations (recorded_data t ids notes w))
            /\ counter_in_range
                 (emphasis_proportionality (recorded_data t ids notes w))).
  { unfold recorded_data. cbn [style_bullets style_citations emphasis_proportionality].
    destruct t.
    - split; [exact Hb |]. split; apply counter_step; assumption.
    - split; [apply counter_step; exact Hb |]. split; [exact Hc | exact He]. }
  set (r := doc_boosts (loaded_data w)) in *.
  set (delta := delta_for t).
  assert (Hloop : boosts_in_range (default_doc_boosts (looped_world delta ids r w))
                  /\ boosts_in_range
                       (deref (looped_world delta ids r w) (looped_ref delta ids r))).
  { destruct Hw as [_ Hd]. destruct r as [| m]; cbn.
    - split; apply apply_deltas_in_range; exact Hd.
    - split; [exact Hd | apply apply_deltas_in_range; exact Hm]. }
  destruct Hloop as [Hd' Hr'].
  assert (Hfile : feedback_file (looped_world delta ids r w) = feedback_file w)
    by (destruct r; reflexivity).
  assert (Hwr : writable (looped_world delta ids r w) = writable w)
    by (destruct r; reflexivity).
  unfold recorded_world. fold r. fold delta.
  set (w1 := looped_world delta ids r w) in *.
  set (d := recorded_data t ids notes w) in *.
  assert (Hdr : doc_boosts d = looped_ref delta ids r) by reflexivity.
  destruct Hcounters as (H1 & H2 & H3).
  unfold saved. destruct (writable w1) eqn:Hwritable.
  - split.
    + split; [| exact Hd'].
      cbn [feedback_file to_json j_style_bullets j_style_citations
           j_emphasis_proportionality j_doc_boosts option_Forall].
      split; [exact H1 |]. split; [exact H2 |]. split; [exact H3 |].
      rewrite Hdr. exact Hr'.
    + split; [exact H1 |]. split; [exact H2 |]. split; [exact H3 |].
      rewrite Hdr.
      destruct (looped_ref delta ids r); [exact Hd' | exact Hr'].
  - split.
    + split; [| exact Hd']. rewrite Hfile. apply Hw.
    + split; [exact H1 |]. split; [exact H2 |]. split; [exact H3 |].
      rewrite Hdr. exact Hr'.
Qed.

Lemma reachable_in_range (w : World) : reachable w -> world_in_range w.
Proof.
  induction 1 as [wr | w t ids notes Hr IH | w wr Hr IH | w f Hr IH Hbad].
  - split; [exact I |]. intros k q Hk. cbn [default_doc_boosts] in Hk.
    by rewrite lookup_empty in Hk.
  - rewrite record_feedback_total. cbn [snd]. by apply recorded_in_range.
  - exact IH.
  - split; [| apply IH]. cbn [feedback_file].
    destruct Hbad as [-> | [-> | [-> | ->]]]; exact I.
Qed.

(** C4: in every world a process can reach by feedback events, whatever
    happens to the file in between, a further [record_feedback] call returns
    a state whose three style counters lie in [0, 2] and whose boosts all lie
    in [-0.2, 0.2]; what it leaves in the file and in memory satisfies the
    same bounds, and the world it leaves is reachable again. *)
Theorem record_feedback_keeps_bounds (w : World) (t : bool)
    (ids : option (list string)) (notes : string) :
  reachable w ->
  exists d w',
    record_feedback t ids notes w = (inr d, w')
    /\ data_in_range w' d
    /\ world_in_range w'
    /\ reachable w'.
Proof.
  intros Hr. exists (recorded_data t (default [] ids) notes w),
                    (recorded_world t (default [] ids) notes w).
  split; [apply record_feedback_total |].
  destruct (recorded_in_range t (default [] ids) notes w
              (reachable_in_range w Hr)) as [Hw Hd].
  split; [exact Hd |]. split; [exact Hw |].
  pose proof (reach_feedback w t ids notes Hr) as Hn.
  rewrite record_feedback_total in Hn. exact Hn.
Qed.

(** *** The boost of one document over a series of events *)

Lemma submit_all_total (evs : list Event) (w : World) :
  submit_all evs w = (inr tt, world_after evs w).
Proof.
  revert w. induction evs as [| e evs IH]; intros w; [reflexivity |].
  cbn [submit_all]. unfold submit, submit_feedback.
  rewrite (bind_pure _ _ _ _ _ (record_feedback_total _ _ _ _)).
  rewrite IH. reflexivity.
Qed.

Lemma boosts_after_total (evs : list Event) (w : World) :
  boosts_after evs w =
  (inr (loaded_boosts (world_after evs w)), world_after evs w).
Proof.
  unfold boosts_after.
  rewrite (bind_pure _ _ _ _ _ (submit_all_total evs w)).
  apply get_doc_boosts_total.
Qed.

(** When the file can be written, the next [_load] sees the boosts the
    call has just computed. *)
Lemma recorded_world_writable (t : bool) (ids : list string) (notes : string)
    (w : World) :
  writable w = true ->
  writable (recorded_world t ids notes w) = true
  /\ loaded_boosts (recorded_world t ids notes w) =
     apply_deltas (delta_for t) ids (loaded_boosts w).
Proof.
  intros Hwr. unfold recorded_world, loaded_boosts.
  set (r := doc_boosts (loaded_data w)).
  set (delta := delta_for t).
  assert (Hwr1 : writable (looped_world delta ids r w) = true)
    by (destruct r; exact Hwr).
  unfold saved. rewrite Hwr1.
  split; [reflexivity |].
  unfold loaded_data at 1. cbn [feedback_file setdefaults to_json j_doc_boosts
                                doc_boosts deref recorded_data].
  fold r. fold delta. apply looped_deref.
Qed.

Lemma boost_of_insert (m : gmap string Q) (did d : string) (q : Q) :
  boost_of (<[did := q]> m) d = if String.eqb d did then q else boost_of m d.
Proof.
  unfold boost_of. destruct (String.eqb d did) eqn:He.
  - apply String.eqb_eq in He as ->. by rewrite lookup_insert_eq.
  - apply String.eqb_neq in He. by rewrite lookup_insert_ne.
Qed.

Lemma apply_deltas_cons (delta : Q) (did : string) (ids : list string)
    (m : gmap string Q) :
  apply_deltas delta (did :: ids) m =
  apply_deltas delta ids (<[did := bump delta (boost_of m did)]> m).
Proof. reflexivity. Qed.

(** A document's boost is bumped once for every occurrence of its id. *)
Lemma boost_of_apply_deltas (delta : Q) (ids : list string) (m : gmap string Q)
    (d : string) :
  boost_of (apply_deltas delta ids m) d =
  Nat.iter (occurrences d ids) (bump delta) (boost_of m d).
Proof.
  revert m. induction ids as [| did ids IH]; intros m; [reflexivity |].
  rewrite apply_deltas_cons, IH, boost_of_insert. unfold occurrences. cbn [List.filter].
  destruct (String.eqb d did) eqn:He.
  - apply String.eqb_eq in He as ->. cbn [length]. by rewrite Nat.iter_succ_r.
  - reflexivity.
Qed.

Lemma boost_after_once (t : bool) (ids : list string) (notes : string)
    (w : World) (d : string) :
  writable w = true ->
  occurrences d ids = 1%nat ->
  boost_of (loaded_boosts (recorded_world t ids notes w)) d =
  bump (delta_for t) (boost_of (loaded_boosts w) d).
Proof.
  intros Hwr Hocc.
  destruct (recorded_world_writable t ids notes w Hwr) as [_ ->].
  rewrite boost_of_apply_deltas, Hocc. reflexivity.
Qed.

Lemma world_after_writable (evs : list Event) (w : World) :
  writable w = true -> writable (world_after evs w) = true.
Proof.
  revert w. induction evs as [| e evs IH]; intros w Hwr; [exact Hwr |].
  cbn [world_after fold_left]. apply IH.
  by apply recorded_world_writable.
Qed.

(** The code's update and the specification's agree. *)
Lemma bump_clip (delta c : Q) : bump delta c = Py.round (clip (c + delta)) 4.
Proof.
  unfold bump, clip. apply round_proper.
  unfold Py.max, Py.min.
  destruct (Qlt_le_dec (c + delta) (2 # 10)) as [Hlt | Hge].
  - rewrite (Q.min_r (2 # 10) (c + delta)) by lra.
    destruct (Qlt_le_dec (- (2 # 10)) (c + delta)).
    + rewrite Q.max_r by lra. reflexivity.
    + rewrite Q.max_l by lra. reflexivity.
  - rewrite (Q.min_l (2 # 10) (c + delta)) by lra.
    destruct (Qlt_le_dec (- (2 # 10)) (2 # 10)); [| lra].
    rewrite Q.max_r by lra. reflexivity.
Qed.

Lemma events_fold_boost (evs : list Event) (w : World) (d : string) :
  writable w = true ->
  Forall (fun e => occurrences d (ev_doc_ids e) = 1%nat) evs ->
  boost_of (loaded_boosts (world_after evs w)) d =
  fold_left (fun acc delta => Py.round (clip (acc + delta)) 4)
            (map delta_of evs) (boost_of (loaded_boosts w) d).
Proof.
  intros Hwr Hall. revert w Hwr.
  induction Hall as [| e evs He Hall IH]; intros w Hwr; [reflexivity |].
  cbn [world_after fold_left map].
  fold (world_after evs
          (recorded_world (ev_thumbs_up e) (ev_doc_ids e) (ev_notes e) w)).
  rewrite IH by (by apply recorded_world_writable).
  rewrite boost_after_once by assumption.
  rewrite bump_clip. reflexivity.
Qed.

(** *** Thumbs up, N times *)

Lemma round4_fiftieths (z : Z) :
  Py.round ((2 # 100) * inject_Z z) 4 == (2 # 100) * inject_Z z.
Proof.
  rewrite (round_proper _ ((200 * z) # 10000)).
  - rewrite round4_exact. unfold Qeq, Qmult, inject_Z. simpl. lia.
  - unfold Qeq, Qmult, inject_Z. simpl. lia.
Qed.

Lemma round4_fifth : Py.round (2 # 10) 4 == 2 # 10.
Proof. reflexivity. Qed.

Lemma clip_inside (y : Q) : - (2 # 10) <= y <= 2 # 10 -> clip y == y.
Proof.
  intros [Hl Hu]. unfold clip.
  rewrite (Q.min_r (2 # 10) y) by exact Hu. by rewrite Q.max_r.
Qed.

Lemma clip_above (y : Q) : 2 # 10 <= y -> clip y == 2 # 10.
Proof.
  intros Hu. unfold clip.
  rewrite (Q.min_l (2 # 10) y) by exact Hu. rewrite Q.max_r; [reflexivity | lra].
Qed.

Lemma running_sum_snoc (deltas : list Q) (delta : Q) :
  clipped_running_sum (deltas ++ [delta]) =
  Py.round (clip (clipped_running_sum deltas + delta)) 4.
Proof. unfold clipped_running_sum. by rewrite fold_left_app. Qed.

Lemma inject_nat_succ (n : nat) :
  inject_Z (Z.of_nat (S n)) == inject_Z (Z.of_nat n) + 1.
Proof. rewrite Nat2Z.inj_succ, <- Z.add_1_r, inject_Z_plus. reflexivity. Qed.

Lemma inject_nat_le (n m : nat) :
  (n <= m)%nat -> inject_Z (Z.of_nat n) <= inject_Z (Z.of_nat m).
Proof. intros Hle. rewrite <- Zle_Qle. lia. Qed.

(** N additions of 0.02 from 0: N/50 up to ten events, 0.2 from then on. *)
Lemma running_sum_up (n : nat) :
  ((n <= 10)%nat ->
   clipped_running_sum (repeat (2 # 100) n) == (2 # 100) * inject_Z (Z.of_nat n))
  /\ ((10 <= n)%nat -> clipped_running_sum (repeat (2 # 100) n) == 2 # 10).
Proof.
  induction n as [| n [IHlo IHhi]].
  - split; [intros _; reflexivity | intros Hle; lia].
  - assert (Hsnoc : repeat (2 # 100) (S n) = repeat (2 # 100) n ++ [2 # 100])
      by (cbn [repeat]; apply repeat_cons).
    rewrite Hsnoc, running_sum_snoc.
    set (x := clipped_running_sum (repeat (2 # 100) n)) in *.
    pose proof (inject_nat_succ n) as Hs.
    pose proof (inject_nat_le 0 n ltac:(lia)) as H0.
    change (inject_Z (Z.of_nat 0)) with 0 in H0.
    split; intros Hn.
    + assert (Hx : x == (2 # 100) * inject_Z (Z.of_nat n)) by (apply IHlo; lia).
      pose proof (inject_nat_le (S n) 10 Hn) as H10.
      change (inject_Z (Z.of_nat 10)) with (10 # 1) in H10.
      rewrite (round_proper _ ((2 # 100) * inject_Z (Z.of_nat (S n)))).
      * apply round4_fiftieths.
      * set (qn := inject_Z (Z.of_nat n)) in *.
        set (qs := inject_Z (Z.of_nat (S n))) in *.
        clearbody x qn qs. rewrite clip_inside; lra.
    + rewrite (round_proper _ (2 # 10)); [apply round4_fifth |].
      apply clip_above.
      destruct (Nat.le_gt_cases n 10) as [Hle | Hgt].
      * assert (Hx : x == (2 # 100) * inject_Z (Z.of_nat n)) by (apply IHlo; lia).
        pose proof (inject_nat_le 10 (S n) Hn) as H10.
        change (inject_Z (Z.of_nat 10)) with (10 # 1) in H10.
        set (qn := inject_Z (Z.of_nat n)) in *.
        set (qs := inject_Z (Z.of_nat (S n))) in *.
        clearbody x qn qs. lra.
      * assert (Hx : x == 2 # 10) by (apply IHhi; lia).
        clearbody x. lra.
Qed.

Lemma min_round_up (n : nat) :
  ((n <= 10)%nat ->
   Py.min (2 # 10) (Py.round ((2 # 100) * inject_Z (Z.of_nat n)) 4)
   == (2 # 100) * inject_Z (Z.of_nat n))
  /\ ((10 <= n)%nat ->
      Py.min (2 # 10) (Py.round ((2 # 100) * inject_Z (Z.of_nat n)) 4) == 2 # 10).
Proof.
  pose proof (round4_fiftieths (Z.of_nat n)) as Hr.
  unfold Py.min.
  destruct (Qlt_le_dec (Py.round ((2 # 100) * inject_Z (Z.of_nat n)) 4) (2 # 10))
    as [Hlt | Hge]; split; intros Hn.
  - exact Hr.
  - pose proof (inject_nat_le 10 n Hn) as H10.
    change (inject_Z (Z.of_nat 10)) with (10 # 1) in H10.
    set (qn := inject_Z (Z.of_nat n)) in *. clearbody qn. lra.
  - pose proof (inject_nat_le n 10 Hn) as H10.
    change (inject_Z (Z.of_nat 10)) with (10 # 1) in H10.
    set (qn := inject_Z (Z.of_nat n)) in *. clearbody qn. lra.
  - reflexivity.
Qed.

Lemma running_sum_in_range (deltas : list Q) :
  boost_in_range (clipped_running_sum deltas).
Proof.
  induction deltas as [| delta deltas _] using rev_ind.
  - unfold boost_in_range, clipped_running_sum. cbn. lra.
  - rewrite running_sum_snoc, <- bump_clip. apply bump_in_range.
Qed.

Lemma all_up_deltas (evs : list Event) :
  Forall (fun e => ev_thumbs_up e = true) evs ->
  map delta_of evs = repeat (2 # 100) (length evs).
Proof.
  induction 1 as [| e evs He _ IH]; [reflexivity |].
  cbn [map length repeat]. rewrite IH. unfold delta_of. by rewrite He.
Qed.

(** C3, as the code has it: take a world whose file can be written and
    where document [d] has no boost yet, and a series of feedback events in
    each of which [d] occurs exactly once among the ids.  Afterwards the
    boost of [d] is the running sum of the deltas +0.02 / -0.02, clipped to
    [-0.2, 0.2] and rounded to four decimals at each step; it lies in
    [-0.2, 0.2]; and when all N events are thumbs-up it is
    min(0.2, round(0.02 * N, 4)). *)
Theorem boost_after_events (w : World) (d : string) (evs : list Event) :
  writable w = true ->
  loaded_boosts w !! d = None ->
  Forall (fun e => occurrences d (ev_doc_ids e) = 1%nat) evs ->
  exists m w',
    boosts_after evs w = (inr m, w')
    /\ boost_of m d = clipped_running_sum (map delta_of evs)
    /\ boost_in_range (boost_of m d)
    /\ (Forall (fun e => ev_thumbs_up e = true) evs ->
        boost_of m d ==
        Py.min (2 # 10)
               (Py.round ((2 # 100) * inject_Z (Z.of_nat (length evs))) 4)).
Proof.
  intros Hwr Hnone Hall.
  exists (loaded_boosts (world_after evs w)), (world_after evs w).
  assert (Hsum : boost_of (loaded_boosts (world_after evs w)) d =
                 clipped_running_sum (map delta_of evs)).
  { rewrite (events_fold_boost evs w d Hwr Hall).
    unfold boost_of at 1. rewrite Hnone. reflexivity. }
  split; [apply boosts_after_total |].
  split; [exact Hsum |].
  split; [rewrite Hsum; apply running_sum_in_range |].
  intros Hup. rewrite Hsum, (all_up_deltas evs Hup).
  destruct (running_sum_up (length evs)) as [Hlo Hhi].
  destruct (min_round_up (length evs)) as [Mlo Mhi].
  destruct (Nat.le_gt_cases (length evs) 10) as [Hle | Hgt].
  - rewrite Hlo, Mlo by exact Hle. reflexivity.
  - rewrite Hhi, Mhi by lia. reflexivity.
Qed.

Lemma boost_after_events_witness :
  exists m w',
    boosts_after [mkEvent true ["p1"; "p2"] ""; mkEvent true ["p1"] "fine";
                  mkEvent true ["p2"; "p1"] ""]
                 (mkWorld Absent true ∅) = (inr m, w')
    /\ boost_of m "p1" =
       clipped_running_sum
         (map delta_of [mkEvent true ["p1"; "p2"] ""; mkEvent true ["p1"] "fine";
                        mkEvent true ["p2"; "p1"] ""])
    /\ boost_in_range (boost_of m "p1")
    /\ boost_of m "p1" ==
       Py.min (2 # 10) (Py.round ((2 # 100) * inject_Z (Z.of_nat 3)) 4).
Proof.
  destruct (boost_after_events (mkWorld Absent true ∅) "p1"
              [mkEvent true ["p1"; "p2"] ""; mkEvent true ["p1"] "fine";
               mkEvent true ["p2"; "p1"] ""])
    as (m & w' & Hrun & Hsum & Hrange & Hup).
  - reflexivity.
  - reflexivity.
  - repeat constructor.
  - exists m, w'. split; [exact Hrun |]. split; [exact Hsum |].
    split; [exact Hrange |]. apply Hup. repeat constructor.
Defined.

Example boost_mixed_events :
  fst (boosts_after [mkEvent true ["p1"] ""; mkEvent false ["p1"] "";
                     mkEvent false ["p1"] ""] (mkWorld Absent true ∅))
  = inr {["p1" := (- (1 # 50))%Q]}.
Proof. vm_compute. reflexivity. Qed.

(** Twelve thumbs-up events saturate at 0.2. *)
Example boost_saturates :
  fst (boosts_after (repeat (mkEvent true ["p1"] "") 12) (mkWorld Absent true ∅))
  = inr {["p1" := (1 # 5)%Q]}.
Proof. vm_compute. reflexivity. Qed.

(** A stored file that cannot be rewritten: each event starts again from
    the stored boosts, so two thumbs-up events leave the stored boost at 0. *)
Example boost_not_persisted :
  fst (boosts_after [mkEvent true ["p1"] ""; mkEvent true ["p1"] ""]
         (mkWorld (Stored (JObj (mkJsonObj (Some 0%Z) (Some 1%Z) (Some 1%Z)
                                           (Some ∅) None)))
                  false ∅))
  = inr ∅.
Proof. vm_compute. reflexivity. Qed.

(** C3 as stated does not hold, for two reasons, each with its input.
    "Contains d" allows an id that is listed twice in one event, and such an
    id is bumped twice by that event: one thumbs-up event with the ids
    [p1, p1] leaves the boost of p1 at 0.04 (first and second part; in the
    second the file can be written).  And when the file exists but cannot be
    rewritten, every event starts again from the stored boosts: after two
    thumbs-up events for p1 the stored boost of p1 is still absent (third
    part; there each event lists p1 once). *)
Lemma stated_boost_claim_fails :
  ~ (forall (w : World) (d : string) (evs : list Event),
        loaded_boosts w !! d = None ->
        Forall (fun e => ev_thumbs_up e = true /\ d ∈ ev_doc_ids e) evs ->
        forall m w', boosts_after evs w = (inr m, w') ->
          boost_of m d ==
          Py.min (2 # 10)
                 (Py.round ((2 # 100) * inject_Z (Z.of_nat (length evs))) 4))
  /\ ~ (forall (w : World) (d : string) (evs : list Event),
          writable w = true ->
          loaded_boosts w !! d = None ->
          Forall (fun e => ev_thumbs_up e = true /\ d ∈ ev_doc_ids e) evs ->
          forall m w', boosts_after evs w = (inr m, w') ->
            boost_of m d ==
            Py.min (2 # 10)
                   (Py.round ((2 # 100) * inject_Z (Z.of_nat (length evs))) 4))
  /\ ~ (forall (w : World) (d : string) (evs : list Event),
          loaded_boosts w !! d = None ->
          Forall (fun e => ev_thumbs_up e = true
                           /\ occurrences d (ev_doc_ids e) = 1%nat) evs ->
          forall m w', boosts_after evs w = (inr m, w') ->
            boost_of m d ==
            Py.min (2 # 10)
                   (Py.round ((2 # 100) * inject_Z (Z.of_nat (length evs))) 4)).
Proof.
  assert (Hev : Forall (fun e => ev_thumbs_up e = true /\ "p1" ∈ ev_doc_ids e)
                       [mkEvent true ["p1"; "p1"] ""]).
  { constructor; [| constructor]. split; [reflexivity | by left]. }
  split; [| split]; intros Hclaim.
  - specialize (Hclaim (mkWorld Absent true ∅) "p1" [mkEvent true ["p1"; "p1"] ""]
                       eq_refl Hev _ _ (boosts_after_total _ _)).
    vm_compute in Hclaim. discriminate.
  - specialize (Hclaim (mkWorld Absent true ∅) "p1" [mkEvent true ["p1"; "p1"] ""]
                       eq_refl eq_refl Hev _ _ (boosts_after_total _ _)).
    vm_compute in Hclaim. discriminate.
  - specialize (Hclaim
                  (mkWorld (Stored (JObj (mkJsonObj (Some 0%Z) (Some 1%Z) (Some 1%Z)
                                                    (Some ∅) None)))
                           false ∅)
                  "p1" [mkEvent true ["p1"] ""; mkEvent true ["p1"] ""] eq_refl).
    assert (Hev1 : Forall (fun e => ev_thumbs_up e = true
                                    /\ occurrences "p1" (ev_doc_ids e) = 1%nat)
                          [mkEvent true ["p1"] ""; mkEvent true ["p1"] ""]).
    { repeat constructor. }
    specialize (Hclaim Hev1 _ _ (boosts_after_total _ _)).
    vm_compute in Hclaim. discriminate.
Qed.

(** *** The default dictionary is shared *)

(** C8 at its failing input.  The path cannot be written and there is no
    file.  One thumbs-up event for p1 is recorded: nothing is raised and the
    file is still missing.  The next [_load] again returns the copy of
    [DEFAULT_FEEDBACK], but its boosts now hold 0.02 for p1, because the
    copy shares the dictionary that [record_feedback] has updated in place;
    before the event they were empty. *)
Theorem load_after_unsaved_feedback :
  let w0 := mkWorld Absent false ∅ in
  let w1 := snd (record_feedback true (Some ["p1"]) "" w0) in
  get_doc_boosts w0 = (inr ∅, w0)
  /\ feedback_file w1 = Absent
  /\ _load w1 = (inr DEFAULT_FEEDBACK_copy, w1)
  /\ deref w1 (doc_boosts DEFAULT_FEEDBACK_copy) = {["p1" := (1 # 50)%Q]}
  /\ get_doc_boosts w1 = (inr {["p1" := (1 # 50)%Q]}, w1).
Proof.
  cbv zeta.
  split; [vm_compute; reflexivity |].
  split; [vm_compute; reflexivity |].
  split; [vm_compute; reflexivity |].
  split; vm_compute; reflexivity.
Qed.

(** X14: The parts of C8 that hold, in one statement: [_load] raises nothing on
    a file that is missing, unreadable, not JSON or not a JSON object, and
    returns the copy of [DEFAULT_FEEDBACK]; and in a world reached by feedback
    events, where the file is missing, of no use or written by [_save],
    [record_feedback] raises nothing when the write fails, returns the
    updated state and leaves the file as it was. *)
Lemma persistence_errors_not_raised (w : World) (t : bool)
    (ids : option (list string)) (notes : string) :
  (unusable (feedback_file w) -> _load w = (inr DEFAULT_FEEDBACK_copy, w))
  /\ (reachable w -> writable w = false ->
      exists d w', record_feedback t ids notes w = (inr d, w')
                   /\ d = recorded_data t (default [] ids) notes w
                   /\ feedback_file w' = feedback_file w).
Proof.
  split; [apply load_unusable_file |].
  intros _ Hwr. eexists _, _. split; [apply record_feedback_total |].
  split; [reflexivity |].
  unfold recorded_world, saved.
  assert (Hw1 : forall r, writable (looped_world (delta_for t) (default [] ids) r w)
                          = false /\
                          feedback_file (looped_world (delta_for t) (default [] ids) r w)
                          = feedback_file w).
  { intros r. destruct r; split; (exact Hwr || reflexivity). }
  destruct (Hw1 (doc_boosts (loaded_data w))) as [-> Hf]. exact Hf.
Qed.

Lemma record_feedback_keeps_bounds_witness :
  exists d w',
    record_feedback true (Some ["p1"; "p2"]) "ok" (mkWorld Absent true ∅) = (inr d, w')
    /\ data_in_range w' d
    /\ world_in_range w'
    /\ reachable w'.
Proof.
  apply (record_feedback_keeps_bounds (mkWorld Absent true ∅) true
           (Some ["p1"; "p2"]) "ok").
  apply reach_start.
Defined.

End FeedbackFacts.

(** ** The reference implementation of the NumPy routines *)
Module NumpyFacts.
Import Text Py Numpy Spec.

Lemma insert_idx_perm (a : list Q) (i : nat) (l : list nat) :
  insert_idx a i l ≡ₚ i :: l.
Proof.
  induction l as [| j l IH]; [reflexivity |].
  cbn [insert_idx]. destruct (Qle_bool (key a i) (key a j)); [reflexivity |].
  rewrite IH. apply Permutation_swap.
Qed.

Lemma stable_argsort_perm (a : list Q) : stable_argsort a ≡ₚ seq 0 (length a).
Proof.
  unfold stable_argsort. generalize (seq 0 (length a)) as l.
  induction l as [| i l IH]; [reflexivity |].
  cbn [foldr]. rewrite insert_idx_perm. by rewrite IH.
Qed.

Lemma insert_idx_sorted (a : list Q) (i : nat) (l : list nat) :
  Sorted Qle (map (key a) l) -> Sorted Qle (map (key a) (insert_idx a i l)).
Proof.
  induction l as [| j l IH]; intros Hs.
  - repeat constructor.
  - cbn [insert_idx]. destruct (Qle_bool (key a i) (key a j)) eqn:Hle.
    + cbn [map]. constructor; [exact Hs |]. constructor.
      by apply Qle_bool_iff.
    + cbn [map] in *. inversion Hs as [| x xs Hs' Hhd]; subst.
      constructor; [by apply IH |].
      assert (Hji : (key a j <= key a i)%Q).
      { destruct (Qlt_le_dec (key a j) (key a i)) as [Hlt | Hge].
        - by apply Qlt_le_weak.
        - apply Qle_bool_iff in Hge. congruence. }
      destruct l as [| j' l]; cbn [insert_idx map].
      * by constructor.
      * destruct (Qle_bool (key a i) (key a j')); cbn [map].
        -- by constructor.
        -- constructor. by inversion Hhd.
Qed.

Lemma stable_argsort_sorted (a : list Q) :
  StronglySorted Qle (map (key a) (stable_argsort a)).
Proof.
  apply Sorted_StronglySorted; [exact Qle_trans |].
  unfold stable_argsort. generalize (seq 0 (length a)) as l.
  induction l as [| i l IH]; [constructor |].
  cbn [foldr]. by apply insert_idx_sorted.
Qed.

(** In a list in ascending order, an earlier element is at most a later one. *)
Lemma sorted_lookup_le (l : list Q) (i j : nat) (x y : Q) :
  StronglySorted Qle l -> (i <= j)%nat ->
  l !! i = Some x -> l !! j = Some y -> (x <= y)%Q.
Proof.
  intros Hs. revert i j. induction Hs as [| z l Hs IH Hall]; intros i j Hij Hi Hj.
  - by rewrite lookup_nil in Hi.
  - destruct i as [| i], j as [| j]; cbn in Hi, Hj.
    + injection Hi as <-. injection Hj as <-. apply Qle_refl.
    + injection Hi as <-. rewrite Forall_forall in Hall.
      apply Hall. by eapply list_elem_of_lookup_2.
    + lia.
    + apply (IH i j); [lia | done | done].
Qed.

#[export] Instance stable_laws : SortingLaws stable.
Proof.
  split.
  - exact stable_argsort_perm.
  - exact stable_argsort_sorted.
  - intros a kth Hb. cbn. unfold stable_argpartition. by rewrite Hb.
  - intros a kth Hb. exists (stable_argsort a). split.
    + cbn. unfold stable_argpartition. by rewrite Hb.
    + apply stable_argsort_perm.
  - intros a kth p i j x y Hp kth' Hi Hj Hx Hy.
    cbn in Hp. unfold stable_argpartition in Hp.
    destruct (kth_in_bounds (Z.of_nat (length a)) kth); [| discriminate].
    injection Hp as <-.
    apply (sorted_lookup_le (map (key a) (stable_argsort a)) i j).
    + apply stable_argsort_sorted.
    + lia.
    + by rewrite list_lookup_fmap, Hx.
    + by rewrite list_lookup_fmap, Hy.
Qed.

End NumpyFacts.

(** ** The precedent ranker *)
Module RetrieverFacts.
Import Text Py Numpy retriever agent Spec PyFacts FeedbackFacts NumpyFacts.

Local Open Scope Q_scope.

Lemma precedent_score_total (sim : Q) (d : Doc) (kws : list string) (w : World) :
  _precedent_score sim d kws w = (inr (score_in w sim d kws), w).
Proof.
  unfold _precedent_score. cbv zeta.
  rewrite (bind_pure _ _ _ _ _ (get_doc_boosts_total w)). reflexivity.
Qed.

Lemma lookup_nth {A} (l : list A) (i : nat) (d : A) :
  (i < length l)%nat -> l !! i = Some (nth i l d).
Proof.
  intros Hi. destruct (lookup_lt_is_Some_2 l i Hi) as [x Hx].
  rewrite Hx. f_equal. symmetry. by apply nth_lookup_Some.
Qed.

Lemma map_nth_seq_from {A} (pre l : list A) (d : A) :
  map (fun i => nth i (pre ++ l) d) (seq (length pre) (length l)) = l.
Proof.
  revert pre. induction l as [| x l IH]; intros pre; [reflexivity |].
  cbn [length seq map]. f_equal.
  - apply nth_middle.
  - specialize (IH (pre ++ [x])). rewrite <- app_assoc in IH. cbn [app] in IH.
    rewrite length_app in IH. cbn [length] in IH.
    rewrite Nat.add_1_r in IH. exact IH.
Qed.

Lemma map_nth_seq {A} (l : list A) (d : A) :
  map (fun i => nth i l d) (seq 0 (length l)) = l.
Proof. exact (map_nth_seq_from [] l d). Qed.

Lemma perm_seq_bound (p : list nat) (n i : nat) :
  p ≡ₚ seq 0 n -> i ∈ p -> (i < n)%nat.
Proof. intros Hp Hi. rewrite Hp in Hi. apply elem_of_seq in Hi. lia. Qed.

Lemma take_slice_full {A} (l : list A) (k : Z) :
  (Z.of_nat (length l) <= k)%Z -> take_slice l k = l.
Proof.
  intros Hk. unfold take_slice, clamp_index.
  destruct (k <? 0)%Z eqn:Hneg; [apply Z.ltb_lt in Hneg; lia |].
  apply firstn_all2. lia.
Qed.

Lemma key_opp (sims : list Q) (i : nat) :
  key (map Qopp sims) i = - nth i sims 0.
Proof. unfold key. change 0 with (- 0) at 1. apply map_nth. Qed.

Lemma key_map (f : nat -> Q) (l : list nat) (j : nat) :
  (j < length l)%nat -> key (map f l) j = f (nth j l 0%nat).
Proof.
  intros Hj. unfold key.
  rewrite (nth_indep _ 0 (f 0%nat)) by (by rewrite length_map).
  apply map_nth.
Qed.

Lemma descending_of_opp (f : nat -> Q) (l : list nat) :
  StronglySorted Qle (map (fun i => - f i) l) ->
  StronglySorted (fun i j => f j <= f i) l.
Proof.
  induction l as [| i l IH]; intros Hs; [constructor |].
  cbn [map] in Hs. inversion Hs as [| x xs Hs' Hall]; subst.
  constructor; [by apply IH |].
  apply List.Forall_forall. intros j Hj.
  assert (Hle : - f i <= - f j).
  { apply (proj1 (List.Forall_forall _ _) Hall).
    apply in_map_iff. exists j. split; [reflexivity | exact Hj]. }
  lra.
Qed.

(** What [retrieve] returns, when the similarity vector has one entry for
    each document and [kth] passes NumPy's check: no exception, the world
    unchanged, and one element for each of the offsets [idxs], which are the
    first [min(k, N)] offsets of the partition in descending order of
    similarity. *)
Lemma retrieve_total {np : Sorting} {laws : SortingLaws np} (self : Retriever) (query : string)
    (k : Z) (w : World) :
  length (similarities self query) = length (docs self) ->
  kth_in_bounds (Z.of_nat (length (docs self)))
                (Z.min k (Z.of_nat (length (docs self))) - 1) = true ->
  exists p idxs,
    argpartition (map Qopp (similarities self query))
                 (Z.min k (Z.of_nat (length (docs self))) - 1) = inr p
    /\ p ≡ₚ seq 0 (length (docs self))
    /\ idxs ≡ₚ take_slice p (Z.min k (Z.of_nat (length (docs self))))
    /\ StronglySorted (fun i j => sim_at self query j <= sim_at self query i) idxs
    /\ retrieve self query k w = (inr (map (scored_at self query w) idxs), w).
Proof.
  intros Hlen Hb. unfold retrieve. cbv zeta.
  set (n := length (docs self)) in *.
  set (sims := similarities self query) in *.
  set (neg := map Qopp sims).
  set (k' := Z.min k (Z.of_nat n)) in *.
  assert (Hneg : length neg = n) by (unfold neg; by rewrite length_map).
  destruct (argpartition_perm neg (k' - 1)) as (p & Hp & Hperm).
  { by rewrite Hneg. }
  rewrite Hneg in Hperm. rewrite Hp.
  set (idxs1 := take_slice p k').
  assert (Hin1 : forall i, i ∈ idxs1 -> (i < n)%nat).
  { intros i Hi. apply (perm_seq_bound p n i Hperm).
    destruct (GroundingFacts.take_slice_prefix p k') as [tl Htl].
    fold idxs1 in Htl. rewrite Htl. apply elem_of_app. by left. }
  (* the keys of the selected offsets *)
  assert (Hkeys : for_each (index neg) idxs1 w = (inr (map (key neg) idxs1), w)).
  { apply for_each_pure. intros i Hi. apply index_lookup.
    unfold key. apply lookup_nth. rewrite Hneg. by apply Hin1. }
  (* the offsets in key order *)
  set (order := argsort (map (key neg) idxs1)).
  assert (Horder : order ≡ₚ seq 0 (length idxs1)).
  { unfold order. rewrite argsort_perm. by rewrite length_map. }
  assert (Hidx : for_each (index idxs1) order w
                 = (inr (map (fun j => nth j idxs1 0%nat) order), w)).
  { apply for_each_pure. intros j Hj. apply index_lookup. apply lookup_nth.
    by apply (perm_seq_bound order _ j Horder). }
  set (idxs2 := map (fun j => nth j idxs1 0%nat) order).
  assert (Hperm2 : idxs2 ≡ₚ idxs1).
  { unfold idxs2. rewrite Horder. by rewrite map_nth_seq. }
  assert (Hin2 : forall i, i ∈ idxs2 -> (i < n)%nat).
  { intros i Hi. apply Hin1. by rewrite <- Hperm2. }
  assert (Hbody : for_each (fun idx =>
                     d ← index (docs self) idx;
                     sim ← index sims idx;
                     sc ← _precedent_score sim d (_issue_keywords query);
                     mret (mkScored sc d)) idxs2 w
                 = (inr (map (scored_at self query w) idxs2), w)).
  { apply for_each_pure. intros idx Hidx2. apply Hin2 in Hidx2.
    rewrite (bind_pure _ _ w w (nth idx (docs self) no_doc)).
    2: { apply index_lookup, lookup_nth. exact Hidx2. }
    rewrite (bind_pure _ _ w w (nth idx sims 0)).
    2: { apply index_lookup, lookup_nth. by rewrite Hlen. }
    rewrite (bind_pure _ _ _ _ _ (precedent_score_total _ _ _ w)).
    reflexivity. }
  exists p, idxs2. split; [reflexivity |].
  split; [exact Hperm |]. split; [exact Hperm2 |]. split.
  - apply descending_of_opp.
    pose proof (argsort_sorted (map (key neg) idxs1)) as Hs. fold order in Hs.
    replace (map (fun i => - sim_at self query i) idxs2)
      with (map (key (map (key neg) idxs1)) order); [exact Hs |].
    unfold idxs2. rewrite map_map. apply map_ext_in. intros j Hj.
    rewrite key_map.
    + unfold neg. rewrite key_opp. reflexivity.
    + apply (perm_seq_bound order _ j Horder). by apply list_elem_of_In.
  - change (lift_exn (inr p)) with (mret p : M (list nat)).
    unfold mbind at 1, M_bind at 1, mret at 1, M_ret at 1.
    fold idxs1.
    rewrite (bind_pure _ _ _ _ _ Hkeys).
    fold order.
    rewrite (bind_pure _ _ _ _ _ Hidx).
    fold idxs2. exact Hbody.
Qed.

(** *** The score formula *)

Lemma py_max_Qmax (a b : Q) : Py.max a b == Qmax a b.
Proof.
  unfold Py.max. destruct (Qlt_le_dec a b).
  - rewrite Q.max_r by lra. reflexivity.
  - rewrite Q.max_l by lra. reflexivity.
Qed.

Lemma inject_Z_max0 (a : Z) : inject_Z (Z.max 0 a) == Qmax 0 (inject_Z a).
Proof.
  destruct (Z.le_gt_cases a 0) as [Hle | Hgt].
  - rewrite Z.max_l by exact Hle. rewrite Q.max_l; [reflexivity |].
    change 0 with (inject_Z 0). by rewrite <- Zle_Qle.
  - rewrite Z.max_r by lia. rewrite Q.max_r; [reflexivity |].
    change 0 with (inject_Z 0). rewrite <- Zle_Qle. lia.
Qed.

Lemma recency_agrees (year current_year : Z) :
  _recency year current_year == recency current_year year.
Proof.
  unfold _recency, recency. rewrite py_max_Qmax, inject_Z_max0. reflexivity.
Qed.

Lemma issue_overlap_agrees (tags kws : list string) :
  _issue_overlap tags kws = overlap (list_to_set tags) (list_to_set kws).
Proof.
  unfold _issue_overlap, overlap. destruct kws as [| kw kws].
  - rewrite decide_True by reflexivity. reflexivity.
  - rewrite decide_False; [reflexivity |].
    cbn [list_to_set foldr]. intros Hempty.
    assert (Hin : kw ∈ ({[kw]} ∪ list_to_set kws : gset string))
      by (apply elem_of_union; left; by apply elem_of_singleton).
    rewrite Hempty in Hin. by apply not_elem_of_empty in Hin.
Qed.

Lemma score_in_combined (w : World) (sim : Q) (d : Doc) (kws : list string) :
  score_in w sim d kws
  == combined_score (loaded_boosts w) sim d (list_to_set kws).
Proof.
  unfold score_in, combined_score, current_year_default.
  rewrite recency_agrees, issue_overlap_agrees.
  set (r := recency 2025 (year d)).
  set (o := overlap (list_to_set (tags d)) (list_to_set kws)).
  set (b := boost_of (loaded_boosts w) (id d)).
  clearbody r o b. lra.
Qed.

(** *** Reading [retrieve] backwards from its result *)

Lemma index_inv {A} (l : list A) (i : nat) (w w' : World) (x : A) :
  index l i w = (inr x, w') -> w' = w /\ l !! i = Some x.
Proof.
  unfold index. destruct (l !! i) as [y |]; intros Heq.
  - by injection Heq as <- <-.
  - discriminate Heq.
Qed.

Lemma for_each_inv {A B} (f : A -> M B) (P : A -> B -> Prop) (w : World) :
  (forall x y w', f x w = (inr y, w') -> w' = w /\ P x y) ->
  forall l res w', for_each f l w = (inr res, w') -> w' = w /\ Forall2 P l res.
Proof.
  intros Hf. induction l as [| x l IH]; intros res w' Hrun.
  - injection Hrun as <- <-. split; [reflexivity | constructor].
  - cbn [for_each] in Hrun.
    apply bind_inr in Hrun as (y & w1 & Hy & Hrun).
    apply Hf in Hy as [-> Hy].
    apply bind_inr in Hrun as (ys & w2 & Hys & Hrun).
    apply IH in Hys as [-> Hys].
    injection Hrun as <- <-. split; [reflexivity | by constructor].
Qed.

Lemma retrieve_inv {np : Sorting} (self : Retriever) (query : string) (k : Z)
    (w w' : World) (res : list Scored) :
  retrieve self query k w = (inr res, w') ->
  w' = w /\ exists idxs, Forall2 (result_at self query w) idxs res.
Proof.
  unfold retrieve. cbv zeta. intros Hrun.
  apply bind_inr in Hrun as (p & w1 & Hp & Hrun).
  assert (w1 = w) as ->.
  { destruct (argpartition _ _) as [e | p']; cbn in Hp; [discriminate |].
    by injection Hp as _ <-. }
  apply bind_inr in Hrun as (keys & w2 & Hkeys & Hrun).
  apply (for_each_inv _ (fun _ _ => True)) in Hkeys as [-> _].
  2: { intros i x w0 Hi. apply index_inv in Hi as [-> _]. done. }
  apply bind_inr in Hrun as (idxs & w3 & Hidxs & Hrun).
  apply (for_each_inv _ (fun _ _ => True)) in Hidxs as [-> _].
  2: { intros i x w0 Hi. apply index_inv in Hi as [-> _]. done. }
  apply (for_each_inv _ (result_at self query w)) in Hrun as [-> Hres].
  - split; [reflexivity | by exists idxs].
  - intros idx y w0 Hbody.
    apply bind_inr in Hbody as (d & w4 & Hd & Hbody).
    apply index_inv in Hd as [-> Hd].
    apply bind_inr in Hbody as (sim & w5 & Hsim & Hbody).
    apply index_inv in Hsim as [-> Hsim].
    rewrite (bind_pure _ _ _ _ _ (precedent_score_total _ _ _ w)) in Hbody.
    injection Hbody as <- <-. split; [reflexivity |].
    exists sim. by repeat split.
Qed.

(** C2: in every world, [_precedent_score] returns
    0.55 sim + 0.15 recency(year) + 0.20 level_weight + 0.10 overlap(tags, kws)
    plus the stored boost of the document (0 when it has none), with recency
    and overlap as the specification defines them and the boost added as it
    is stored; and every element of a result of [retrieve] carries that score
    for its document and that document's similarity to the query. *)
Theorem retrieve_score_formula {np : Sorting} (self : Retriever) (query : string)
    (k : Z) (w w' : World) (res : list Scored) :
  retrieve self query k w = (inr res, w') ->
  (forall sim d kws,
      exists s, _precedent_score sim d kws w = (inr s, w)
                /\ s == combined_score (loaded_boosts w) sim d (list_to_set kws))
  /\ Forall (fun r =>
               exists idx sim,
                 docs self !! idx = Some (doc r)
                 /\ similarities self query !! idx = Some sim
                 /\ score r ==
                    combined_score (loaded_boosts w) sim (doc r)
                                   (list_to_set (_issue_keywords query))) res.
Proof.
  intros Hrun. split.
  - intros sim d kws. exists (score_in w sim d kws).
    split; [apply precedent_score_total | apply score_in_combined].
  - apply retrieve_inv in Hrun as [_ [idxs Hres]].
    induction Hres as [| idx r idxs res (sim & Hd & Hs & Hsc) _ IH]; constructor.
    + exists idx, sim. split; [exact Hd |]. split; [exact Hs |].
      rewrite Hsc. apply score_in_combined.
    + exact IH.
Qed.

Lemma retrieve_score_formula_witness :
  exists res w',
    retrieve (H := stable) Sample.two_docs "privacy and biometric" 2 Sample.fresh
    = (inr res, w')
    /\ Forall (fun r =>
                 exists idx sim,
                   docs Sample.two_docs !! idx = Some (doc r)
                   /\ similarities Sample.two_docs "privacy and biometric" !! idx
                      = Some sim
                   /\ score r ==
                      combined_score (loaded_boosts Sample.fresh) sim (doc r)
                        (list_to_set (_issue_keywords "privacy and biometric"))) res.
Proof.
  destruct (retrieve (H := stable) Sample.two_docs "privacy and biometric" 2
                     Sample.fresh) as [[e | res] w'] eqn:Hrun.
  - vm_compute in Hrun. discriminate Hrun.
  - exists res, w'. split; [reflexivity |].
    exact (proj2 (retrieve_score_formula (np := stable) Sample.two_docs
                    "privacy and biometric" 2 Sample.fresh w' res Hrun)).
Defined.

(** A boost stored outside [-0.2, 0.2] is added as it is:
    0.275 + 0.09 + 0 + 0.1 + 5. *)
Example score_with_large_boost :
  let w := mkWorld (Stored (JObj (mkJsonObj None None None
                                            (Some {["p1" := 5%Q]}) None)))
                   true ∅ in
  score_in w (1 # 2) Sample.d1 ["privacy"] == 5465 # 1000
  /\ _precedent_score (1 # 2) Sample.d1 ["privacy"] w
     = (inr (score_in w (1 # 2) Sample.d1 ["privacy"]), w).
Proof.
  cbv zeta. split; [vm_compute; reflexivity | apply precedent_score_total].
Qed.

(** *** Asking for more documents than there are *)




(** The empty corpus: nothing is raised and nothing is returned. *)
Example retrieve_empty_corpus :
  retrieve (H := stable) (mkRetriever [] (fun _ => [])) "privacy" 3 Sample.fresh
  = (inr [], Sample.fresh).
Proof. vm_compute. reflexivity. Qed.

(** *** Length and order of the result *)

Lemma kth_in_bounds_nonneg (n : nat) (k : Z) :
  (0 <= k)%Z -> kth_in_bounds (Z.of_nat n) (Z.min k (Z.of_nat n) - 1) = true.
Proof.
  intros Hk. unfold kth_in_bounds.
  destruct n as [| n]; [by rewrite orb_true_l |].
  apply orb_true_iff. right.
  destruct (Z.min k (Z.of_nat (S n)) - 1 <? 0)%Z eqn:Hneg.
  - apply Z.ltb_lt in Hneg. apply andb_true_iff. split.
    + apply Z.leb_le. lia.
    + apply Z.ltb_lt. lia.
  - apply Z.ltb_ge in Hneg. apply andb_true_iff. split.
    + apply Z.leb_le. lia.
    + apply Z.ltb_lt. lia.
Qed.

(** In the typed model, what does hold of the list [retrieve] returns: for
    [k >= 0] it has
    [min(k, N)] elements, no offset of the corpus occurs twice, the elements
    are in non-increasing order of similarity to the query, and no document
    left out is more similar to the query than one that is returned. *)
Lemma retrieve_length_and_order {np : Sorting} {laws : SortingLaws np}
    (self : Retriever) (query : string) (k : Z) (w : World) :
  length (similarities self query) = length (docs self) ->
  (0 <= k)%Z ->
  exists idxs,
    retrieve self query k w = (inr (map (scored_at self query w) idxs), w)
    /\ length idxs = Z.to_nat (Z.min k (Z.of_nat (length (docs self))))
    /\ NoDup idxs
    /\ StronglySorted (fun i j => sim_at self query j <= sim_at self query i) idxs
    /\ (forall i j, i ∈ idxs -> (j < length (docs self))%nat -> j ∉ idxs ->
                    sim_at self query j <= sim_at self query i).
Proof.
  intros Hlen Hk.
  destruct (retrieve_total self query k w Hlen (kth_in_bounds_nonneg _ k Hk))
    as (p & idxs & Hpart & Hp & Hidxs & Hsorted & Hret).
  exists idxs. split; [exact Hret |].
  set (n := length (docs self)) in *.
  set (k' := Z.min k (Z.of_nat n)) in *.
  assert (Hplen : length p = n) by (by rewrite Hp, length_seq).
  assert (Hnd : NoDup p) by (rewrite Hp; apply NoDup_seq).
  assert (Htake : take_slice p k' = take (Z.to_nat k') p).
  { unfold take_slice, clamp_index.
    destruct (k' <? 0)%Z eqn:Hneg; [apply Z.ltb_lt in Hneg; lia |].
    do 2 f_equal. lia. }
  split; [| split; [| split; [exact Hsorted |]]].
  - rewrite Hidxs, GroundingFacts.take_slice_length by lia. lia.
  - rewrite Hidxs, Htake. rewrite <- (take_drop (Z.to_nat k') p) in Hnd.
    by apply NoDup_app in Hnd as [Hnd _].
  - intros i j Hi Hj Hnj. rewrite Hidxs, Htake in Hi, Hnj.
    apply list_elem_of_lookup in Hi as [a Ha].
    apply lookup_take_Some in Ha as [Ha Hak].
    assert (Hjp : j ∈ p) by (rewrite Hp; apply elem_of_seq; lia).
    apply list_elem_of_lookup in Hjp as [b Hb].
    assert (Hbk : (Z.to_nat k' <= b)%nat).
    { destruct (Nat.le_gt_cases (Z.to_nat k') b) as [Hle | Hgt]; [exact Hle |].
      exfalso. apply Hnj. apply list_elem_of_lookup. exists b.
      by rewrite lookup_take_lt. }
    pose proof (argpartition_pivot _ _ p a b i j Hpart) as Hpivot.
    cbv zeta in Hpivot.
    destruct (k' - 1 <? 0)%Z eqn:Hneg; [apply Z.ltb_lt in Hneg; lia |].
    specialize (Hpivot ltac:(lia) ltac:(lia) Ha Hb).
    rewrite !key_opp in Hpivot. unfold sim_at. lra.
Qed.

(** X6: A [kth] that NumPy rejects: with documents in the corpus and
    [k <= -N], [retrieve] raises [ValueError]. *)
Lemma retrieve_negative_k_raises {np : Sorting} {laws : SortingLaws np}
    (self : Retriever) (query : string) (k : Z) (w : World) :
  length (similarities self query) = length (docs self) ->
  docs self <> [] ->
  (k <= - Z.of_nat (length (docs self)))%Z ->
  retrieve self query k w = (inl ValueError, w).
Proof.
  intros Hlen Hne Hk. unfold retrieve. cbv zeta.
  rewrite argpartition_bounds; [reflexivity |].
  rewrite length_map, Hlen. unfold kth_in_bounds.
  destruct (docs self) as [| d ds]; [done |].
  rewrite Z.min_l by lia.
  destruct (k - 1 <? 0)%Z eqn:Hneg; [| apply Z.ltb_ge in Hneg; lia].
  apply orb_false_iff. split.
  - apply Z.eqb_neq. cbn [length]. lia.
  - apply andb_false_iff. left. apply Z.leb_gt. lia.
Qed.

(** C1 at its failing input.  Two documents: p1 with similarity 0.9 and
    authority weight 0, p2 with similarity 0.8, authority weight 1 and a more
    recent year.  [retrieve] returns p1 before p2, in the order of their
    similarities, although the combined score of p1 is 0.635 and that of p2
    is 0.775: the result is not in non-increasing order of score. *)
Theorem retrieve_order_ignores_score :
  let q := "privacy and biometric" in
  let r1 := scored_at Sample.two_docs q Sample.fresh 0 in
  let r2 := scored_at Sample.two_docs q Sample.fresh 1 in
  retrieve (H := stable) Sample.two_docs q 2 Sample.fresh
  = (inr [r1; r2], Sample.fresh)
  /\ doc r1 = Sample.d1 /\ doc r2 = Sample.d2
  /\ score r1 == 635 # 1000 /\ score r2 == 775 # 1000
  /\ ~ sorted_by_score [r1; r2].
Proof.
  cbv zeta.
  split; [vm_compute; reflexivity |].
  split; [reflexivity |]. split; [reflexivity |].
  split; [vm_compute; reflexivity |]. split; [vm_compute; reflexivity |].
  unfold sorted_by_score. intros Hs.
  inversion Hs as [| x xs _ Hall]; subst.
  inversion Hall as [| y ys Hle _]; subst.
  vm_compute in Hle. by apply Hle.
Qed.

(** The same for every implementation of the two NumPy routines: the two
    similarities differ, so the order of the result is fixed. *)
Lemma two_docs_order_any_numpy {np : Sorting} {laws : SortingLaws np} :
  let q := "privacy and biometric" in
  retrieve (H := np) Sample.two_docs q 2 Sample.fresh
  = (inr [scored_at Sample.two_docs q Sample.fresh 0;
          scored_at Sample.two_docs q Sample.fresh 1], Sample.fresh).
Proof.
  cbv zeta.
  destruct (retrieve_total Sample.two_docs "privacy and biometric" 2
              Sample.fresh eq_refl eq_refl)
    as (p & idxs & _ & Hp & Hidxs & Hsorted & Hret).
  assert (Hperm : idxs ≡ₚ [0; 1]%nat).
  { rewrite Hidxs, take_slice_full; [exact Hp |].
    rewrite Hp. cbn. lia. }
  symmetry in Hperm. apply Permutation_length_2_inv in Hperm as [-> | ->].
  - exact Hret.
  - exfalso. inversion Hsorted as [| x xs _ Hall]; subst.
    inversion Hall as [| y ys Hle _]; subst.
    vm_compute in Hle. by apply Hle.
Qed.

End RetrieverFacts.

(** ** More on strings *)
Module TextMore.
Import Text TextFacts MoreSpec.

Lemma lower_ascii_idem (c : ascii) : lower_ascii (lower_ascii c) = lower_ascii c.
Proof.
  destruct c as [[] [] [] [] [] [] [] []]; vm_compute; reflexivity.
Qed.

Lemma lower_idem (s : string) : lower (lower s) = lower s.
Proof.
  induction s as [| c s IH]; [reflexivity |].
  cbn [lower]. by rewrite lower_ascii_idem, IH.
Qed.

Lemma length_lower (s : string) : String.length (lower s) = String.length s.
Proof. induction s as [| c s IH]; [reflexivity |]. cbn. by rewrite IH. Qed.

Lemma insert_sorted_perm (x : string) (l : list string) :
  insert_sorted x l ≡ₚ x :: l.
Proof.
  induction l as [| y l IH]; [reflexivity |].
  cbn [insert_sorted]. destruct (String.leb x y); [reflexivity |].
  rewrite IH. apply Permutation_swap.
Qed.

Lemma sorted_perm (l : list string) : Text.sorted l ≡ₚ l.
Proof.
  unfold Text.sorted. induction l as [| x l IH]; [reflexivity |].
  cbn [foldr]. rewrite insert_sorted_perm. by rewrite IH.
Qed.

Lemma insert_sorted_Sorted (x : string) (l : list string) :
  Sorted str_le l -> Sorted str_le (insert_sorted x l).
Proof.
  induction l as [| y l IH]; intros Hs.
  - repeat constructor.
  - cbn [insert_sorted]. destruct (String.leb x y) eqn:Hxy.
    + constructor; [exact Hs |]. by constructor.
    + assert (Hyx : str_le y x).
      { destruct (String.leb_total x y) as [H | H]; [congruence | exact H]. }
      inversion Hs as [| y' l' Hs' Hhd]; subst.
      constructor; [by apply IH |].
      destruct l as [| z l]; cbn [insert_sorted].
      * by constructor.
      * destruct (String.leb x z); constructor; [exact Hyx |].
        by inversion Hhd.
Qed.

Lemma sorted_Sorted (l : list string) : Sorted str_le (Text.sorted l).
Proof.
  unfold Text.sorted. induction l as [| x l IH]; [constructor |].
  cbn [foldr]. by apply insert_sorted_Sorted.
Qed.

Lemma any_in_spec (terms : list string) (s : string) :
  any_in terms s = true <-> exists t, t ∈ terms /\ contains t s = true.
Proof.
  unfold any_in. rewrite existsb_exists. split.
  - intros (t & Hin & Ht). exists t. split; [by apply list_elem_of_In | exact Ht].
  - intros (t & Hin & Ht). exists t. split; [by apply list_elem_of_In | exact Ht].
Qed.

End TextMore.

(** ** The issue tagger and the two score terms *)
Module TaggerFacts.
Import Text Py Numpy retriever agent Spec MoreSpec PyFacts TextFacts TextMore.

Lemma issue_keywords_NoDup (text : string) : NoDup (_issue_keywords text).
Proof.
  unfold _issue_keywords. cbv zeta. rewrite sorted_perm. apply NoDup_elements.
Qed.

Lemma issue_keywords_elem (text : string) (k : string) :
  k ∈ _issue_keywords text <->
  exists vals, In (k, vals) mapping /\ any_in vals (lower text) = true.
Proof.
  unfold _issue_keywords. cbv zeta.
  rewrite sorted_perm, elem_of_elements, elem_of_list_to_set.
  rewrite list_elem_of_In, in_map_iff. split.
  - intros ([k' vals] & Hk & Hin). cbn in Hk. subst k'.
    apply filter_In in Hin as [Hin Hany]. by exists vals.
  - intros (vals & Hin & Hany). exists (k, vals). split; [reflexivity |].
    apply filter_In. by split.
Qed.

(** X1: [_issue_keywords] returns the tags in ascending order without
    repetition; a tag is returned exactly when it is a key of [mapping]
    one of whose trigger phrases occurs in the lower-cased text; and upper
    and lower case in the text make no difference. *)
Theorem issue_keywords_spec (text : string) :
  Sorted str_le (_issue_keywords text)
  /\ NoDup (_issue_keywords text)
  /\ (forall k, k ∈ _issue_keywords text <->
                exists vals, In (k, vals) mapping /\ any_in vals (lower text) = true)
  /\ _issue_keywords (lower text) = _issue_keywords text.
Proof.
  split; [unfold _issue_keywords; apply sorted_Sorted |].
  split; [apply issue_keywords_NoDup |].
  split; [apply issue_keywords_elem |].
  unfold _issue_keywords. by rewrite lower_idem.
Qed.

Local Open Scope Q_scope.

Lemma Qdiv_nat_le_1 (a b : nat) :
  (a <= b)%nat -> (0 < b)%nat ->
  0 <= inject_Z (Z.of_nat a) / inject_Z (Z.of_nat b) <= 1.
Proof.
  intros Hab Hb.
  assert (Hqb : 0 < inject_Z (Z.of_nat b)).
  { change 0 with (inject_Z 0). rewrite <- Zlt_Qlt. lia. }
  assert (Hqa : 0 <= inject_Z (Z.of_nat a)).
  { change 0 with (inject_Z 0). rewrite <- Zle_Qle. lia. }
  assert (Hle : inject_Z (Z.of_nat a) <= inject_Z (Z.of_nat b)).
  { rewrite <- Zle_Qle. lia. }
  split.
  - apply Qle_shift_div_l; [exact Hqb |]. lra.
  - apply Qle_shift_div_r; [exact Hqb |]. lra.
Qed.

(** X2: The overlap term lies in [0, 1]; it is 0 when there are no query
    tags or none of them is a tag of the document, and 1 when there are query
    tags and all of them are tags of the document. *)
Theorem issue_overlap_range (tags kws : list string) :
  0 <= _issue_overlap tags kws <= 1
  /\ ((forall k, k ∈ kws -> k ∉ tags) -> _issue_overlap tags kws == 0)
  /\ (kws <> [] -> (forall k, k ∈ kws -> k ∈ tags) -> _issue_overlap tags kws == 1).
Proof.
  unfold _issue_overlap. destruct kws as [| kw kws].
  - split; [lra |]. split; [reflexivity | done].
  - set (K := list_to_set (kw :: kws) : gset string).
    set (T := list_to_set tags : gset string).
    assert (Hpos : (0 < size K)%nat).
    { destruct (size K) eqn:Hsz; [| lia]. exfalso.
      apply size_empty_inv in Hsz.
      assert (Hkw : kw ∈ K) by (unfold K; apply elem_of_list_to_set; by left).
      rewrite Hsz in Hkw. by apply not_elem_of_empty in Hkw. }
    assert (Hsub : (size (T ∩ K) <= size K)%nat).
    { apply subseteq_size. apply intersection_subseteq_r. }
    split; [by apply Qdiv_nat_le_1 |]. split.
    + intros Hdis.
      assert (Hempty : T ∩ K = ∅).
      { apply set_eq. intros x. split; [| by intros Hx%not_elem_of_empty].
        intros Hx.
        apply elem_of_intersection in Hx as [HT HK].
        unfold T, K in HT, HK. apply elem_of_list_to_set in HT, HK.
        by destruct (Hdis x HK). }
      rewrite Hempty, size_empty. unfold Qdiv.
      change (inject_Z (Z.of_nat 0)) with 0. apply Qmult_0_l.
    + intros _ Hall.
      assert (Hfull : T ∩ K = K).
      { apply set_eq. intros x. split; [by intros [_ HK]%elem_of_intersection |].
        intros HK.
        apply elem_of_intersection. split; [| exact HK].
        unfold T, K in *. apply elem_of_list_to_set.
        apply Hall. by apply elem_of_list_to_set in HK. }
      rewrite Hfull. unfold Qdiv. apply Qmult_inv_r.
      intros Hz. change 0 with (inject_Z 0) in Hz.
      unfold Qeq in Hz. cbn [Qnum Qden inject_Z] in Hz. lia.
Qed.

(** X3: The recency term lies in [0, 1] and does not decrease with the year;
    it is 1 for a document of the current year or later, 0 for one that is
    twenty or more years old, and falls by 1/20 per year in between. *)
Theorem recency_profile (year year' current_year : Z) :
  0 <= _recency year current_year <= 1
  /\ ((current_year <= year)%Z -> _recency year current_year == 1)
  /\ ((year <= current_year - 20)%Z -> _recency year current_year == 0)
  /\ ((current_year - 20 <= year <= current_year)%Z ->
      _recency year current_year == 1 - inject_Z (current_year - year) / 20)
  /\ ((year <= year')%Z -> _recency year current_year <= _recency year' current_year).
Proof.
  unfold _recency. cbv zeta.
  set (a := Z.max 0 (current_year - year)).
  set (a' := Z.max 0 (current_year - year')).
  assert (Ha : 0 <= inject_Z a).
  { change 0 with (inject_Z 0). rewrite <- Zle_Qle. lia. }
  assert (Ha' : 0 <= inject_Z a').
  { change 0 with (inject_Z 0). rewrite <- Zle_Qle. lia. }
  assert (Hdiv : forall q : Q, q / 20 == q * (1 # 20)) by (intros q; reflexivity).
  split; [| split; [| split; [| split]]].
  - unfold Py.max. set (q := inject_Z a) in *. clearbody q.
    pose proof (Hdiv q).
    destruct (Qlt_le_dec 0 (1 - q / 20)); lra.
  - intros Hy. replace a with 0%Z by lia.
    unfold Py.max.
    destruct (Qlt_le_dec 0 (1 - inject_Z 0 / 20)) as [Hlt | Hge]; [reflexivity |].
    exfalso. vm_compute in Hge. by apply Hge.
  - intros Hy.
    assert (H20 : 20 <= inject_Z a).
    { change 20 with (inject_Z 20). rewrite <- Zle_Qle. lia. }
    unfold Py.max. set (q := inject_Z a) in *. clearbody q.
    pose proof (Hdiv q).
    destruct (Qlt_le_dec 0 (1 - q / 20)); lra.
  - intros [Hlo Hhi]. replace a with (current_year - year)%Z by lia.
    assert (H20 : inject_Z (current_year - year) <= 20).
    { change 20 with (inject_Z 20). rewrite <- Zle_Qle. lia. }
    assert (H0 : 0 <= inject_Z (current_year - year)).
    { change 0 with (inject_Z 0). rewrite <- Zle_Qle. lia. }
    unfold Py.max. set (q := inject_Z (current_year - year)) in *. clearbody q.
    pose proof (Hdiv q).
    destruct (Qlt_le_dec 0 (1 - q / 20)); lra.
  - intros Hy.
    assert (Hle : inject_Z a' <= inject_Z a) by (rewrite <- Zle_Qle; lia).
    unfold Py.max.
    set (q := inject_Z a) in *. set (q' := inject_Z a') in *. clearbody q q'.
    pose proof (Hdiv q). pose proof (Hdiv q').
    destruct (Qlt_le_dec 0 (1 - q / 20)), (Qlt_le_dec 0 (1 - q' / 20)); lra.
Qed.

End TaggerFacts.

(** ** More on the feedback store *)
Module FeedbackMore.
Import Text Py Numpy retriever agent Spec MoreSpec PyFacts FeedbackFacts feedback.

Local Open Scope Q_scope.

(** *** What is written is what is read back *)

(** X9: When the file can be written, the state [record_feedback] returns is
    the state the next [_load] reads: the same three counters, the same notes
    and the same boosts; [get_style_flags] and [get_doc_boosts] then report
    the counters and the boosts of that state. *)
Theorem record_then_load (t : bool) (ids : option (list string)) (notes : string)
    (w : World) :
  writable w = true ->
  exists d d' w',
    record_feedback t ids notes w = (inr d, w')
    /\ _load w' = (inr d', w')
    /\ style_bullets d' = style_bullets d
    /\ style_citations d' = style_citations d
    /\ emphasis_proportionality d' = emphasis_proportionality d
    /\ last_notes d' = last_notes d
    /\ deref w' (doc_boosts d') = deref w' (doc_boosts d)
    /\ get_doc_boosts w' = (inr (deref w' (doc_boosts d)), w')
    /\ get_style_flags w' =
       (inr (mkStyleFlags (style_bullets d) (style_citations d)
                          (emphasis_proportionality d)), w').
Proof.
  intros Hwr.
  set (ids' := default [] ids).
  exists (recorded_data t ids' notes w), (loaded_data (recorded_world t ids' notes w)),
         (recorded_world t ids' notes w).
  split; [apply record_feedback_total |].
  split; [apply load_total |].
  assert (Hfile : feedback_file (recorded_world t ids' notes w) =
                  Stored (JObj (to_json (recorded_data t ids' notes w)
                                  (deref (looped_world (delta_for t) ids'
                                            (doc_boosts (loaded_data w)) w)
                                         (doc_boosts (recorded_data t ids' notes w)))))).
  { unfold recorded_world, saved.
    assert (Hwr1 : writable (looped_world (delta_for t) ids'
                               (doc_boosts (loaded_data w)) w) = true)
      by (destruct (doc_boosts (loaded_data w)); exact Hwr).
    rewrite Hwr1. reflexivity. }
  assert (Hderef : deref (recorded_world t ids' notes w)
                         (doc_boosts (recorded_data t ids' notes w))
                   = deref (looped_world (delta_for t) ids'
                              (doc_boosts (loaded_data w)) w)
                           (doc_boosts (recorded_data t ids' notes w))).
  { unfold recorded_world, saved.
    destruct (writable (looped_world (delta_for t) ids'
                          (doc_boosts (loaded_data w)) w)); [| reflexivity].
    destruct (doc_boosts (recorded_data t ids' notes w)); reflexivity. }
  assert (Hload : loaded_data (recorded_world t ids' notes w) =
                  mkData (style_bullets (recorded_data t ids' notes w))
                         (style_citations (recorded_data t ids' notes w))
                         (emphasis_proportionality (recorded_data t ids' notes w))
                         (OwnDict (deref (recorded_world t ids' notes w)
                                         (doc_boosts (recorded_data t ids' notes w))))
                         (last_notes (recorded_data t ids' notes w))).
  { unfold loaded_data at 1. rewrite Hfile, Hderef. reflexivity. }
  rewrite get_doc_boosts_total, get_style_flags_total.
  unfold loaded_boosts. rewrite Hload.
  repeat split; reflexivity.
Qed.

Lemma record_then_load_witness :
  exists d d' w',
    record_feedback true (Some ["p1"]) "good" (mkWorld Absent true ∅) = (inr d, w')
    /\ _load w' = (inr d', w')
    /\ style_bullets d' = style_bullets d
    /\ style_citations d' = style_citations d
    /\ emphasis_proportionality d' = emphasis_proportionality d
    /\ last_notes d' = last_notes d
    /\ deref w' (doc_boosts d') = deref w' (doc_boosts d)
    /\ get_doc_boosts w' = (inr (deref w' (doc_boosts d)), w')
    /\ get_style_flags w' =
       (inr (mkStyleFlags (style_bullets d) (style_citations d)
                          (emphasis_proportionality d)), w').
Proof.
  apply (record_then_load true (Some ["p1"]) "good" (mkWorld Absent true ∅)).
  reflexivity.
Defined.

(** *** Documents that an event does not name *)

Lemma apply_deltas_other (delta : Q) (ids : list string) (m : gmap string Q)
    (d : string) :
  d ∉ ids -> apply_deltas delta ids m !! d = m !! d.
Proof.
  revert m. induction ids as [| did ids IH]; intros m Hd; [reflexivity |].
  rewrite apply_deltas_cons, IH.
  - apply lookup_insert_ne. intros ->. apply Hd. by left.
  - intros Hin. apply Hd. by right.
Qed.

(** The boosts a [_load] sees after [record_feedback]: those it saw before
    with the deltas applied, or, when nothing could be written over a stored
    dictionary, those it saw before. *)
Lemma loaded_after_record (t : bool) (ids : list string) (notes : string)
    (w : World) :
  loaded_boosts (recorded_world t ids notes w)
  = apply_deltas (delta_for t) ids (loaded_boosts w)
  \/ (writable w = false
      /\ loaded_boosts (recorded_world t ids notes w) = loaded_boosts w).
Proof.
  destruct (writable w) eqn:Hwr.
  - left. by apply recorded_world_writable.
  - unfold recorded_world, saved.
    assert (Hwr1 : writable (looped_world (delta_for t) ids
                               (doc_boosts (loaded_data w)) w) = false)
      by (destruct (doc_boosts (loaded_data w)); exact Hwr).
    rewrite Hwr1.
    unfold loaded_boosts.
    assert (Hdata : loaded_data (looped_world (delta_for t) ids
                                   (doc_boosts (loaded_data w)) w)
                    = loaded_data w).
    { unfold loaded_data. by destruct (doc_boosts _). }
    rewrite Hdata.
    destruct (doc_boosts (loaded_data w)) as [| m] eqn:Href.
    + left. reflexivity.
    + right. split; reflexivity.
Qed.

(** X10: [record_feedback] leaves the boost of every document that is not among
    [used_doc_ids] as it was, whether or not the file can be written; with no
    ids at all, every boost stays as it was. *)
Theorem other_boosts_untouched (t : bool) (ids : option (list string))
    (notes : string) (w : World) (d : string) :
  d ∉ default [] ids ->
  exists data w' m,
    record_feedback t ids notes w = (inr data, w')
    /\ get_doc_boosts w' = (inr m, w')
    /\ m !! d = loaded_boosts w !! d
    /\ deref w' (doc_boosts data) !! d = loaded_boosts w !! d.
Proof.
  intros Hd. set (ids' := default [] ids) in *.
  exists (recorded_data t ids' notes w), (recorded_world t ids' notes w),
         (loaded_boosts (recorded_world t ids' notes w)).
  split; [apply record_feedback_total |].
  split; [apply get_doc_boosts_total |].
  split.
  - destruct (loaded_after_record t ids' notes w) as [-> | [_ ->]].
    + by apply apply_deltas_other.
    + reflexivity.
  - unfold recorded_world, saved.
    assert (Hsame : forall w1 : World,
               deref (if writable w1
                      then mkWorld (Stored (JObj (to_json (recorded_data t ids' notes w)
                                                    (deref w1 (doc_boosts
                                                       (recorded_data t ids' notes w))))))
                                   (writable w1) (default_doc_boosts w1)
                      else w1)
                     (doc_boosts (recorded_data t ids' notes w))
               = deref w1 (doc_boosts (recorded_data t ids' notes w))).
    { intros w1. destruct (writable w1); [| reflexivity].
      by destruct (doc_boosts _). }
    rewrite Hsame.
    change (doc_boosts (recorded_data t ids' notes w))
      with (looped_ref (delta_for t) ids' (doc_boosts (loaded_data w))).
    rewrite looped_deref. by apply apply_deltas_other.
Qed.

Lemma other_boosts_untouched_witness :
  exists data w' m,
    record_feedback true (Some ["p1"; "p3"]) "" (mkWorld Absent false ∅) = (inr data, w')
    /\ get_doc_boosts w' = (inr m, w')
    /\ m !! "p2" = loaded_boosts (mkWorld Absent false ∅) !! "p2"
    /\ deref w' (doc_boosts data) !! "p2" = loaded_boosts (mkWorld Absent false ∅) !! "p2".
Proof.
  apply (other_boosts_untouched true (Some ["p1"; "p3"]) "" (mkWorld Absent false ∅) "p2").
  cbn [default]. intros Hin.
  apply list_elem_of_In in Hin. simpl in Hin.
  destruct Hin as [H | [H | []]]; discriminate H.
Defined.

(** *** A property of every boost that feedback produces *)

Lemma apply_deltas_all (P : Q -> Prop) (delta : Q) (ids : list string)
    (m : gmap string Q) :
  (forall c, P (bump delta c)) ->
  (forall did q, m !! did = Some q -> P q) ->
  forall did q, apply_deltas delta ids m !! did = Some q -> P q.
Proof.
  intros Hbump. revert m. induction ids as [| i ids IH]; intros m Hm; [exact Hm |].
  rewrite apply_deltas_cons. apply IH.
  intros did q Hq. destruct (decide (i = did)) as [-> | Hne].
  - rewrite lookup_insert_eq in Hq. injection Hq as <-. apply Hbump.
  - rewrite lookup_insert_ne in Hq by done. by apply (Hm did).
Qed.

Lemma recorded_all_boosts (P : Q -> Prop) (t : bool) (ids : list string)
    (notes : string) (w : World) :
  (forall delta c, P (bump delta c)) ->
  all_boosts P w -> all_boosts P (recorded_world t ids notes w).
Proof.
  intros Hbump [Hfile Hdef].
  set (delta := delta_for t).
  assert (Hloaded : forall did q, loaded_boosts w !! did = Some q -> P q).
  { unfold loaded_boosts, loaded_data.
    destruct (feedback_file w) as [| | | [o |]]; try exact Hdef.
    unfold setdefaults. cbn [doc_boosts].
    destruct (j_doc_boosts o) as [m |]; [exact Hfile | exact Hdef]. }
  unfold recorded_world. fold delta.
  set (r := doc_boosts (loaded_data w)) in *.
  set (w1 := looped_world delta ids r w).
  assert (Hdef1 : forall did q, default_doc_boosts w1 !! did = Some q -> P q).
  { unfold w1. destruct r; cbn [looped_world default_doc_boosts]; [| exact Hdef].
    by apply apply_deltas_all. }
  assert (Hfile1 : feedback_file w1 = feedback_file w) by (unfold w1; by destruct r).
  assert (Hnew : forall did q,
             deref w1 (looped_ref delta ids r) !! did = Some q -> P q).
  { unfold w1. rewrite looped_deref. apply apply_deltas_all; [apply Hbump |].
    exact Hloaded. }
  unfold saved. destruct (writable w1).
  - split; [| exact Hdef1]. cbn. exact Hnew.
  - split; [| exact Hdef1]. rewrite Hfile1. exact Hfile.
Qed.

(** Every boost in a reachable world has a property that [bump] always
    establishes. *)
Lemma reachable_all_boosts (P : Q -> Prop) (w : World) :
  (forall delta c, P (bump delta c)) -> reachable w -> all_boosts P w.
Proof.
  intros Hbump.
  induction 1 as [wr | w t ids notes Hr IH | w wr Hr IH | w f Hr IH Hbad].
  - split; [exact I |]. intros did q Hq. cbn [default_doc_boosts] in Hq.
    by rewrite lookup_empty in Hq.
  - rewrite record_feedback_total. cbn [snd]. by apply recorded_all_boosts.
  - exact IH.
  - split; [| apply IH]. cbn [feedback_file].
    destruct Hbad as [-> | [-> | [-> | ->]]]; exact I.
Qed.

Lemma loaded_all_boosts (P : Q -> Prop) (w : World) :
  all_boosts P w -> forall did q, loaded_boosts w !! did = Some q -> P q.
Proof.
  intros [Hfile Hdef]. unfold loaded_boosts, loaded_data.
  destruct (feedback_file w) as [| | | [o |]]; try exact Hdef.
  unfold setdefaults. cbn [doc_boosts].
  destruct (j_doc_boosts o) as [m |]; [exact Hfile | exact Hdef].
Qed.

Lemma bump_four_decimals (delta c : Q) : four_decimals (bump delta c).
Proof.
  unfold bump, Py.round, four_decimals. cbv zeta.
  set (r := round_half_even _). exists r. rewrite Qred_correct. clearbody r.
  change (inject_Z (10 ^ Z.of_nat 4)) with (10000 # 1).
  unfold Qeq, Qdiv, Qmult, Qinv, inject_Z. simpl. lia.
Qed.

(** X11: Every boost that the ranker can read in a reachable world has at most
    four decimals. *)
Theorem stored_boosts_four_decimals (w : World) (did : string) (q : Q) :
  reachable w ->
  forall m, get_doc_boosts w = (inr m, w) -> m !! did = Some q -> four_decimals q.
Proof.
  intros Hr m Hm Hq. rewrite get_doc_boosts_total in Hm. injection Hm as <-.
  eapply (loaded_all_boosts four_decimals w); [| exact Hq].
  apply reachable_all_boosts; [| exact Hr].
  intros delta c. apply bump_four_decimals.
Qed.

Lemma stored_boosts_four_decimals_witness :
  let w := snd (record_feedback true (Some ["p1"]) "" (mkWorld Absent true ∅)) in
  reachable w
  /\ get_doc_boosts w = (inr (loaded_boosts w), w)
  /\ loaded_boosts w !! "p1" = Some (1 # 50)
  /\ four_decimals (1 # 50).
Proof.
  cbv zeta.
  assert (Hr : reachable (snd (record_feedback true (Some ["p1"]) ""
                                 (mkWorld Absent true ∅))))
    by apply reach_feedback, reach_start.
  assert (Hq : loaded_boosts (snd (record_feedback true (Some ["p1"]) ""
                                     (mkWorld Absent true ∅))) !! "p1"
               = Some (1 # 50)) by (vm_compute; reflexivity).
  split; [exact Hr |]. split; [apply get_doc_boosts_total |]. split; [exact Hq |].
  exact (stored_boosts_four_decimals _ "p1" (1 # 50) Hr _
           (get_doc_boosts_total _) Hq).
Defined.

(** *** Rounding does not disturb the boosts of a reachable world *)

Lemma round4_four_decimals (x : Q) : four_decimals x -> Py.round x 4 == x.
Proof.
  intros [z Hz]. rewrite (round_proper x (z # 10000) 4 Hz), Hz. apply round4_exact.
Qed.

Lemma clip_four_decimals (y : Q) : four_decimals y -> four_decimals (clip y).
Proof.
  intros Hy. unfold clip.
  destruct (Q.min_spec (2 # 10) y) as [[_ Hmin] | [_ Hmin]];
    destruct (Q.max_spec (- (2 # 10)) (Qmin (2 # 10) y)) as [[_ Hmax] | [_ Hmax]].
  - exists 2000%Z. rewrite Hmax, Hmin. reflexivity.
  - exists (-2000)%Z. rewrite Hmax. reflexivity.
  - destruct Hy as [z Hz]. exists z. by rewrite Hmax, Hmin.
  - exists (-2000)%Z. rewrite Hmax. reflexivity.
Qed.

Lemma bump_exact (t : bool) (c : Q) :
  four_decimals c -> bump (delta_for t) c == clip (c + delta_for t).
Proof.
  intros [z Hz]. rewrite bump_clip. apply round4_four_decimals, clip_four_decimals.
  exists (z + (if t then 200 else -200))%Z. rewrite Hz.
  unfold delta_for. destruct t; unfold Qeq, Qplus, Qopp; simpl; lia.
Qed.

Lemma boost_of_four_decimals (w : World) (d : string) :
  reachable w -> four_decimals (boost_of (loaded_boosts w) d).
Proof.
  intros Hr. unfold boost_of.
  destruct (loaded_boosts w !! d) as [q |] eqn:Hq; [| by exists 0%Z].
  eapply (loaded_all_boosts four_decimals w); [| exact Hq].
  apply reachable_all_boosts; [| exact Hr].
  intros delta c. apply bump_four_decimals.
Qed.

Lemma boost_of_in_range (w : World) (d : string) :
  reachable w -> boost_in_range (boost_of (loaded_boosts w) d).
Proof.
  intros Hr. unfold boost_of.
  destruct (loaded_boosts w !! d) as [q |] eqn:Hq.
  - destruct (loaded_in_range w (reachable_in_range w Hr)) as (_ & _ & _ & Hm).
    by apply (Hm d).
  - unfold boost_in_range. cbn. lra.
Qed.

(** *** Feedback and the score *)

Lemma score_in_base (w : World) (sim : Q) (d : Doc) (kws : list string) :
  score_in w sim d kws = (base_score sim d kws + boost_of (loaded_boosts w) (id d))%Q.
Proof. reflexivity. Qed.

(** X7: In a reachable world the score of a document differs from its score
    without feedback by at most 0.2. *)
Theorem score_within_boost_range (w : World) (sim : Q) (d : Doc)
    (kws : list string) :
  reachable w ->
  exists s, _precedent_score sim d kws w = (inr s, w)
            /\ base_score sim d kws - (2 # 10) <= s <= base_score sim d kws + (2 # 10).
Proof.
  intros Hr. exists (score_in w sim d kws).
  split; [apply RetrieverFacts.precedent_score_total |].
  rewrite score_in_base.
  pose proof (boost_of_in_range w (id d) Hr) as [Hlo Hhi].
  set (b := boost_of (loaded_boosts w) (id d)) in *.
  set (base := base_score sim d kws). clearbody b base. lra.
Qed.

Lemma score_within_boost_range_witness :
  exists s, _precedent_score (1 # 2) Sample.d1 ["privacy"] Sample.fresh
            = (inr s, Sample.fresh)
            /\ base_score (1 # 2) Sample.d1 ["privacy"] - (2 # 10) <= s
               <= base_score (1 # 2) Sample.d1 ["privacy"] + (2 # 10).
Proof.
  apply (score_within_boost_range Sample.fresh (1 # 2) Sample.d1 ["privacy"]).
  apply reach_start.
Defined.

Lemma clip_below (y : Q) : y <= - (2 # 10) -> clip y == - (2 # 10).
Proof.
  intros Hl. unfold clip.
  rewrite (Q.min_r (2 # 10) y) by lra. by rewrite Q.max_l.
Qed.

Lemma bump_direction (t : bool) (c : Q) :
  four_decimals c -> boost_in_range c ->
  if t then c <= bump (delta_for t) c else bump (delta_for t) c <= c.
Proof.
  intros Hfd [Hlo Hhi]. pose proof (bump_exact t c Hfd) as Hb.
  destruct t; cbn [delta_for] in Hb |- *; rewrite Hb.
  - destruct (Qlt_le_dec (c + (2 # 100)) (2 # 10)).
    + rewrite clip_inside; lra.
    + rewrite clip_above; lra.
  - destruct (Qlt_le_dec (- (2 # 10)) (c + - (2 # 100))).
    + rewrite clip_inside; lra.
    + rewrite clip_below; lra.
Qed.

Lemma iter_bump_direction (t : bool) (n : nat) (c : Q) :
  four_decimals c -> boost_in_range c ->
  four_decimals (Nat.iter n (bump (delta_for t)) c)
  /\ boost_in_range (Nat.iter n (bump (delta_for t)) c)
  /\ if t then c <= Nat.iter n (bump (delta_for t)) c
     else Nat.iter n (bump (delta_for t)) c <= c.
Proof.
  intros Hfd Hin. induction n as [| n (Hfn & Hinn & Hdir)].
  - change (Nat.iter 0 (bump (delta_for t)) c) with c.
    split; [exact Hfd |]. split; [exact Hin |]. destruct t; lra.
  - rewrite Nat.iter_succ. split; [apply bump_four_decimals |].
    split; [apply bump_in_range |].
    pose proof (bump_direction t _ Hfn Hinn) as Hstep.
    set (x := Nat.iter n (bump (delta_for t)) c) in *.
    set (y := bump (delta_for t) x) in *. clearbody x y.
    destruct t; lra.
Qed.

Lemma occurrences_absent (d : string) (l : list string) :
  d ∉ l -> occurrences d l = 0%nat.
Proof.
  unfold occurrences. induction l as [| i l IH]; intros Hnot; [reflexivity |].
  apply not_elem_of_cons in Hnot as [Hne Hnot]. cbn [List.filter].
  destruct (String.eqb_spec d i) as [Heq | _]; [congruence | by apply IH].
Qed.

(** X8: In a reachable world a feedback event never moves a score the
    wrong way: after thumbs up no document scores lower than before, after
    thumbs down none scores higher, whichever ids the event names, however
    often, and whether or not the file can be written; and the score of a
    document that the event does not name stays as it was. *)
Theorem feedback_direction (w : World) (t : bool) (ids : option (list string))
    (notes : string) (sim : Q) (d : Doc) (kws : list string) :
  reachable w ->
  exists data w' s s',
    record_feedback t ids notes w = (inr data, w')
    /\ _precedent_score sim d kws w = (inr s, w)
    /\ _precedent_score sim d kws w' = (inr s', w')
    /\ (if t then s <= s' else s' <= s)
    /\ (id d ∉ default [] ids -> s' = s).
Proof.
  intros Hr. set (ids' := default [] ids).
  exists (recorded_data t ids' notes w), (recorded_world t ids' notes w),
         (score_in w sim d kws), (score_in (recorded_world t ids' notes w) sim d kws).
  split; [apply record_feedback_total |].
  split; [apply RetrieverFacts.precedent_score_total |].
  split; [apply RetrieverFacts.precedent_score_total |].
  rewrite !score_in_base.
  destruct (iter_bump_direction t (occurrences (id d) ids')
              (boost_of (loaded_boosts w) (id d))
              (boost_of_four_decimals w (id d) Hr) (boost_of_in_range w (id d) Hr))
    as (_ & _ & Hdir).
  destruct (loaded_after_record t ids' notes w) as [-> | [_ ->]].
  - rewrite boost_of_apply_deltas. split.
    + set (b := boost_of (loaded_boosts w) (id d)) in *.
      set (b' := Nat.iter _ _ b) in *. set (base := base_score sim d kws).
      clearbody b b' base. destruct t; lra.
    + intros Hnot. by rewrite (occurrences_absent _ _ Hnot).
  - split; [| reflexivity].
    set (s := (base_score sim d kws + boost_of (loaded_boosts w) (id d))%Q).
    clearbody s. destruct t; lra.
Qed.

Lemma feedback_direction_witness :
  exists data w' s s',
    record_feedback true (Some ["p2"; "p1"; "p1"]) "" Sample.fresh = (inr data, w')
    /\ _precedent_score (1 # 2) Sample.d1 ["privacy"] Sample.fresh
       = (inr s, Sample.fresh)
    /\ _precedent_score (1 # 2) Sample.d1 ["privacy"] w' = (inr s', w')
    /\ s <= s'
    /\ (id Sample.d1 ∉ ["p2"; "p1"; "p1"] -> s' = s).
Proof.
  apply (feedback_direction Sample.fresh true (Some ["p2"; "p1"; "p1"]) ""
           (1 # 2) Sample.d1 ["privacy"]).
  apply reach_start.
Defined.

(** *** The style counters *)

Local Open Scope Z_scope.

Lemma loaded_citations_kept (w : World) :
  citations_kept w ->
  1 <= style_citations (loaded_data w)
  /\ 1 <= emphasis_proportionality (loaded_data w).
Proof.
  unfold citations_kept, loaded_data.
  destruct (feedback_file w) as [| | | [o |]]; try (intros _; cbn; lia).
  intros [Hc He]. unfold setdefaults. cbn [style_citations emphasis_proportionality].
  destruct (j_style_citations o), (j_emphasis_proportionality o);
    cbn in Hc, He |- *; lia.
Qed.

Lemma reachable_citations_kept (w : World) : reachable w -> citations_kept w.
Proof.
  induction 1 as [wr | w t ids notes Hr IH | w wr Hr IH | w f Hr IH Hbad].
  - exact I.
  - rewrite record_feedback_total. cbn [snd].
    destruct (loaded_citations_kept w IH) as [Hc He].
    set (ids' := default [] ids).
    unfold recorded_world, saved.
    set (w1 := looped_world (delta_for t) ids' (doc_boosts (loaded_data w)) w).
    assert (Hfile : feedback_file w1 = feedback_file w)
      by (unfold w1; by destruct (doc_boosts (loaded_data w))).
    destruct (writable w1).
    + unfold citations_kept, recorded_data.
      cbn [feedback_file to_json j_style_citations j_emphasis_proportionality
           style_citations emphasis_proportionality option_Forall].
      destruct t; lia.
    + unfold citations_kept. rewrite Hfile. exact IH.
  - exact IH.
  - unfold citations_kept. cbn [feedback_file].
    by destruct Hbad as [-> | [-> | [-> | ->]]].
Qed.

(** X12: In a reachable world no feedback event lowers a style counter: thumbs
    up leaves [style_bullets] alone and raises the other two up to 2, thumbs
    down does the opposite; and [style_citations] and
    [emphasis_proportionality], which start at 1, are never below 1. *)
Theorem style_counters_only_grow (w : World) (t : bool)
    (ids : option (list string)) (notes : string) :
  reachable w ->
  exists d0 d w',
    _load w = (inr d0, w)
    /\ record_feedback t ids notes w = (inr d, w')
    /\ style_bullets d0 <= style_bullets d
    /\ style_citations d0 <= style_citations d
    /\ emphasis_proportionality d0 <= emphasis_proportionality d
    /\ (if t
        then style_bullets d = style_bullets d0
             /\ style_citations d = Z.min 2 (style_citations d0 + 1)
             /\ emphasis_proportionality d = Z.min 2 (emphasis_proportionality d0 + 1)
        else style_bullets d = Z.min 2 (style_bullets d0 + 1)
             /\ style_citations d = style_citations d0
             /\ emphasis_proportionality d = emphasis_proportionality d0)
    /\ 1 <= style_citations d
    /\ 1 <= emphasis_proportionality d.
Proof.
  intros Hr.
  exists (loaded_data w), (recorded_data t (default [] ids) notes w),
         (recorded_world t (default [] ids) notes w).
  split; [apply load_total |]. split; [apply record_feedback_total |].
  destruct (loaded_in_range w (reachable_in_range w Hr)) as (Hb & Hc & He & _).
  destruct (loaded_citations_kept w (reachable_citations_kept w Hr)) as [Hc1 He1].
  unfold counter_in_range in Hb, Hc, He.
  unfold recorded_data. cbn [style_bullets style_citations emphasis_proportionality].
  destruct t; repeat split; lia.
Qed.

Lemma style_counters_only_grow_witness :
  exists d0 d w',
    _load Sample.fresh = (inr d0, Sample.fresh)
    /\ record_feedback false None "" Sample.fresh = (inr d, w')
    /\ style_bullets d0 <= style_bullets d
    /\ style_citations d0 <= style_citations d
    /\ emphasis_proportionality d0 <= emphasis_proportionality d
    /\ (style_bullets d = Z.min 2 (style_bullets d0 + 1)
        /\ style_citations d = style_citations d0
        /\ emphasis_proportionality d = emphasis_proportionality d0)
    /\ 1 <= style_citations d
    /\ 1 <= emphasis_proportionality d.
Proof.
  apply (style_counters_only_grow Sample.fresh false None "").
  apply reach_start.
Defined.

(** X13: In a reachable world the style prefix of a draft always ends with the
    instruction to cite sources and the instruction to emphasise
    proportionality, whatever the style preference: feedback cannot switch
    them off, and the fallback "Be concise." is never used. *)
Theorem prefix_always_cites (w : World) (style_preference : option string) :
  reachable w ->
  exists fb parts,
    get_style_flags w = (inr fb, w)
    /\ style_prefix fb style_preference =
       String.concat " " (parts ++ ["Cite sources by title and year.";
                                    "Emphasize proportionality steps explicitly."]).
Proof.
  intros Hr.
  destruct (loaded_citations_kept w (reachable_citations_kept w Hr)) as [Hc He].
  exists (mkStyleFlags (style_bullets (loaded_data w))
                       (style_citations (loaded_data w))
                       (emphasis_proportionality (loaded_data w))).
  rewrite get_style_flags_total.
  unfold style_prefix. cbv zeta.
  cbn [flag_style_bullets flag_style_citations flag_emphasis_proportionality].
  apply Z.leb_le in Hc, He. rewrite Hc, He.
  match goal with
  | |- exists _, _ /\ match (?X ++ _) ++ _ with _ => _ end = _ =>
      exists X; split; [reflexivity |]; generalize X; intros parts
  end.
  rewrite <- app_assoc. cbn [app].
  destruct parts; reflexivity.
Qed.

Lemma prefix_always_cites_witness :
  exists fb parts,
    get_style_flags Sample.fresh = (inr fb, Sample.fresh)
    /\ style_prefix fb (Some "prose") =
       String.concat " " (parts ++ ["Cite sources by title and year.";
                                    "Emphasize proportionality steps explicitly."]).
Proof.
  apply (prefix_always_cites Sample.fresh (Some "prose")). apply reach_start.
Defined.

End FeedbackMore.

(** ** More on the precedent ranker *)
Module RetrieverMore.
Import Text Py Numpy feedback retriever Spec MoreSpec PyFacts FeedbackFacts
       NumpyFacts RetrieverFacts.

Local Open Scope Q_scope.

Lemma bind_reads_nothing {A B} (m : M A) (f : A -> M B) (r : Exn + A) :
  (forall w, m w = (r, w)) ->
  forall w, (m ≫= f) w = match r with
                         | inl e => (inl e, w)
                         | inr a => f a w
                         end.
Proof. intros Hm w. unfold mbind, M_bind. rewrite Hm. by destruct r. Qed.

Lemma index_reads_nothing {A} (l : list A) (i : nat) (w : World) :
  index l i w = (match l !! i with
                 | Some x => inr x
                 | None => inl IndexError
                 end, w).
Proof. unfold index. by destruct (l !! i). Qed.

Lemma bind_index {A B} (l : list A) (i : nat) (f : A -> M B) (w : World) :
  (index l i ≫= f) w = match l !! i with
                       | Some x => f x w
                       | None => (inl IndexError, w)
                       end.
Proof.
  rewrite (bind_reads_nothing _ _ _ (index_reads_nothing l i)).
  by destruct (l !! i).
Qed.

Lemma for_each_reads_nothing {A B} (f : A -> M B) (l : list A) :
  (forall x, exists r, forall w, f x w = (r, w)) ->
  exists r, forall w, for_each f l w = (r, w).
Proof.
  intros Hf. induction l as [| x l [rs IH]].
  - by exists (inr []).
  - destruct (Hf x) as [r Hr]. cbn [for_each].
    destruct r as [e | y].
    + exists (inl e). intros w. by rewrite (bind_reads_nothing _ _ _ Hr).
    + destruct rs as [e | ys].
      * exists (inl e). intros w. rewrite (bind_reads_nothing _ _ _ Hr).
        by rewrite (bind_reads_nothing _ _ _ IH).
      * exists (inr (y :: ys)). intros w. rewrite (bind_reads_nothing _ _ _ Hr).
        by rewrite (bind_reads_nothing _ _ _ IH).
Qed.

Lemma scoring_loop (self : Retriever) (query : string) (idxs : list nat) :
  exists sel : Exn + list (Doc * Q),
    match sel with
    | inl e => e = IndexError
    | inr l =>
        Forall2 (fun idx p => docs self !! idx = Some p.1
                              /\ similarities self query !! idx = Some p.2) idxs l
    end
    /\ forall w,
        for_each (fun idx =>
                    d ← index (docs self) idx;
                    sim ← index (similarities self query) idx;
                    sc ← _precedent_score sim d (_issue_keywords query);
                    mret (mkScored sc d)) idxs w
        = match sel with
          | inl e => (inl e, w)
          | inr l =>
              (inr (map (fun p => mkScored
                                    (score_in w p.2 p.1 (_issue_keywords query))
                                    p.1) l), w)
          end.
Proof.
  set (body := fun idx : nat =>
                 d ← index (docs self) idx;
                 sim ← index (similarities self query) idx;
                 sc ← _precedent_score sim d (_issue_keywords query);
                 mret (mkScored sc d)).
  assert (Hbody : forall idx w,
    body idx w
    = match docs self !! idx, similarities self query !! idx with
      | Some d, Some sim =>
          (inr (mkScored (score_in w sim d (_issue_keywords query)) d), w)
      | _, _ => (inl IndexError, w)
      end).
  { intros idx w. unfold body. rewrite bind_index.
    destruct (docs self !! idx) as [d |]; [| reflexivity].
    rewrite bind_index.
    destruct (similarities self query !! idx) as [sim |]; [| reflexivity].
    by rewrite (bind_pure _ _ _ _ _ (precedent_score_total _ _ _ w)). }
  clearbody body.
  induction idxs as [| idx idxs (sel & Hsel & IH)].
  - exists (inr []). split; [constructor | done].
  - cbn [for_each].
    destruct (docs self !! idx) as [d |] eqn:Hd.
    2: { exists (inl IndexError). split; [done |]. intros w.
         unfold mbind at 1, M_bind at 1. by rewrite Hbody, Hd. }
    destruct (similarities self query !! idx) as [sim |] eqn:Hs.
    2: { exists (inl IndexError). split; [done |]. intros w.
         unfold mbind at 1, M_bind at 1. by rewrite Hbody, Hd, Hs. }
    destruct sel as [e | l].
    + exists (inl e). split; [exact Hsel |]. intros w.
      unfold mbind at 1, M_bind at 1. rewrite Hbody, Hd, Hs.
      unfold mbind at 1, M_bind at 1. by rewrite IH.
    + exists (inr ((d, sim) :: l)). split; [by constructor |]. intros w.
      unfold mbind at 1, M_bind at 1. rewrite Hbody, Hd, Hs.
      unfold mbind at 1, M_bind at 1. by rewrite IH.
Qed.

(** The outcome of [retrieve] is either an exception or a list of
    documents with their similarities, fixed by the corpus, the query and [k]
    alone; the world enters only through the score attached to each element,
    and is left as it was. *)
Lemma retrieve_factors {np : Sorting}
    (self : Retriever) (query : string) (k : Z) :
  exists sel : Exn + list (Doc * Q),
    match sel with
    | inl e => True
    | inr l =>
        Forall (fun p => exists idx,
                   docs self !! idx = Some p.1
                   /\ similarities self query !! idx = Some p.2) l
    end
    /\ forall w,
        retrieve self query k w
        = match sel with
          | inl e => (inl e, w)
          | inr l =>
              (inr (map (fun p => mkScored
                                    (score_in w p.2 p.1 (_issue_keywords query))
                                    p.1) l), w)
          end.
Proof.
  unfold retrieve. cbv zeta.
  set (neg := map Qopp (similarities self query)).
  set (k' := Z.min k (Z.of_nat (length (docs self)))).
  destruct (argpartition neg (k' - 1)) as [e | part].
  { exists (inl e). split; [exact I | done]. }
  set (idxs1 := take_slice part k').
  destruct (for_each_reads_nothing (index neg) idxs1) as [rkeys Hkeys].
  { intros i. eexists. intros w. apply index_reads_nothing. }
  destruct rkeys as [e | keys].
  { exists (inl e). split; [exact I |]. intros w.
    unfold mbind at 1, M_bind at 1. cbn [lift_exn mret M_ret].
    by rewrite (bind_reads_nothing _ _ _ Hkeys). }
  destruct (for_each_reads_nothing (index idxs1) (argsort keys)) as [ridxs Hidxs].
  { intros i. eexists. intros w. apply index_reads_nothing. }
  destruct ridxs as [e | idxs].
  { exists (inl e). split; [exact I |]. intros w.
    unfold mbind at 1, M_bind at 1. cbn [lift_exn mret M_ret].
    rewrite (bind_reads_nothing _ _ _ Hkeys).
    by rewrite (bind_reads_nothing _ _ _ Hidxs). }
  destruct (scoring_loop self query idxs) as (sel & Hsel & Hloop).
  exists sel. split.
  - destruct sel as [e | l]; [exact I |].
    clear Hloop Hidxs. induction Hsel as [| idx p idxs' l [Hd Hs] _ IH]; constructor.
    + by exists idx.
    + exact IH.
  - intros w.
    unfold mbind at 1, M_bind at 1. cbn [lift_exn mret M_ret].
    rewrite (bind_reads_nothing _ _ _ Hkeys).
    rewrite (bind_reads_nothing _ _ _ Hidxs).
    apply Hloop.
Qed.

Lemma retrieve_negative_k_raises_witness :
  retrieve (H := stable) Sample.two_docs "privacy and biometric" (-2) Sample.fresh
  = (inl ValueError, Sample.fresh).
Proof.
  apply (retrieve_negative_k_raises (np := stable) (laws := stable_laws)
           Sample.two_docs "privacy and biometric" (-2) Sample.fresh).
  - reflexivity.
  - discriminate.
  - simpl. lia.
Defined.

End RetrieverMore.

(** ** More on the agent *)
Module AgentMore.
Import Text Py Numpy feedback retriever llm agent Spec MoreSpec TextFacts PlanFacts
       PyFacts GroundingFacts FeedbackFacts NumpyFacts RetrieverFacts TextMore
       TaggerFacts FeedbackMore RetrieverMore.

(** *** Plans *)

Lemma mem_iff (t : string) (a b : list string) :
  (t ∈ a <-> t ∈ b) -> mem t a = mem t b.
Proof.
  intros Hab. destruct (mem t b) eqn:Hb.
  - apply mem_spec. apply Hab. by apply mem_spec.
  - destruct (mem t a) eqn:Ha; [| reflexivity].
    apply mem_spec, Hab, mem_spec in Ha. congruence.
Qed.

(** X15: The plan for any list of issue tags: the legality step, the three
    proportionality steps when one of "proportionality", "privacy",
    "biometric", "surveillance" is a tag, the steps for religion, expression,
    trade and equality that apply, and the draft step.  No step is repeated,
    so the de-duplication loop changes nothing; the plan has between two and
    nine steps; and it depends only on which of the eight trigger tags are
    present, not on their order, their number or any other tag. *)
Theorem plan_steps_by_membership (issues issues' : list string) :
  plan_steps issues =
    [first_step]
    ++ (if (mem "proportionality" issues || mem "privacy" issues
            || mem "biometric" issues || mem "surveillance" issues)%bool
        then [suitability_step; necessity_step; balancing_step] else [])
    ++ conditional_steps issues ++ [last_step]
  /\ NoDup (plan_steps issues)
  /\ (2 <= length (plan_steps issues) <= 9)%nat
  /\ ((forall t,
          t ∈ ["proportionality"; "privacy"; "biometric"; "surveillance";
               "religion"; "expression"; "trade"; "equality"] ->
          (t ∈ issues <-> t ∈ issues')) ->
      plan_steps issues = plan_steps issues').
Proof.
  split; [| split; [| split]].
  - rewrite plan_steps_raw. unfold raw_steps, conditional_steps.
    destruct (mem "proportionality" issues || mem "privacy" issues
              || mem "biometric" issues || mem "surveillance" issues)%bool;
      destruct (mem "religion" issues), (mem "expression" issues),
        (mem "trade" issues), (mem "equality" issues); reflexivity.
  - rewrite plan_steps_raw. apply raw_steps_NoDup.
  - rewrite plan_steps_raw. unfold raw_steps.
    destruct (mem "proportionality" issues || mem "privacy" issues
              || mem "biometric" issues || mem "surveillance" issues)%bool;
      destruct (mem "religion" issues), (mem "expression" issues),
        (mem "trade" issues), (mem "equality" issues); cbn; lia.
  - intros Hsame. rewrite !plan_steps_raw. unfold raw_steps.
    rewrite (mem_iff "proportionality" issues issues'),
      (mem_iff "privacy" issues issues'), (mem_iff "biometric" issues issues'),
      (mem_iff "surveillance" issues issues'), (mem_iff "religion" issues issues'),
      (mem_iff "expression" issues issues'), (mem_iff "trade" issues issues'),
      (mem_iff "equality" issues issues');
      [reflexivity | apply Hsame; apply list_elem_of_In; simpl; tauto ..].
Qed.

(** *** Issue labels *)

Lemma List_filter_sublist {A} (P : A -> bool) (l : list A) :
  List.filter P l `sublist_of` l.
Proof.
  induction l as [| x l IH]; [constructor |].
  cbn [List.filter]. destruct (P x).
  - by apply sublist_skip.
  - by apply sublist_cons.
Qed.

Lemma sublist_keeps_NoDup {A} (l k : list A) :
  l `sublist_of` k -> NoDup k -> NoDup l.
Proof.
  induction 1 as [| x l1 l2 Hsub IH | x l1 l2 Hsub IH]; intros Hnd.
  - constructor.
  - apply NoDup_cons in Hnd as [Hx Hnd]. apply NoDup_cons. split.
    + intros Hin. apply Hx.
      by apply (elem_of_submseteq _ _ _ Hin), sublist_submseteq.
    + by apply IH.
  - apply NoDup_cons in Hnd as [_ Hnd]. by apply IH.
Qed.

Lemma labels_distinct : NoDup (map label_of priority).
Proof. apply (bool_decide_unpack _). vm_compute. reflexivity. Qed.

Lemma priority_distinct : NoDup priority.
Proof. apply (bool_decide_unpack _). vm_compute. reflexivity. Qed.

Lemma priority_labelled :
  Forall (fun k => (k, label_of k) ∈ label_map) priority.
Proof.
  apply (bool_decide_unpack _). vm_compute. reflexivity.
Qed.

Lemma mapping_keys_in_priority :
  Forall (fun kv => fst kv ∈ priority) mapping.
Proof.
  apply (bool_decide_unpack _). vm_compute. reflexivity.
Qed.

Lemma detected_tags_by_priority (text : string) :
  List.filter (fun k => mem k (_issue_keywords text)) priority
  ≡ₚ _issue_keywords text.
Proof.
  apply NoDup_Permutation.
  - apply (sublist_keeps_NoDup _ priority);
      [apply List_filter_sublist | apply priority_distinct].
  - apply issue_keywords_NoDup.
  - intros k. rewrite (list_elem_of_In (List.filter _ _) k), filter_In. split.
    + intros [_ Hk]. by apply mem_spec.
    + intros Hk. split; [| by apply mem_spec].
      apply issue_keywords_elem in Hk as (vals & Hin & _).
      apply list_elem_of_In.
      exact (proj1 (List.Forall_forall _ _) mapping_keys_in_priority _ Hin).
Qed.

(** X16: The issue labels shown to the user: at most five, none twice, each
    the label that [label_map] gives to a tag of the input (a raw tag is
    never shown), independent of order and repetition in the input; and for
    the tags the tagger detects in a text, no label is lost unless more than
    five tags were detected. *)
Theorem pretty_issues_spec (kws kws' : list string) (text : string) :
  (length (_pretty_issues kws) <= 5)%nat
  /\ NoDup (_pretty_issues kws)
  /\ (forall l, l ∈ _pretty_issues kws ->
                exists k, k ∈ kws /\ (k, l) ∈ label_map)
  /\ ((forall k, k ∈ kws <-> k ∈ kws') -> _pretty_issues kws = _pretty_issues kws')
  /\ length (_pretty_issues (_issue_keywords text))
     = Nat.min 5 (length (_issue_keywords text)).
Proof.
  unfold _pretty_issues. cbv zeta.
  split; [| split; [| split; [| split]]].
  - rewrite take_slice_length by lia. lia.
  - apply (sublist_keeps_NoDup _ (map label_of priority)); [| apply labels_distinct].
    etrans; [apply sublist_take |].
    apply fmap_sublist, List_filter_sublist.
  - intros l Hl.
    destruct (take_slice_prefix
                (map label_of (List.filter (fun k => mem k kws) priority)) 5)
      as [tl Htl].
    assert (Hin : l ∈ map label_of (List.filter (fun k => mem k kws) priority)).
    { rewrite Htl. apply elem_of_app. by left. }
    apply list_elem_of_In, in_map_iff in Hin as (k & <- & Hk).
    apply filter_In in Hk as [Hp Hk]. exists k. split; [by apply mem_spec |].
    exact (proj1 (List.Forall_forall _ _) priority_labelled k Hp).
  - intros Hsame. do 2 f_equal. apply filter_ext. intros k.
    apply mem_iff, Hsame.
  - rewrite take_slice_length by lia. rewrite length_map.
    by rewrite detected_tags_by_priority.
Qed.

(** *** Citations *)

Lemma fromkeys_elem (l : list string) (seen : gset string) (x : string) :
  x ∈ fromkeys l seen <-> x ∈ l /\ x ∉ seen.
Proof.
  revert seen. induction l as [| y l IH]; intros seen; cbn [fromkeys].
  - split; [intros H; inversion H | intros [H _]; inversion H].
  - destruct (decide (y ∈ seen)) as [Hy | Hy].
    + rewrite IH, elem_of_cons. split; [tauto |].
      intros [[-> | Hx] Hn]; [contradiction | tauto].
    + rewrite !elem_of_cons, IH, elem_of_union, elem_of_singleton. split.
      * intros [-> | [Hx Hn]]; [tauto |]. split; [tauto |]. tauto.
      * intros [[-> | Hx] Hn]; [tauto |].
        destruct (decide (x = y)) as [-> | Hne]; [tauto |]. right. tauto.
Qed.

Lemma fromkeys_NoDup (l : list string) (seen : gset string) :
  NoDup (fromkeys l seen).
Proof.
  revert seen. induction l as [| y l IH]; intros seen; cbn [fromkeys].
  - constructor.
  - destruct (decide (y ∈ seen)) as [Hy | Hy]; [apply IH |].
    apply NoDup_cons. split; [| apply IH].
    rewrite fromkeys_elem. intros [_ Hn]. apply Hn.
    apply elem_of_union. left. by apply elem_of_singleton.
Qed.

Lemma cites_of_spec (top_docs : list Scored) :
  Sorted str_le (cites_of top_docs)
  /\ NoDup (cites_of top_docs)
  /\ forall s, s ∈ cites_of top_docs <->
               exists d, d ∈ top_docs /\ has_key_term d = true /\ cite d = s.
Proof.
  unfold cites_of. split; [apply sorted_Sorted |]. split.
  - rewrite sorted_perm. apply fromkeys_NoDup.
  - intros s. rewrite sorted_perm, fromkeys_elem.
    rewrite list_elem_of_In, in_map_iff. split.
    + intros [(d & Hc & Hd) _]. apply filter_In in Hd as [Hd Hk].
      exists d. split; [by apply list_elem_of_In | by split].
    + intros (d & Hd & Hk & Hc). split; [| apply not_elem_of_empty].
      exists d. split; [exact Hc |]. apply filter_In.
      split; [by apply list_elem_of_In | exact Hk].
Qed.

Lemma evidence_check_unfold (claims : list string) (top_docs : list Scored) :
  evidence_check claims top_docs =
  map (fun c => (c, if any_in key_terms (lower c) then cites_of top_docs else []))
      claims.
Proof.
  unfold evidence_check. apply map_ext. intros c. cbv zeta. f_equal.
  destruct (any_in key_terms (lower c)).
  - unfold cites_of. do 2 f_equal.
    induction top_docs as [| d ds IH]; [reflexivity |].
    cbn [flat_map List.filter]. unfold has_key_term at 1.
    destruct (any_in key_terms (lower (text (doc d)))); cbn [app map]; by rewrite IH.
  - replace (flat_map (fun _ : Scored => []) top_docs) with (@nil string);
      [reflexivity |].
    induction top_docs as [| d ds IH]; [reflexivity | exact IH].
Qed.

(** X17: [evidence_check] returns the claims in their order, each with a sorted
    citation list without repetition; a citation is listed for a claim exactly
    when the claim contains a key term and the citation is that of a document
    whose text contains a key term.  Which key term is irrelevant: the claim
    and the document need not share one. *)
Theorem evidence_check_spec (claims : list string) (top_docs : list Scored) :
  map fst (evidence_check claims top_docs) = claims
  /\ Forall (fun e =>
               Sorted str_le e.2
               /\ NoDup e.2
               /\ forall s, s ∈ e.2 <->
                    any_in key_terms (lower e.1) = true
                    /\ exists d, d ∈ top_docs
                                 /\ any_in key_terms (lower (text (doc d))) = true
                                 /\ cite d = s)
            (evidence_check claims top_docs).
Proof.
  rewrite evidence_check_unfold. split.
  - rewrite map_map. cbn [fst]. apply map_id.
  - apply List.Forall_forall. intros e He.
    apply in_map_iff in He as (c & <- & _). cbn [fst snd].
    destruct (cites_of_spec top_docs) as (Hs & Hn & Hin).
    destruct (any_in key_terms (lower c)).
    + split; [exact Hs |]. split; [exact Hn |]. intros s. rewrite Hin.
      unfold has_key_term. tauto.
    + split; [constructor |]. split; [constructor |]. intros s. split.
      * intros H. inversion H.
      * intros [H _]. discriminate H.
Qed.

Lemma probe_loop_cites (rs : list Scored) :
  fold_left (probe_step rs) claims_probe ([], []) =
  (map (fun c => (c, cites_of rs)) claims_probe,
   map (fun c => mkSnippetRecord c (take_slice (evidences_of rs) 3)) claims_probe).
Proof. by rewrite probe_loop. Qed.

Lemma grounding_agreement (cs : list string) (rs : list Scored) :
  Forall2 (fun g e : string * list string =>
             g.1 = e.1
             /\ (any_in key_terms (lower g.1) = true -> g = e)
             /\ (any_in key_terms (lower g.1) = false -> e.2 = []))
          (map (fun c => (c, cites_of rs)) cs) (evidence_check cs rs).
Proof.
  rewrite evidence_check_unfold.
  induction cs as [| c cs IH]; cbn [map]; constructor; [| exact IH].
  cbn [fst snd]. split; [reflexivity |].
  split; intros Hc; by rewrite Hc.
Qed.

(** X18: The grounding list of a [run_agent] result against [evidence_check] on
    the same documents: the claims are the four probe claims in both, every
    probe claim gets the same citation list in the result, and the two agree
    on each claim that contains a key term; for a claim without one
    [evidence_check] lists nothing. *)
Theorem grounding_against_evidence_check `{Sorting} `{NvidiaChatClient}
    (r : Retriever) (cf : CaseFile) (t : option Q) (mt : option Z)
    (sp : option string) (w w' : World) (res : Result) :
  run_agent r cf t mt sp w = (inr res, w') ->
  grounding res = map (fun c => (c, cites_of (retrieved res))) claims_probe
  /\ Forall2 (fun g e =>
                g.1 = e.1
                /\ (any_in key_terms (lower g.1) = true -> g = e)
                /\ (any_in key_terms (lower g.1) = false -> e.2 = []))
             (grounding res) (evidence_check claims_probe (retrieved res)).
Proof.
  intros Hrun. apply run_agent_inv in Hrun as (w1 & _ & Hfold).
  rewrite probe_loop_cites in Hfold. injection Hfold as Hg _.
  split; [exact Hg |].
  rewrite Hg. exact (grounding_agreement claims_probe (retrieved res)).
Qed.

Lemma grounding_against_evidence_check_witness :
  exists res w',
    run_agent (H := stable) (H0 := Sample.canned) Sample.one_doc Sample.case1
              None None None Sample.fresh = (inr res, w')
    /\ grounding res = map (fun c => (c, cites_of (retrieved res))) claims_probe
    /\ Forall2 (fun g e =>
                  g.1 = e.1
                  /\ (any_in key_terms (lower g.1) = true -> g = e)
                  /\ (any_in key_terms (lower g.1) = false -> e.2 = []))
               (grounding res) (evidence_check claims_probe (retrieved res)).
Proof.
  destruct (run_agent (H := stable) (H0 := Sample.canned) Sample.one_doc
                      Sample.case1 None None None Sample.fresh)
    as [[e | res] w'] eqn:Hrun.
  - vm_compute in Hrun. discriminate Hrun.
  - exists res, w'. split; [reflexivity |].
    exact (grounding_against_evidence_check (H := stable) (H0 := Sample.canned)
             Sample.one_doc Sample.case1 None None None Sample.fresh w' res Hrun).
Defined.

(** *** Snippets *)

Lemma find_contains (tl k : string) :
  (find tl k =? -1) = negb (contains k tl).
Proof.
  unfold find, contains. destruct (find_nat k tl) as [i |]; [| reflexivity].
  apply Z.eqb_neq. lia.
Qed.

Lemma is_space_lower (c : ascii) : is_space (lower_ascii c) = is_space c.
Proof. destruct c as [[] [] [] [] [] [] [] []]; vm_compute; reflexivity. Qed.

Lemma blank_lower (s : string) : blank (lower s) = blank s.
Proof.
  induction s as [| c s IH]; [reflexivity |].
  cbn [lower blank]. by rewrite is_space_lower, IH.
Qed.

Lemma prefix_blank (k s : string) :
  String.prefix k s = true -> blank s = true -> blank k = true.
Proof.
  revert s. induction k as [| a k IH]; intros s Hp Hs; [reflexivity |].
  destruct s as [| b s]; [discriminate Hp |].
  cbn [String.prefix] in Hp. destruct (ascii_dec a b) as [-> | _]; [| discriminate Hp].
  cbn [blank] in Hs |- *. apply andb_true_iff in Hs as [Hb Hs].
  rewrite Hb. exact (IH s Hp Hs).
Qed.

Lemma find_nat_blank (k s : string) (i : nat) :
  find_nat k s = Some i -> blank s = true -> blank k = true.
Proof.
  revert i. induction s as [| c s IH]; intros i Hf Hs.
  - cbn [find_nat] in Hf. destruct (String.prefix k "") eqn:Hp; [| discriminate Hf].
    by apply (prefix_blank k "").
  - cbn [find_nat] in Hf. destruct (String.prefix k (String c s)) eqn:Hp.
    + by apply (prefix_blank k (String c s)).
    + destruct (find_nat k s) as [j |] eqn:Hj; [| discriminate Hf].
      cbn [blank] in Hs. apply andb_true_iff in Hs as [_ Hs].
      by apply (IH j).
Qed.

Lemma lstrip_head (s : string) (c : ascii) (r : string) :
  lstrip s = String c r -> is_space c = false.
Proof.
  induction s as [| a s IH]; [discriminate |].
  cbn [lstrip]. destruct (is_space a) eqn:Ha; [exact IH |].
  intros Heq. injection Heq as <- _. exact Ha.
Qed.

Lemma lstrip_empty (s : string) : lstrip s = "" -> blank s = true.
Proof.
  induction s as [| a s IH]; [reflexivity |].
  cbn [lstrip blank]. destruct (is_space a); [exact IH | discriminate].
Qed.

Lemma rstrip_empty (s : string) : rstrip s = "" -> blank s = true.
Proof.
  induction s as [| a s IH]; [reflexivity |].
  cbn [rstrip blank]. destruct (rstrip s) as [| b r].
  - destruct (is_space a); [intros _; by apply IH | discriminate].
  - discriminate.
Qed.

Lemma strip_empty (s : string) : strip s = "" -> blank s = true.
Proof.
  unfold strip. intros Hs. apply rstrip_empty in Hs.
  destruct (lstrip s) as [| c r] eqn:Hl; [by apply lstrip_empty |].
  apply lstrip_head in Hl. cbn [blank] in Hs. by rewrite Hl in Hs.
Qed.

Lemma substring_all (s : string) : String.substring 0 (String.length s) s = s.
Proof. induction s as [| c s IH]; [reflexivity |]. cbn. by rewrite IH. Qed.

Lemma slice_all (s : string) (stop : Z) : len s <= stop -> slice s 0 stop = s.
Proof.
  intros Hstop. unfold slice, clamp_index. cbv zeta. unfold len in *.
  change (0 <? 0) with false. cbv iota.
  destruct (stop <? 0) eqn:Hneg; [apply Z.ltb_lt in Hneg; lia |].
  set (n := Z.of_nat (String.length s)) in *.
  replace (Z.max 0 (Z.min n 0)) with 0 by lia.
  replace (Z.max 0 (Z.min n stop)) with n by lia.
  rewrite Z.sub_0_r. unfold n. rewrite Nat2Z.id. apply substring_all.
Qed.

Lemma append_empty (a b : string) : a +:+ b = "" -> a = "" /\ b = "".
Proof.
  destruct a; [intros Hb; split; [reflexivity | exact Hb] | discriminate].
Qed.

Lemma key_terms_inked : Forall (fun k => blank k = false) key_terms.
Proof. repeat constructor. Qed.

Lemma extract_snippet_none (text : string) (terms : list string) (window : Z) :
  _extract_snippet text terms window = None <-> any_in terms (lower text) = false.
Proof.
  unfold _extract_snippet, any_in. cbv zeta.
  induction terms as [| k terms IH]; [done |].
  cbn [first_term_window existsb]. rewrite find_contains.
  destruct (contains k (lower text)); cbn [negb orb]; [| exact IH].
  split; discriminate.
Qed.

Lemma extract_snippet_inked (text : string) (terms : list string) (window : Z) :
  Forall (fun k => blank k = false) terms ->
  _extract_snippet text terms window <> Some "".
Proof.
  unfold _extract_snippet. cbv zeta.
  intros Hink. induction Hink as [| k terms Hk _ IH]; [discriminate |].
  cbn [first_term_window]. rewrite find_contains.
  destruct (contains k (lower text)) eqn:Hc; cbn [negb]; [| exact IH].
  cbv zeta.
  set (start := Z.max 0 (find (lower text) k - window / 2)).
  set (stop := Z.min (len text) (find (lower text) k + window / 2)).
  intros Heq. injection Heq as Heq.
  apply append_empty in Heq as [Hpre Heq].
  apply append_empty in Heq as [Hsnip Hpost].
  destruct (0 <? start) eqn:Hstart; [discriminate Hpre |].
  destruct (stop <? len text) eqn:Hstop; [discriminate Hpost |].
  apply Z.ltb_ge in Hstart, Hstop.
  assert (start = 0) as Hs0 by (unfold start in *; lia).
  rewrite Hs0, slice_all in Hsnip by exact Hstop.
  apply strip_empty in Hsnip. rewrite <- blank_lower in Hsnip.
  unfold contains in Hc.
  destruct (find_nat k (lower text)) as [i |] eqn:Hf; [| discriminate Hc].
  rewrite (find_nat_blank k (lower text) i Hf Hsnip) in Hk. discriminate Hk.
Qed.

(** X19: [_extract_snippet] returns [None] exactly when no term occurs in the
    lower-cased text; and when every term has a character other than white
    space, the snippet it returns is never the empty string, so the test
    [if snip] of [run_agent] drops a document only when no term occurs. *)
Theorem extract_snippet_found (text : string) (terms : list string) (window : Z) :
  (_extract_snippet text terms window = None <->
   any_in terms (lower text) = false)
  /\ (Forall (fun k => blank k = false) terms ->
      _extract_snippet text terms window <> Some "").
Proof.
  split; [apply extract_snippet_none | apply extract_snippet_inked].
Qed.

Lemma evidences_of_sources (rs : list Scored) :
  map source (evidences_of rs) = map cite (List.filter has_key_term rs).
Proof.
  unfold evidences_of. induction rs as [| d rs IH]; [reflexivity |].
  cbn [flat_map List.filter]. rewrite map_app, IH. unfold has_key_term at 2.
  destruct (_extract_snippet (text (doc d)) key_terms 140) as [snip |] eqn:Hsn.
  - destruct (any_in key_terms (lower (text (doc d)))) eqn:Hany.
    + destruct (String.eqb_spec snip "") as [-> | _]; [| reflexivity].
      by destruct (extract_snippet_inked _ _ _ key_terms_inked Hsn).
    + apply (proj2 (extract_snippet_none _ _ 140)) in Hany. congruence.
  - apply extract_snippet_none in Hsn. rewrite Hsn. reflexivity.
Qed.

Lemma run_agent_lists `{Sorting} `{NvidiaChatClient}
    (r : Retriever) (cf : CaseFile) (t : option Q) (mt : option Z)
    (sp : option string) (w w' : World) (res : Result) :
  run_agent r cf t mt sp w = (inr res, w') ->
  grounding res = map (fun c => (c, cites_of (retrieved res))) claims_probe
  /\ grounding_snippets res
     = map (fun c => mkSnippetRecord c (take_slice (evidences_of (retrieved res)) 3))
           claims_probe.
Proof.
  intros Hrun. apply run_agent_inv in Hrun as (w1 & _ & Hfold).
  rewrite probe_loop_cites in Hfold.
  split; [exact (f_equal fst Hfold) | exact (f_equal snd Hfold)].
Qed.

(** X20: Each snippet record of a [run_agent] result quotes the first three
    retrieved documents whose text contains a key term, in the order of
    retrieval; every source it names is among the citations of every claim of
    the grounding list, and no snippet is empty. *)
Theorem snippets_quote_cited_documents `{Sorting} `{NvidiaChatClient}
    (r : Retriever) (cf : CaseFile) (t : option Q) (mt : option Z)
    (sp : option string) (w w' : World) (res : Result) :
  run_agent r cf t mt sp w = (inr res, w') ->
  Forall (fun rec =>
            map source (evidence rec)
            = take_slice (map cite (List.filter has_key_term (retrieved res))) 3
            /\ forall ev, ev ∈ evidence rec ->
                 snippet ev <> ""
                 /\ forall g, g ∈ grounding res -> source ev ∈ g.2)
         (grounding_snippets res).
Proof.
  intros Hrun. apply run_agent_lists in Hrun as [Hg Hgs].
  set (rs := retrieved res) in *.
  assert (Hev : forall ev, ev ∈ take_slice (evidences_of rs) 3 ->
                           ev ∈ evidences_of rs).
  { intros ev Hin. destruct (take_slice_prefix (evidences_of rs) 3) as [tl Htl].
    rewrite Htl. apply elem_of_app. by left. }
  apply List.Forall_forall. intros rec Hrec. rewrite Hgs in Hrec.
  apply in_map_iff in Hrec as (c & <- & _). cbn [evidence]. split.
  - unfold take_slice. rewrite <- evidences_of_sources, length_map.
    apply fmap_take.
  - intros ev Hin. apply Hev in Hin. split.
    + unfold evidences_of in Hin. apply list_elem_of_In, in_flat_map in Hin
        as (d & _ & Hin).
      destruct (_extract_snippet (text (doc d)) key_terms 140) as [snip |];
        [| by apply in_nil in Hin].
      destruct (String.eqb_spec snip "") as [| Hne]; [by apply in_nil in Hin |].
      destruct Hin as [<- | []]. exact Hne.
    + intros g Hgin. rewrite Hg in Hgin.
      apply list_elem_of_In, in_map_iff in Hgin as (c' & <- & _). cbn [snd].
      apply cites_of_spec.
      assert (Hsrc : source ev ∈ map cite (List.filter has_key_term rs)).
      { rewrite <- evidences_of_sources. apply list_elem_of_In, in_map.
        by apply list_elem_of_In. }
      apply list_elem_of_In, in_map_iff in Hsrc as (d & Hc & Hd).
      apply filter_In in Hd as [Hd Hk].
      exists d. split; [by apply list_elem_of_In | by split].
Qed.

Lemma snippets_quote_cited_documents_witness :
  exists res w',
    run_agent (H := stable) (H0 := Sample.canned) Sample.one_doc Sample.case1
              None None None Sample.fresh = (inr res, w')
    /\ Forall (fun rec =>
                 map source (evidence rec)
                 = take_slice (map cite (List.filter has_key_term (retrieved res))) 3
                 /\ forall ev, ev ∈ evidence rec ->
                      snippet ev <> ""
                      /\ forall g, g ∈ grounding res -> source ev ∈ g.2)
              (grounding_snippets res).
Proof.
  destruct (run_agent (H := stable) (H0 := Sample.canned) Sample.one_doc
                      Sample.case1 None None None Sample.fresh)
    as [[e | res] w'] eqn:Hrun.
  - vm_compute in Hrun. discriminate Hrun.
  - exists res, w'. split; [reflexivity |].
    exact (snippets_quote_cited_documents (H := stable) (H0 := Sample.canned)
             Sample.one_doc Sample.case1 None None None Sample.fresh w' res Hrun).
Defined.

(** *** Confidence *)

Local Open Scope Q_scope.

Lemma top_score_mean_scores (rs rs' : list Scored) :
  map score (take_slice rs 2) = map score (take_slice rs' 2) ->
  top_score_mean rs = top_score_mean rs'.
Proof.
  intros Hsame. unfold top_score_mean. cbv zeta.
  rewrite <- (length_map score (take_slice rs 2)),
          <- (length_map score (take_slice rs' 2)).
  by rewrite Hsame.
Qed.

Ltac clip_cases :=
  unfold Py.min;
  repeat (match goal with
          | |- context [Qlt_le_dec ?a ?b] => destruct (Qlt_le_dec a b)
          end);
  unfold Py.max;
  repeat (match goal with
          | |- context [Qlt_le_dec ?a ?b] => destruct (Qlt_le_dec a b)
          end);
  lra.

Lemma verdict_confidence_mono (query : string) (rs rs' : list Scored) :
  top_score_mean rs <= top_score_mean rs' ->
  _verdict_confidence query rs <= _verdict_confidence query rs'.
Proof.
  unfold _verdict_confidence. cbv zeta.
  set (s := top_score_mean rs). set (s' := top_score_mean rs').
  clearbody s s'. intros Hle.
  destruct (any_in risk_terms (lower query)), (any_in safe_terms (lower query));
    clip_cases.
Qed.

(** X21: The confidence depends on the retrieved list only through the scores
    of its first two elements; it does not fall when their mean rises; it is
    0.5 whenever that mean is at most 0.6 and 0.9 whenever it is at least
    1.6, whatever the query says; and a query with both a risk term and a
    safeguard term gets the confidence of a query with neither. *)
Theorem verdict_confidence_profile (query query' : string) (rs rs' : list Scored) :
  (map score (take_slice rs 2) = map score (take_slice rs' 2) ->
   _verdict_confidence query rs = _verdict_confidence query rs')
  /\ (top_score_mean rs <= top_score_mean rs' ->
      _verdict_confidence query rs <= _verdict_confidence query rs')
  /\ (top_score_mean rs <= 6 # 10 -> _verdict_confidence query rs == 5 # 10)
  /\ (16 # 10 <= top_score_mean rs -> _verdict_confidence query rs == 9 # 10)
  /\ (any_in risk_terms (lower query) = any_in safe_terms (lower query) ->
      any_in risk_terms (lower query') = any_in safe_terms (lower query') ->
      _verdict_confidence query rs == _verdict_confidence query' rs).
Proof.
  split; [| split; [apply verdict_confidence_mono |]].
  - intros Hsame. unfold _verdict_confidence.
    by rewrite (top_score_mean_scores rs rs' Hsame).
  - unfold _verdict_confidence. cbv zeta.
    set (s := top_score_mean rs). clearbody s.
    split; [| split].
    + intros Hle.
      destruct (any_in risk_terms (lower query)), (any_in safe_terms (lower query));
        clip_cases.
    + intros Hle.
      destruct (any_in risk_terms (lower query)), (any_in safe_terms (lower query));
        clip_cases.
    + intros -> ->.
      destruct (any_in safe_terms (lower query)), (any_in safe_terms (lower query'));
        clip_cases.
Qed.

Lemma round2_hundredths (a b : Z) (x : Q) :
  (a # 100 <= x <= b # 100) ->
  exists z : Z, (a <= z <= b)%Z /\ Py.round x 2 == z # 100.
Proof.
  intros [Ha Hb].
  destruct (round_half_even_bounds a b (x * inject_Z (10 ^ Z.of_nat 2)))
    as [Hl Hu].
  { change (inject_Z (10 ^ Z.of_nat 2)) with (100 # 1)%Q.
    unfold Qle, Qmult, inject_Z in *. simpl in *. lia. }
  exists (round_half_even (x * inject_Z (10 ^ Z.of_nat 2))).
  split; [lia |].
  unfold Py.round. cbv zeta. rewrite Qred_correct.
  change (inject_Z (10 ^ Z.of_nat 2)) with (100 # 1)%Q.
  set (z := round_half_even (x * (100 # 1))).
  unfold Qeq, Qdiv, Qmult, Qinv, inject_Z. simpl. lia.
Qed.

(** *** The request as a whole *)

Lemma draft_arguments_call `{NvidiaChatClient} (cf : CaseFile)
    (top_docs : list Scored) (temperature : Q) (max_tokens : Z)
    (sp : option string) (w : World) :
  exists prompt,
    draft_arguments cf top_docs temperature max_tokens sp w
    = chat_text [("system", system_rules); ("user", prompt)] temperature max_tokens w.
Proof.
  unfold draft_arguments.
  rewrite (bind_pure _ _ _ _ _ (get_style_flags_total w)). cbv zeta.
  unfold generate_legal_brief. eexists. reflexivity.
Qed.

(** X22: A successful [run_agent] request calls the chat service once, in the
    world the request started in, with the system rules and one user message,
    at temperature 0.35 and 1700 tokens unless the caller gave others; the
    draft is what the service answered and the world is the one it left.
    The reported confidence is a whole number of hundredths between 0.50 and
    0.90, and at most four documents, the first ones retrieved, are named for
    feedback. *)
Theorem run_agent_report `{Sorting} `{NvidiaChatClient}
    (r : Retriever) (cf : CaseFile) (t : option Q) (mt : option Z)
    (sp : option string) (w w' : World) (res : Result) :
  run_agent r cf t mt sp w = (inr res, w') ->
  (exists prompt,
      chat_text [("system", system_rules); ("user", prompt)]
                (default (35 # 100) t) (default 1700%Z mt) w
      = (inr (draft res), w'))
  /\ (exists z : Z, (50 <= z <= 90)%Z /\ confidence res == z # 100)
  /\ used_doc_ids res = map (fun d => id (doc d)) (take_slice (retrieved res) 4)
  /\ (length (used_doc_ids res) <= 4)%nat.
Proof.
  unfold run_agent. intros Hrun.
  apply bind_inr in Hrun as (rs & w1 & Hret & Hrun).
  apply retrieve_inv in Hret as [-> _].
  destruct (fold_left (probe_step rs) claims_probe ([], [])) as [g gs].
  apply bind_inr in Hrun as (dr & w2 & Hdraft & Hrun).
  injection Hrun as <- <-. cbn [draft confidence used_doc_ids retrieved].
  split; [| split; [| split]].
  - destruct (draft_arguments_call cf rs (default (35 # 100) t)
                (default 1700%Z mt) sp w) as [prompt Hcall].
    exists prompt. by rewrite <- Hcall.
  - apply (round2_hundredths 50 90).
    match goal with
    | |- _ <= ?c <= _ =>
        assert (Hb : 5 # 10 <= c <= 9 # 10)
          by (unfold _verdict_confidence; apply clip_bounds; lra);
        set (conf := c) in *; clearbody conf
    end.
    lra.
  - reflexivity.
  - rewrite length_map, take_slice_length by lia. lia.
Qed.

Lemma run_agent_report_witness :
  exists res w',
    run_agent (H := stable) (H0 := Sample.canned) Sample.one_doc Sample.case1
              None None None Sample.fresh = (inr res, w')
    /\ (exists prompt,
           chat_text (NvidiaChatClient := Sample.canned)
                     [("system", system_rules); ("user", prompt)]
                     (35 # 100) 1700%Z Sample.fresh
           = (inr (draft res), w'))
    /\ (exists z : Z, (50 <= z <= 90)%Z /\ confidence res == z # 100)
    /\ used_doc_ids res = map (fun d => id (doc d)) (take_slice (retrieved res) 4)
    /\ (length (used_doc_ids res) <= 4)%nat.
Proof.
  destruct (run_agent (H := stable) (H0 := Sample.canned) Sample.one_doc
                      Sample.case1 None None None Sample.fresh)
    as [[e | res] w'] eqn:Hrun.
  - vm_compute in Hrun. discriminate Hrun.
  - exists res, w'. split; [reflexivity |].
    exact (run_agent_report (H := stable) (H0 := Sample.canned)
             Sample.one_doc Sample.case1 None None None Sample.fresh w' res Hrun).
Defined.

(** X23: [run_agent] catches nothing.  When the chat service raises on every
    call and leaves the world alone, every request ends in an exception, with
    no result and the world as it was: the plan, the documents and the
    grounding that were already computed are lost. *)
Theorem run_agent_service_down `{Sorting} `{NvidiaChatClient}
    (r : Retriever) (cf : CaseFile) (t : option Q) (mt : option Z)
    (sp : option string) (w : World) :
  (forall msgs temperature max_tokens w0,
      exists e, chat_text msgs temperature max_tokens w0 = (inl e, w0)) ->
  exists e, run_agent r cf t mt sp w = (inl e, w).
Proof.
  intros Hdown. unfold run_agent. cbv zeta.
  destruct (retrieve_factors r (case_title cf +:+ ". " +:+ facts cf) 5)
    as (sel & _ & Hret).
  unfold mbind at 1, M_bind at 1. rewrite Hret.
  destruct sel as [e | l]; [by exists e |].
  match goal with
  | |- context [fold_left ?f claims_probe ?st] =>
      destruct (fold_left f claims_probe st) as [g gs]
  end.
  match goal with
  | |- context [draft_arguments cf ?rs ?t' ?mt' sp] =>
      destruct (draft_arguments_call cf rs t' mt' sp w) as [prompt Hcall];
      destruct (Hdown [("system", system_rules); ("user", prompt)] t' mt' w)
        as [e He]
  end.
  exists e. unfold mbind at 1, M_bind at 1. by rewrite Hcall, He.
Qed.

Lemma run_agent_service_down_witness :
  exists e,
    run_agent (H := stable) (H0 := no_service) Sample.one_doc Sample.case1
              None None None Sample.fresh = (inl e, Sample.fresh).
Proof.
  apply (run_agent_service_down (H := stable) (H0 := no_service)
           Sample.one_doc Sample.case1 None None None Sample.fresh).
  intros msgs temperature max_tokens w0. exists RuntimeError. reflexivity.
Defined.

(** X24: Only the documents of the first four retrieved elements reach the
    prompt: two lists that agree on them, whatever their scores and whatever
    comes after, make [draft_arguments] behave the same. *)
Theorem draft_uses_first_four_documents `{NvidiaChatClient}
    (cf : CaseFile) (docs1 docs2 : list Scored) (temperature : Q)
    (max_tokens : Z) (sp : option string) (w : World) :
  map doc (take_slice docs1 4) = map doc (take_slice docs2 4) ->
  draft_arguments cf docs1 temperature max_tokens sp w
  = draft_arguments cf docs2 temperature max_tokens sp w.
Proof.
  intros Hsame. unfold draft_arguments.
  rewrite !(bind_pure _ _ _ _ _ (get_style_flags_total w)). cbv zeta.
  unfold cite.
  rewrite <- !(map_map doc
                 (fun dd => "- " +:+ (title dd +:+ " (" +:+ str_of_Z (year dd) +:+ ")")
                            +:+ ": " +:+ text dd)).
  by rewrite Hsame.
Qed.

Lemma draft_uses_first_four_documents_witness :
  draft_arguments (H := Sample.canned) Sample.case1
                  [mkScored 1 Sample.d1; mkScored 1 Sample.d2;
                   mkScored 1 Sample.d1; mkScored 1 Sample.d2]
                  (35 # 100) 1700%Z None Sample.fresh
  = draft_arguments (H := Sample.canned) Sample.case1
                    [mkScored 0 Sample.d1; mkScored 0 Sample.d2;
                     mkScored 0 Sample.d1; mkScored 0 Sample.d2;
                     mkScored 0 Sample.d1]
                    (35 # 100) 1700%Z None Sample.fresh.
Proof.
  apply (draft_uses_first_four_documents (H := Sample.canned)).
  reflexivity.
Defined.

(** *** What feedback can and cannot change in a result *)

Lemma run_agent_fields `{Sorting} `{NvidiaChatClient}
    (r : Retriever) (cf : CaseFile) (t : option Q) (mt : option Z)
    (sp : option string) (w w' : World) (res : Result) :
  run_agent r cf t mt sp w = (inr res, w') ->
  let query := case_title cf +:+ ". " +:+ facts cf in
  retrieve r query 5 w = (inr (retrieved res), w)
  /\ issues res = _pretty_issues (_issue_keywords query)
  /\ plan res = plan_steps (_issue_keywords query)
  /\ confidence res = Py.round (_verdict_confidence query (retrieved res)) 2
  /\ used_doc_ids res = map (fun d => id (doc d)) (take_slice (retrieved res) 4).
Proof.
  unfold run_agent. intros Hrun. cbv zeta.
  apply bind_inr in Hrun as (rs & w1 & Hret & Hrun).
  destruct (retrieve_inv _ _ _ _ _ _ Hret) as [-> _].
  destruct (fold_left (probe_step rs) claims_probe ([], [])) as [g gs].
  apply bind_inr in Hrun as (dr & w2 & Hdraft & Hrun).
  injection Hrun as <- <-. cbn [retrieved issues plan confidence used_doc_ids].
  by repeat split.
Qed.

Lemma cited_by_documents (rs1 rs2 : list Scored) :
  map doc rs1 = map doc rs2 ->
  map cite (List.filter has_key_term rs1) = map cite (List.filter has_key_term rs2).
Proof.
  revert rs2. induction rs1 as [| a rs1 IH]; intros [| b rs2] Hsame;
    try discriminate Hsame; [reflexivity |].
  cbn [map] in Hsame. injection Hsame as Hab Hsame.
  cbn [List.filter].
  assert (Hk : has_key_term a = has_key_term b)
    by (unfold has_key_term; by rewrite Hab).
  assert (Hc : cite a = cite b) by (unfold cite; by rewrite Hab).
  rewrite Hk. destruct (has_key_term b); cbn [map];
    by rewrite ?Hc, (IH rs2 Hsame).
Qed.

Lemma evidences_by_documents (rs1 rs2 : list Scored) :
  map doc rs1 = map doc rs2 -> evidences_of rs1 = evidences_of rs2.
Proof.
  revert rs2. induction rs1 as [| a rs1 IH]; intros [| b rs2] Hsame;
    try discriminate Hsame; [reflexivity |].
  cbn [map] in Hsame. injection Hsame as Hab Hsame.
  assert (Hc : cite a = cite b) by (unfold cite; by rewrite Hab).
  unfold evidences_of in *. cbn [flat_map].
  by rewrite Hab, Hc, (IH rs2 Hsame).
Qed.

Lemma take_slice_map {A B} (f : A -> B) (l : list A) (k : Z) :
  map f (take_slice l k) = take_slice (map f l) k.
Proof. unfold take_slice. rewrite length_map. apply fmap_take. Qed.

(** X25: Two requests on the same case, in any two worlds and with any
    generation settings and style: the issues, the plan, the documents
    retrieved and their order, the grounding list, the snippets and the
    document ids named for feedback are the same.  Stored feedback can change
    only the scores, the confidence and the draft. *)
Theorem feedback_changes_scores_only `{Sorting} `{NvidiaChatClient}
    (r : Retriever) (cf : CaseFile)
    (t1 t2 : option Q) (mt1 mt2 : option Z) (sp1 sp2 : option string)
    (w1 w1' w2 w2' : World) (res1 res2 : Result) :
  run_agent r cf t1 mt1 sp1 w1 = (inr res1, w1') ->
  run_agent r cf t2 mt2 sp2 w2 = (inr res2, w2') ->
  issues res1 = issues res2
  /\ plan res1 = plan res2
  /\ map doc (retrieved res1) = map doc (retrieved res2)
  /\ grounding res1 = grounding res2
  /\ grounding_snippets res1 = grounding_snippets res2
  /\ used_doc_ids res1 = used_doc_ids res2.
Proof.
  intros Hrun1 Hrun2.
  destruct (run_agent_lists _ _ _ _ _ _ _ _ Hrun1) as [Hg1 Hs1].
  destruct (run_agent_lists _ _ _ _ _ _ _ _ Hrun2) as [Hg2 Hs2].
  destruct (run_agent_fields _ _ _ _ _ _ _ _ Hrun1) as (Hr1 & Hi1 & Hp1 & _ & Hu1).
  destruct (run_agent_fields _ _ _ _ _ _ _ _ Hrun2) as (Hr2 & Hi2 & Hp2 & _ & Hu2).
  assert (Hdocs : map doc (retrieved res1) = map doc (retrieved res2)).
  { destruct (retrieve_factors r (case_title cf +:+ ". " +:+ facts cf) 5)
      as (sel & _ & Hret).
    rewrite Hret in Hr1, Hr2. destruct sel as [e | l]; [discriminate Hr1 |].
    injection Hr1 as <-. injection Hr2 as <-. by rewrite !map_map. }
  split; [by rewrite Hi1, Hi2 |]. split; [by rewrite Hp1, Hp2 |].
  split; [exact Hdocs |]. split; [| split].
  - rewrite Hg1, Hg2. unfold cites_of.
    by rewrite (cited_by_documents _ _ Hdocs).
  - rewrite Hs1, Hs2. by rewrite (evidences_by_documents _ _ Hdocs).
  - rewrite Hu1, Hu2. rewrite <- !(map_map doc id), !take_slice_map.
    by rewrite Hdocs.
Qed.

Lemma feedback_changes_scores_only_witness :
  exists res1 w1' res2 w2',
    run_agent (H := stable) (H0 := Sample.canned) Sample.one_doc Sample.case1
              None None None Sample.fresh = (inr res1, w1')
    /\ run_agent (H := stable) (H0 := Sample.canned) Sample.one_doc Sample.case1
                 (Some (1 # 2)) (Some 400%Z) (Some "prose") boosted
       = (inr res2, w2')
    /\ issues res1 = issues res2
    /\ plan res1 = plan res2
    /\ map doc (retrieved res1) = map doc (retrieved res2)
    /\ grounding res1 = grounding res2
    /\ grounding_snippets res1 = grounding_snippets res2
    /\ used_doc_ids res1 = used_doc_ids res2.
Proof.
  destruct (run_agent (H := stable) (H0 := Sample.canned) Sample.one_doc
                      Sample.case1 None None None Sample.fresh)
    as [[e | res1] w1'] eqn:Hrun1.
  { vm_compute in Hrun1. discriminate Hrun1. }
  destruct (run_agent (H := stable) (H0 := Sample.canned) Sample.one_doc
                      Sample.case1 (Some (1 # 2)) (Some 400%Z) (Some "prose") boosted)
    as [[e | res2] w2'] eqn:Hrun2.
  { vm_compute in Hrun2. discriminate Hrun2. }
  exists res1, w1', res2, w2'. split; [reflexivity |]. split; [reflexivity |].
  exact (feedback_changes_scores_only (H := stable) (H0 := Sample.canned)
           Sample.one_doc Sample.case1 None (Some (1 # 2)) None (Some 400%Z)
           None (Some "prose") Sample.fresh w1' boosted w2' res1 res2 Hrun1 Hrun2).
Defined.

(** *** The confidence a request can reach *)

Lemma issue_overlap_le_1 (tags kws : list string) : _issue_overlap tags kws <= 1.
Proof.
  unfold _issue_overlap. destruct kws as [| kw kws]; [lra |].
  apply Qdiv_nat_le_1.
  - apply subseteq_size, intersection_subseteq_r.
  - destruct (size (list_to_set (kw :: kws) : gset string)) eqn:Hsz; [| lia].
    exfalso. apply size_empty_inv in Hsz.
    assert (Hkw : kw ∈ (list_to_set (kw :: kws) : gset string))
      by (apply elem_of_list_to_set; by left).
    rewrite Hsz in Hkw. by apply not_elem_of_empty in Hkw.
Qed.

Lemma recency_le_1 (year current_year : Z) : _recency year current_year <= 1.
Proof.
  unfold _recency. cbv zeta.
  set (a := Z.max 0 (current_year - year)).
  assert (Ha : 0 <= inject_Z a).
  { change 0 with (inject_Z 0). rewrite <- Zle_Qle. lia. }
  set (q := inject_Z a) in *. clearbody q.
  assert (Hdiv : q / 20 == q * (1 # 20)) by reflexivity.
  unfold Py.max. destruct (Qlt_le_dec 0 (1 - q / 20)); lra.
Qed.

Lemma top_score_mean_le (rs : list Scored) (c : Q) :
  0 <= c -> Forall (fun x => score x <= c) rs -> top_score_mean rs <= c.
Proof.
  intros Hc Hall. unfold top_score_mean. cbv zeta.
  destruct rs as [| a [| b rs]].
  - cbn. unfold Qdiv. rewrite Qmult_0_l. exact Hc.
  - apply Forall_cons in Hall as [Ha _].
    change (take_slice [a] 2) with [a]. cbn [map length sum fold_left].
    set (x := score a) in *. clearbody x.
    change (inject_Z (Z.max 1 (Z.of_nat 1))) with 1.
    assert (Hd : (0 + x) / 1 == x) by (unfold Qdiv; change (/ 1) with 1; lra).
    lra.
  - apply Forall_cons in Hall as [Ha Hall]. apply Forall_cons in Hall as [Hb _].
    replace (take_slice (a :: b :: rs) 2) with [a; b].
    2: { unfold take_slice, clamp_index. cbn [length].
         destruct (2 <? 0)%Z eqn:Hneg; [discriminate Hneg |].
         replace (Z.to_nat _) with 2%nat by lia. reflexivity. }
    cbn [map length sum fold_left].
    set (x := score a) in *. set (y := score b) in *. clearbody x y.
    change (inject_Z (Z.max 1 (Z.of_nat 2))) with 2.
    assert (Hd : (0 + x + y) / 2 == (x + y) * (1 # 2))
      by (unfold Qdiv; change (/ 2) with (1 # 2); lra).
    lra.
Qed.

Lemma results_score_le (self : Retriever) (query : string) (w : World)
    (idxs : list nat) (rs : list Scored) :
  reachable w ->
  Forall (fun s => s <= 1) (similarities self query) ->
  Forall (fun d => level_weight d <= 1) (docs self) ->
  Forall2 (result_at self query w) idxs rs ->
  Forall (fun x => score x <= 12 # 10) rs.
Proof.
  intros Hreach Hsims Hlw Hres.
  induction Hres as [| idx x idxs rs (sim & Hd & Hs & Hsc) _ IH];
    constructor; [| exact IH].
  rewrite Hsc.
  assert (Hsim : sim <= 1).
  { apply (proj1 (List.Forall_forall _ _) Hsims).
    apply list_elem_of_In. by apply list_elem_of_lookup_2 in Hs. }
  assert (Hw : level_weight (doc x) <= 1).
  { apply (proj1 (List.Forall_forall _ _) Hlw).
    apply list_elem_of_In. by apply list_elem_of_lookup_2 in Hd. }
  pose proof (recency_le_1 (year (doc x)) current_year_default) as Hrec.
  pose proof (issue_overlap_le_1 (tags (doc x)) (_issue_keywords query)) as Hov.
  pose proof (boost_of_in_range w (id (doc x)) Hreach) as [_ Hb].
  unfold score_in.
  set (rc := _recency _ _) in *. set (ov := _issue_overlap _ _) in *.
  set (b := boost_of _ _) in *. set (lw := level_weight _) in *.
  clearbody rc ov b lw. lra.
Qed.

(** X26: With similarities and court weights at most 1, as cosine similarity
    and the corpus give them, and boosts written by [record_feedback], the
    reported confidence is at most 0.80: the upper limit 0.9 of
    [_verdict_confidence] is out of reach. *)
Theorem confidence_below_limit `{Sorting} `{NvidiaChatClient}
    (r : Retriever) (cf : CaseFile) (t : option Q) (mt : option Z)
    (sp : option string) (w w' : World) (res : Result) :
  reachable w ->
  Forall (fun s => s <= 1) (similarities r (case_title cf +:+ ". " +:+ facts cf)) ->
  Forall (fun d => level_weight d <= 1) (docs r) ->
  run_agent r cf t mt sp w = (inr res, w') ->
  5 # 10 <= confidence res <= 8 # 10.
Proof.
  intros Hreach Hsims Hlw Hrun.
  destruct (run_agent_fields _ _ _ _ _ _ _ _ Hrun) as (Hret & _ & _ & Hconf & _).
  cbv zeta in Hret, Hconf.
  set (query := case_title cf +:+ ". " +:+ facts cf) in *.
  assert (Hscores : Forall (fun x => score x <= 12 # 10) (retrieved res)).
  { apply retrieve_inv in Hret as [_ [idxs Hres]].
    exact (results_score_le r query w idxs (retrieved res) Hreach Hsims Hlw Hres). }
  rewrite Hconf.
  assert (Hc : 50 # 100 <= _verdict_confidence query (retrieved res) <= 80 # 100).
  { pose proof (top_score_mean_le (retrieved res) (12 # 10) ltac:(lra) Hscores) as Hm.
    unfold _verdict_confidence. cbv zeta.
    set (s := top_score_mean (retrieved res)) in *. clearbody s.
    destruct (any_in risk_terms (lower query)), (any_in safe_terms (lower query));
      split; clip_cases. }
  destruct (round2_hundredths 50 80 _ Hc) as (z & [Hlo Hhi] & ->).
  unfold Qle. cbn [Qnum Qden]. lia.
Qed.

Lemma confidence_below_limit_witness :
  exists res w',
    run_agent (H := stable) (H0 := Sample.canned) Sample.one_doc Sample.case1
              None None None Sample.fresh = (inr res, w')
    /\ 5 # 10 <= confidence res <= 8 # 10.
Proof.
  destruct (run_agent (H := stable) (H0 := Sample.canned) Sample.one_doc
                      Sample.case1 None None None Sample.fresh)
    as [[e | res] w'] eqn:Hrun.
  - vm_compute in Hrun. discriminate Hrun.
  - exists res, w'. split; [reflexivity |].
    apply (confidence_below_limit (H := stable) (H0 := Sample.canned)
             Sample.one_doc Sample.case1 None None None Sample.fresh w' res).
    + apply reach_start.
    + repeat constructor. vm_compute. discriminate.
    + repeat constructor. vm_compute. discriminate.
    + exact Hrun.
Defined.

End AgentMore.

(** ** Cleaning the answer of the chat service *)
Module SanitizeFacts.
Import Text llm_output MoreSpec TextMore AgentMore.

Lemma lower_drop_chars (n : nat) (s : string) :
  lower (drop_chars n s) = drop_chars n (lower s).
Proof.
  revert s. induction n as [| n IH]; intros s; [reflexivity |].
  destruct s as [| c s]; [reflexivity |]. cbn [drop_chars lower]. apply IH.
Qed.

Lemma find_nat_tail (k : string) (c : ascii) (s : string) :
  find_nat k (String c s) = None -> find_nat k s = None.
Proof.
  cbn [find_nat]. destruct (String.prefix k (String c s)); [discriminate |].
  by destruct (find_nat k s).
Qed.

Lemma find_nat_drop (k : string) (n : nat) (s : string) :
  find_nat k s = None -> find_nat k (drop_chars n s) = None.
Proof.
  revert s. induction n as [| n IH]; intros s Hs; [exact Hs |].
  destruct s as [| c s]; [exact Hs |].
  cbn [drop_chars]. apply IH. by apply find_nat_tail in Hs.
Qed.

Lemma find_nat_head (k s : string) :
  find_nat k s = None -> String.prefix k s = false.
Proof.
  destruct s as [| c s]; cbn [find_nat];
    destruct (String.prefix k _); [discriminate | done | discriminate | done].
Qed.

Lemma sub_think_no_close (s : string) :
  find_nat "</think>" (lower s) = None -> sub_think s 0 = s.
Proof.
  induction s as [| c s IH]; intros Hno; [reflexivity |].
  cbn [sub_think].
  rewrite lower_drop_chars, (find_nat_drop _ 7 _ Hno).
  cbn [lower] in Hno. apply find_nat_tail in Hno.
  rewrite (IH Hno). by destruct (String.prefix "<think>" (lower (String c s))).
Qed.

Lemma sub_think_no_open (s : string) :
  find_nat "<think>" (lower s) = None -> sub_think s 0 = s.
Proof.
  induction s as [| c s IH]; intros Hno; [reflexivity |].
  cbn [sub_think]. rewrite (find_nat_head _ _ Hno).
  cbn [lower] in Hno. apply find_nat_tail in Hno. by rewrite (IH Hno).
Qed.

Lemma sub_think_length (s : string) (skip : nat) :
  (String.length (sub_think s skip) <= String.length s)%nat.
Proof.
  revert skip. induction s as [| c s IH]; intros skip; [reflexivity |].
  cbn [sub_think]. destruct skip as [| n].
  - destruct (String.prefix "<think>" (lower (String c s))).
    + destruct (find_nat "</think>" (lower (drop_chars 7 (String c s)))) as [j |].
      * specialize (IH (6 + j + 8)%nat). cbn [String.length]. lia.
      * specialize (IH 0%nat). cbn [String.length]. lia.
    + specialize (IH 0%nat). cbn [String.length]. lia.
  - specialize (IH n). cbn [String.length]. lia.
Qed.

Lemma lstrip_length (s : string) :
  (String.length (lstrip s) <= String.length s)%nat.
Proof.
  induction s as [| c s IH]; [reflexivity |].
  cbn [lstrip]. destruct (is_space c); cbn [String.length]; lia.
Qed.

Lemma rstrip_length (s : string) :
  (String.length (rstrip s) <= String.length s)%nat.
Proof.
  induction s as [| c s IH]; [reflexivity |].
  cbn [rstrip]. destruct (rstrip s) as [| d r].
  - destruct (is_space c); cbn [String.length]; lia.
  - cbn [String.length] in *. lia.
Qed.

Lemma rstrip_idem (s : string) : rstrip (rstrip s) = rstrip s.
Proof.
  induction s as [| c s IH]; [reflexivity |].
  cbn [rstrip]. destruct (rstrip s) as [| d r] eqn:Hr.
  - destruct (is_space c) eqn:Hc; [reflexivity |].
    cbn [rstrip]. by rewrite Hc.
  - change (rstrip (String c (String d r)))
      with (match rstrip (String d r) with
            | EmptyString => if is_space c then EmptyString else String c EmptyString
            | r' => String c r'
            end).
    by rewrite IH.
Qed.

Lemma rstrip_head (c : ascii) (s : string) :
  rstrip (String c s) = "" \/ exists r, rstrip (String c s) = String c r.
Proof.
  cbn [rstrip]. destruct (rstrip s) as [| d r].
  - destruct (is_space c); [by left | right; by eexists].
  - right. by eexists.
Qed.

Lemma strip_idem (s : string) : strip (strip s) = strip s.
Proof.
  unfold strip. destruct (lstrip s) as [| c t] eqn:Hl; [reflexivity |].
  apply lstrip_head in Hl.
  destruct (rstrip_head c t) as [-> | [r Hr]]; [reflexivity |].
  rewrite Hr. cbn [lstrip]. rewrite Hl. rewrite <- Hr. apply rstrip_idem.
Qed.

(** *** Removing a block *)

Lemma app_cons_string (x : ascii) (a b : string) :
  String x a +:+ b = String x (a +:+ b).
Proof. reflexivity. Qed.

Lemma app_nil_string (b : string) : "" +:+ b = b.
Proof. reflexivity. Qed.

Lemma lower_app (a b : string) : lower (a +:+ b) = lower a +:+ lower b.
Proof.
  induction a as [| c a IH]; [reflexivity |].
  rewrite app_cons_string. cbn [lower]. by rewrite IH.
Qed.

Lemma length_app_string (a b : string) :
  String.length (a +:+ b) = (String.length a + String.length b)%nat.
Proof.
  induction a as [| c a IH]; [reflexivity |].
  rewrite app_cons_string. cbn [String.length]. by rewrite IH.
Qed.

Lemma app_assoc_string (a b c : string) : (a +:+ b) +:+ c = a +:+ (b +:+ c).
Proof.
  induction a as [| x a IH]; [reflexivity |].
  rewrite !app_cons_string. by rewrite IH.
Qed.

Lemma prefix_app_same (p r : string) : String.prefix p (p +:+ r) = true.
Proof.
  induction p as [| c p IH]; [by destruct r |].
  rewrite app_cons_string. cbn [String.prefix].
  destruct (ascii_dec c c); [exact IH | congruence].
Qed.

Lemma drop_chars_app (a b : string) : drop_chars (String.length a) (a +:+ b) = b.
Proof. induction a as [| c a IH]; [by destruct b |]. exact IH. Qed.

Lemma sub_think_skip (x y : string) (n : nat) :
  sub_think (x +:+ y) (String.length x + n) = sub_think y n.
Proof. induction x as [| c x IH]; [reflexivity |]. exact IH. Qed.

(** A match of [p] that starts inside [t] and is not inside [t] alone
    runs over the end of [t]. *)
Lemma prefix_over_end (p t y : string) :
  String.prefix p t = false -> String.prefix p (t +:+ y) = true ->
  exists p2, p = t +:+ p2 /\ p2 <> "" /\ String.prefix p2 y = true.
Proof.
  revert t. induction p as [| a p IH]; intros t Hno Hyes.
  - by destruct t.
  - destruct t as [| b t].
    + exists (String a p). by repeat split.
    + rewrite app_cons_string in Hyes. cbn [String.prefix] in Hno, Hyes.
      destruct (ascii_dec a b) as [-> | _]; [| discriminate Hyes].
      destruct (IH t Hno Hyes) as (p2 & -> & Hne & Hp2).
      exists p2. by repeat split.
Qed.

Lemma close_tag_no_overlap (t r : string) :
  t <> "" -> String.prefix "</think>" t = false ->
  String.prefix "</think>" (t +:+ "</think>" +:+ r) = false.
Proof.
  intros Hne Hno.
  destruct (String.prefix "</think>" (t +:+ "</think>" +:+ r)) eqn:Hyes;
    [| reflexivity].
  exfalso.
  destruct (prefix_over_end _ _ _ Hno Hyes) as (p2 & Heq & Hp2 & Hpre).
  destruct t as [| x1 t]; [done |]. clear Hne Hno Hyes.
  do 7 (rewrite app_cons_string in Heq; injection Heq as _ Heq;
        destruct t as [| ? t];
        [rewrite app_nil_string in Heq; subst p2;
         rewrite app_cons_string in Hpre; cbn [String.prefix] in Hpre;
         match type of Hpre with
         | context [ascii_dec ?a ?b] =>
             revert Hpre; destruct (ascii_dec a b) as [Hab | _];
             [discriminate Hab | discriminate]
         end |]).
  rewrite app_cons_string in Heq. injection Heq as _ Heq.
  destruct t as [| ? t].
  - rewrite app_nil_string in Heq. by subst p2.
  - rewrite app_cons_string in Heq. discriminate Heq.
Qed.

Lemma find_close_tag (b c : string) :
  find_nat "</think>" b = None ->
  find_nat "</think>" (b +:+ "</think>" +:+ c) = Some (String.length b).
Proof.
  induction b as [| x b IH]; intros Hno.
  - rewrite app_nil_string. cbn [String.length].
    pose proof (prefix_app_same "</think>" c) as Hp.
    destruct ("</think>" +:+ c); cbn [find_nat]; by rewrite Hp.
  - pose proof (close_tag_no_overlap (String x b) c ltac:(done)
                  (find_nat_head _ _ Hno)) as Hp.
    rewrite app_cons_string in Hp |- *. cbn [String.length find_nat].
    rewrite Hp. apply find_nat_tail in Hno. by rewrite (IH Hno).
Qed.

Lemma lower_ascii_is_lt (x : ascii) : lower_ascii x = "<"%char -> x = "<"%char.
Proof.
  destruct x as [[] [] [] [] [] [] [] []]; vm_compute; congruence.
Qed.

Lemma sub_think_keeps_plain (a rest : string) :
  find_nat "<" a = None -> sub_think (a +:+ rest) 0 = a +:+ sub_think rest 0.
Proof.
  induction a as [| x a IH]; intros Hno; [reflexivity |].
  assert (Hx : lower_ascii x <> "<"%char).
  { intros Hlt. apply lower_ascii_is_lt in Hlt. subst x.
    apply find_nat_head in Hno. cbn [String.prefix] in Hno.
    destruct (ascii_dec "<" "<"); [by destruct a | congruence]. }
  rewrite !app_cons_string. cbn [sub_think lower String.prefix].
  destruct (ascii_dec "<" (lower_ascii x)) as [Hlt | _]; [by destruct Hx |].
  apply find_nat_tail in Hno. by rewrite (IH Hno).
Qed.

(** X28: A block is removed: when the text before an opening tag has no "<",
    the tags are "<think>" and "</think>" in any case, and the text between
    them has no closing tag, [sanitize_output] drops the tags and everything
    between them, keeps the text before, goes on behind the closing tag and
    strips the result. *)
Theorem sanitize_output_removes_block (a o b cl c : string) :
  contains "<" a = false ->
  lower o = "<think>" ->
  lower cl = "</think>" ->
  contains "</think>" (lower b) = false ->
  sanitize_output (a +:+ o +:+ b +:+ cl +:+ c) = strip (a +:+ sub_think c 0).
Proof.
  unfold sanitize_output, contains. intros Ha Ho Hcl Hb. f_equal.
  destruct (find_nat "<" a) eqn:Hfa; [discriminate Ha |].
  destruct (find_nat "</think>" (lower b)) eqn:Hfb; [discriminate Hb |].
  rewrite (sub_think_keeps_plain _ _ Hfa). f_equal.
  assert (Hlo : String.length o = 7%nat) by (by rewrite <- length_lower, Ho).
  assert (Hlc : String.length cl = 8%nat) by (by rewrite <- length_lower, Hcl).
  assert (Hpre : String.prefix "<think>" (lower (o +:+ b +:+ cl +:+ c)) = true).
  { rewrite lower_app, Ho. apply prefix_app_same. }
  assert (Hfind : find_nat "</think>" (lower (drop_chars 7 (o +:+ b +:+ cl +:+ c)))
                  = Some (String.length b)).
  { rewrite <- Hlo, drop_chars_app, !lower_app, Hcl, (find_close_tag _ _ Hfb).
    by rewrite length_lower. }
  destruct o as [| o1 o']; [discriminate Hlo |].
  rewrite app_cons_string in Hpre, Hfind |- *.
  cbn [sub_think]. rewrite Hpre, Hfind.
  rewrite <- !app_assoc_string.
  replace (6 + String.length b + 8)%nat
    with (String.length ((o' +:+ b) +:+ cl) + 0)%nat.
  - apply sub_think_skip.
  - rewrite !length_app_string, Hlc. cbn [String.length] in Hlo. lia.
Qed.

Lemma sanitize_output_removes_block_witness :
  sanitize_output ("Brief: " +:+ "<THINK>" +:+ "plan the answer" +:+ "</Think>"
                   +:+ " The petition is allowed. ")
  = strip ("Brief: " +:+ sub_think " The petition is allowed. " 0).
Proof.
  apply (sanitize_output_removes_block "Brief: " "<THINK>" "plan the answer"
           "</Think>" " The petition is allowed. "); reflexivity.
Defined.

(** X27: [sanitize_output] on a text with no "<think>" or no "</think>" in it,
    in any case, only strips the white space at both ends; in particular an
    opening tag that is never closed stays in the text.  On every text the
    result has no white space left at either end and is not longer than the
    text. *)
Theorem sanitize_output_plain (text : string) :
  (contains "<think>" (lower text) = false \/
   contains "</think>" (lower text) = false ->
   sanitize_output text = strip text)
  /\ strip (sanitize_output text) = sanitize_output text
  /\ (String.length (sanitize_output text) <= String.length text)%nat.
Proof.
  unfold sanitize_output. split; [| split].
  - unfold contains. intros [Hno | Hno].
    + destruct (find_nat "<think>" (lower text)) eqn:Hf; [discriminate Hno |].
      by rewrite (sub_think_no_open _ Hf).
    + destruct (find_nat "</think>" (lower text)) eqn:Hf; [discriminate Hno |].
      by rewrite (sub_think_no_close _ Hf).
  - apply strip_idem.
  - unfold strip.
    pose proof (rstrip_length (lstrip (sub_think text 0))).
    pose proof (lstrip_length (sub_think text 0)).
    pose proof (sub_think_length text 0). lia.
Qed.

End SanitizeFacts.

(** ** The ranker over feedback files of any content *)
Module RawFacts.
Import Text Py Numpy feedback retriever agent Spec MoreSpec RawSpec PyFacts
       FeedbackFacts NumpyFacts RetrieverFacts RetrieverMore.

(** *** Computations that only read *)

Lemma ro_ret {A} (a : A) : reads_only (raw.RM_ret A a).
Proof. by intros rw. Qed.

Lemma ro_raise {A} (e : Exn) : reads_only (@raw.raise A e).
Proof. by intros rw. Qed.

Lemma ro_lift_exn {A} (r : Exn + A) : reads_only (raw.lift_exn r).
Proof. destruct r; [apply ro_raise | apply ro_ret]. Qed.

Lemma ro_bind {A B} (rm : raw.RM A) (rf : A -> raw.RM B) :
  reads_only rm -> (forall a, reads_only (rf a)) ->
  reads_only (@mbind raw.RM raw.RM_bind A B rf rm).
Proof.
  intros Hm Hf rw. unfold mbind, raw.RM_bind. specialize (Hm rw).
  destruct (rm rw) as [[e | a] rw1]; cbn [snd] in Hm; subst rw1.
  - reflexivity.
  - apply Hf.
Qed.

Lemma ro_index {A} (l : list A) (i : nat) : reads_only (raw.index l i).
Proof. unfold raw.index. destruct (l !! i); [apply ro_ret | apply ro_raise]. Qed.

Lemma ro_for_each {A B} (rf : A -> raw.RM B) (l : list A) :
  (forall x, reads_only (rf x)) -> reads_only (raw.for_each rf l).
Proof.
  intros Hf. induction l as [| x l IH]; [apply ro_ret |].
  cbn [raw.for_each]. apply ro_bind; [apply Hf |].
  intros y. apply ro_bind; [exact IH |]. intros ys. apply ro_ret.
Qed.

Lemma ro_load : reads_only raw._load.
Proof. intros rw. destruct rw as [[| | | [[b |] |]] dd]; reflexivity. Qed.

Lemma ro_get_doc_boosts : reads_only raw.get_doc_boosts.
Proof.
  unfold raw.get_doc_boosts. apply ro_bind; [apply ro_load |].
  intros [| [| items]].
  - by intros rw.
  - apply ro_raise.
  - apply ro_bind.
    + apply ro_for_each. intros kv. apply ro_bind; [apply ro_lift_exn |].
      intros x. apply ro_ret.
    + intros kvs. apply ro_ret.
Qed.

Lemma ro_precedent_score (sim : Q) (d : Doc) (kws : list string) :
  reads_only (raw._precedent_score sim d kws).
Proof.
  unfold raw._precedent_score. cbv zeta.
  apply ro_bind; [apply ro_get_doc_boosts |]. intros boosts. apply ro_ret.
Qed.

Lemma ro_retrieve {np : Sorting} (self : Retriever) (query : string) (k : Z) :
  reads_only (raw.retrieve self query k).
Proof.
  unfold raw.retrieve. cbv zeta.
  apply ro_bind; [apply ro_lift_exn |]. intros part.
  apply ro_bind; [apply ro_for_each; intros i; apply ro_index |]. intros keys.
  apply ro_bind; [apply ro_for_each; intros i; apply ro_index |]. intros idxs.
  apply ro_for_each. intros idx.
  apply ro_bind; [apply ro_index |]. intros d.
  apply ro_bind; [apply ro_index |]. intros sim.
  apply ro_bind; [apply ro_precedent_score |]. intros sc. apply ro_ret.
Qed.

(** *** The typed model is the ranker on a file whose boosts can be read *)

Lemma same_ret {A} (rw : raw.RWorld) (w : World) (a : A) :
  same_outcome rw w (raw.RM_ret A a) (mret a).
Proof. by split. Qed.

Lemma same_lift_exn {A} (rw : raw.RWorld) (w : World) (r : Exn + A) :
  same_outcome rw w (raw.lift_exn r) (lift_exn r).
Proof. destruct r; by split. Qed.

Lemma same_bind {A B} (rw : raw.RWorld) (w : World)
    (rm : raw.RM A) (nm : M A) (rf : A -> raw.RM B) (nf : A -> M B) :
  same_outcome rw w rm nm ->
  (forall a, same_outcome rw w (rf a) (nf a)) ->
  same_outcome rw w (@mbind raw.RM raw.RM_bind A B rf rm) (nm ≫= nf).
Proof.
  intros [Hr Hn] Hf. unfold same_outcome, mbind, raw.RM_bind, M_bind.
  rewrite Hr. destruct (nm w) as [[e | a] w1]; cbn [fst snd] in *; subst w1.
  - by split.
  - apply Hf.
Qed.

Lemma same_index {A} (rw : raw.RWorld) (w : World) (l : list A) (i : nat) :
  same_outcome rw w (raw.index l i) (index l i).
Proof. unfold raw.index, index. destruct (l !! i); by split. Qed.

Lemma same_for_each {A B} (rw : raw.RWorld) (w : World)
    (rf : A -> raw.RM B) (nf : A -> M B) (l : list A) :
  (forall x, same_outcome rw w (rf x) (nf x)) ->
  same_outcome rw w (raw.for_each rf l) (for_each nf l).
Proof.
  intros Hf. induction l as [| x l IH]; [by split |].
  cbn [raw.for_each for_each]. apply same_bind; [apply Hf |].
  intros y. apply same_bind; [exact IH |]. intros ys. apply same_ret.
Qed.

Lemma same_precedent_score (rw : raw.RWorld) (w : World) (m : gmap string Q)
    (sim : Q) (d : Doc) (kws : list string) :
  raw.get_doc_boosts rw = (inr m, rw) ->
  get_doc_boosts w = (inr m, w) ->
  same_outcome rw w (raw._precedent_score sim d kws) (_precedent_score sim d kws).
Proof.
  intros Hraw Hn. unfold raw._precedent_score, _precedent_score. cbv zeta.
  apply same_bind.
  - split; [by rewrite Hraw, Hn | by rewrite Hn].
  - intros boosts. apply same_ret.
Qed.

Lemma same_retrieve {np : Sorting} (rw : raw.RWorld) (w : World)
    (m : gmap string Q) (self : Retriever) (query : string) (k : Z) :
  raw.get_doc_boosts rw = (inr m, rw) ->
  get_doc_boosts w = (inr m, w) ->
  same_outcome rw w (raw.retrieve self query k) (retrieve self query k).
Proof.
  intros Hraw Hn. unfold raw.retrieve, retrieve. cbv zeta.
  apply same_bind; [apply same_lift_exn |]. intros part.
  apply same_bind; [apply same_for_each; intros i; apply same_index |]. intros keys.
  apply same_bind; [apply same_for_each; intros i; apply same_index |]. intros idxs.
  apply same_for_each. intros idx.
  apply same_bind; [apply same_index |]. intros d.
  apply same_bind; [apply same_index |]. intros sim.
  apply same_bind; [by apply (same_precedent_score rw w m) |].
  intros sc. apply same_ret.
Qed.

Lemma typed_world_boosts (m : gmap string Q) :
  get_doc_boosts (typed_world m) = (inr m, typed_world m).
Proof. apply get_doc_boosts_total. Qed.

(** On a file whose boosts [get_doc_boosts] reads as [m], [retrieve] does
    what it does in the typed model with the boosts [m] stored. *)
Lemma retrieve_readable {np : Sorting} (rw : raw.RWorld) (m : gmap string Q)
    (self : Retriever) (query : string) (k : Z) :
  raw.get_doc_boosts rw = (inr m, rw) ->
  raw.retrieve self query k rw = (fst (retrieve self query k (typed_world m)), rw).
Proof.
  intros Hraw.
  exact (proj1 (same_retrieve rw (typed_world m) m self query k Hraw
                  (typed_world_boosts m))).
Qed.

Lemma scored_at_typed (m : gmap string Q) (self : Retriever) (query : string)
    (idx : nat) :
  scored_at self query (typed_world m) idx = scored_with m self query idx.
Proof. reflexivity. Qed.

(** *** The typed model is the ranker on the files [_save] writes *)

Lemma rbind_pure {A B} (rm : raw.RM A) (rf : A -> raw.RM B)
    (rw rw1 : raw.RWorld) (a : A) :
  rm rw = (inr a, rw1) -> (@mbind raw.RM raw.RM_bind A B rf rm) rw = rf a rw1.
Proof. intros Hm. unfold mbind, raw.RM_bind. by rewrite Hm. Qed.

Lemma fold_insert_items (m : gmap string Q) :
  fold_left (fun acc kv => <[fst kv := snd kv]> acc) (map_to_list m) ∅ = m.
Proof.
  rewrite (list_to_map_flip m (rev (map_to_list m)))
    at 2 by apply Permutation_rev.
  unfold list_to_map. symmetry. apply fold_left_rev_right.
Qed.

Lemma convert_numbers (l : list (string * Q)) (rw : raw.RWorld) :
  raw.for_each (fun kv : string * (Exn + Q) =>
                  @mbind raw.RM raw.RM_bind _ _
                    (fun x => @mret raw.RM raw.RM_ret _ (fst kv, x))
                    (raw.lift_exn (snd kv)))
               (map (fun kq => (fst kq, inr (snd kq))) l) rw
  = (inr l, rw).
Proof.
  induction l as [| [k q] l IH]; [reflexivity |].
  cbn [map raw.for_each].
  rewrite (rbind_pure _ _ rw rw (k, q)) by reflexivity.
  by rewrite (rbind_pure _ _ rw rw l IH).
Qed.

Lemma raw_of_boosts (w : World) :
  raw.get_doc_boosts (raw_of w) = (inr (loaded_boosts w), raw_of w).
Proof.
  destruct w as [[| | | [o |]] wr dd]; try reflexivity.
  destruct o as [sb sc ep [m |] ln]; [| reflexivity].
  unfold raw.get_doc_boosts, raw_of. cbn [feedback_file j_doc_boosts option_map].
  unfold mbind at 1, raw.RM_bind at 1.
  change (raw._load _) with
    (inr (raw.Loaded (raw.Dict (map (fun kq : string * Q => (fst kq, inr (snd kq)))
                                    (map_to_list m)))) : Exn + raw.Data,
     raw.mkRWorld
       (raw.RStored
          (raw.RObj (Some (raw.Dict (map (fun kq : string * Q =>
                                            (fst kq, inr (snd kq)))
                                         (map_to_list m))))))
       (default_doc_boosts (mkWorld (Stored (JObj (mkJsonObj sb sc ep (Some m) ln)))
                                    wr dd))).
  cbv iota. rewrite (rbind_pure _ _ _ _ _ (convert_numbers _ _)).
  cbn [mret raw.RM_ret]. by rewrite fold_insert_items.
Qed.

(** On a file of the typed model the two embeddings of [get_doc_boosts]
    and of [retrieve] do the same. *)
Lemma typed_files_agree {np : Sorting} (w : World) (self : Retriever)
    (query : string) (k : Z) :
  raw.get_doc_boosts (raw_of w) = (inr (loaded_boosts w), raw_of w)
  /\ raw.retrieve self query k (raw_of w) = (fst (retrieve self query k w), raw_of w).
Proof.
  split; [apply raw_of_boosts |].
  exact (proj1 (same_retrieve (raw_of w) w (loaded_boosts w) self query k
                  (raw_of_boosts w) (get_doc_boosts_total w))).
Qed.

(** *** Asking for more documents than there are *)





(** *** Length and order of the result *)

(** X5: When [get_doc_boosts] can read the feedback file, the similarity
    vector has one entry for each document and [k >= 0]: [retrieve] raises
    nothing, leaves the world as it was and returns [min(k, N)] elements, no
    offset of the corpus twice, in non-increasing order of similarity to the
    query, and no document left out is more similar to the query than one
    that is returned. *)
Theorem retrieve_top_k_by_similarity {np : Sorting} {laws : SortingLaws np}
    (self : Retriever) (query : string) (k : Z) (rw : raw.RWorld)
    (m : gmap string Q) :
  raw.get_doc_boosts rw = (inr m, rw) ->
  length (similarities self query) = length (docs self) ->
  (0 <= k)%Z ->
  exists idxs,
    raw.retrieve self query k rw = (inr (map (scored_with m self query) idxs), rw)
    /\ length idxs = Z.to_nat (Z.min k (Z.of_nat (length (docs self))))
    /\ NoDup idxs
    /\ StronglySorted (fun i j => (sim_at self query j <= sim_at self query i)%Q) idxs
    /\ (forall i j, i ∈ idxs -> (j < length (docs self))%nat -> j ∉ idxs ->
                    (sim_at self query j <= sim_at self query i)%Q).
Proof.
  intros Hm Hlen Hk.
  destruct (retrieve_length_and_order self query k (typed_world m) Hlen Hk)
    as (idxs & Hret & Hrest).
  exists idxs. split; [| exact Hrest].
  by rewrite (retrieve_readable rw m self query k Hm), Hret.
Qed.

Lemma retrieve_top_k_by_similarity_witness :
  exists idxs,
    raw.retrieve (H := stable) Sample.two_docs "privacy and biometric" 1 good_boosts
    = (inr (map (scored_with {["p1" := (1 # 10)%Q]} Sample.two_docs
                             "privacy and biometric") idxs), good_boosts)
    /\ length idxs = Z.to_nat (Z.min 1 (Z.of_nat (length (docs Sample.two_docs))))
    /\ NoDup idxs
    /\ StronglySorted
         (fun i j => (sim_at Sample.two_docs "privacy and biometric" j
                      <= sim_at Sample.two_docs "privacy and biometric" i)%Q) idxs
    /\ (forall i j, i ∈ idxs -> (j < length (docs Sample.two_docs))%nat ->
                    j ∉ idxs ->
                    (sim_at Sample.two_docs "privacy and biometric" j
                     <= sim_at Sample.two_docs "privacy and biometric" i)%Q).
Proof.
  apply (retrieve_top_k_by_similarity (np := stable) (laws := stable_laws)
           Sample.two_docs "privacy and biometric" 1 good_boosts).
  - vm_compute. reflexivity.
  - reflexivity.
  - lia.
Defined.

(** *** What feedback can change *)

(** X4: [retrieve] only reads: whatever it returns or raises, on a feedback
    file of any content, the file and [DEFAULT_FEEDBACK] are left as they
    were.  And stored boosts never change which documents are returned or
    their order: in two worlds whose boosts [get_doc_boosts] can read,
    [retrieve] raises the same exception or returns the same documents in the
    same order, with the same score wherever the two worlds store the same
    boost, or none, for the document. *)
Theorem retrieve_selection_ignores_feedback {np : Sorting}
    (self : Retriever) (query : string) (k : Z) :
  (forall rw, snd (raw.retrieve self query k rw) = rw)
  /\ (forall rw1 rw2 m1 m2,
         raw.get_doc_boosts rw1 = (inr m1, rw1) ->
         raw.get_doc_boosts rw2 = (inr m2, rw2) ->
         match fst (raw.retrieve self query k rw1),
               fst (raw.retrieve self query k rw2) with
         | inl e1, inl e2 => e1 = e2
         | inr res1, inr res2 =>
             map doc res1 = map doc res2
             /\ Forall2 (fun r1 r2 =>
                           m1 !! id (doc r1) = m2 !! id (doc r1) ->
                           score r1 = score r2) res1 res2
         | _, _ => False
         end).
Proof.
  split; [apply ro_retrieve |].
  intros rw1 rw2 m1 m2 Hm1 Hm2.
  rewrite (retrieve_readable rw1 m1 self query k Hm1),
          (retrieve_readable rw2 m2 self query k Hm2). cbn [fst].
  destruct (retrieve_factors self query k) as ([e | l] & _ & Hret).
  - by rewrite (Hret (typed_world m1)), (Hret (typed_world m2)).
  - rewrite (Hret (typed_world m1)), (Hret (typed_world m2)). cbn [fst]. split.
    + rewrite !map_map. reflexivity.
    + clear Hret. induction l as [| p l IH]; cbn [map]; constructor; [| exact IH].
      cbn [score doc]. intros Hsame. unfold score_in, boost_of.
      change (loaded_boosts (typed_world m1)) with m1.
      change (loaded_boosts (typed_world m2)) with m2.
      by rewrite Hsame.
Qed.

End RawFacts.
